(** * pulse-converter: the conversion worker's job lifecycle

    A shallow embedding of the Go conversion service (package [worker]
    with the [models], [services] and [config] packages it uses) and the
    properties of its queue handling: claiming, retry with backoff,
    exhaustion, the stale-job sweep, the decode step and local cleanup.

    Conventions of the model.
    - Go's [int] and [time.Duration] are 64-bit: they are values of [Z]
      with the wrap-around written out ([GoInt.wrap64]).
    - Redis is the three lists named by the configuration (heads first),
      the [conversion:status:<id>] hashes and nothing else; its commands
      are single atomic steps on that store.  The three configured list
      names are taken to be distinct keys, as in the default configuration.
    - PostgreSQL is the [file_conversions] table keyed by [id]; every
      statement may fail, which an oracle in the world decides.
    - The object store and the conversion daemon are outside the program:
      what they answer in one attempt is an input ([AttemptEnv]).
    - [encoding/json] is an interface ([Codec]) for the general results,
      with one instance ([EncodingJSON.encoding_json]) that follows the
      documented behaviour of the Go package on [ConversionJob]. *)

From Stdlib Require Import ZArith String Ascii List Bool Lia.
From stdpp Require Import base option list gmap strings pretty.

#[local] Set Warnings "-register-all,-clear-no-such-hyp".

Local Open Scope string_scope.
Local Open Scope list_scope.
Local Open Scope Z_scope.

(** ** Go integers *)

Module GoInt.

Definition min_int64 : Z := - 2 ^ 63.
Definition max_int64 : Z := 2 ^ 63 - 1.

Definition in_int64 (z : Z) : Prop := min_int64 <= z <= max_int64.

Definition in_int64b (z : Z) : bool := (min_int64 <=? z) && (z <=? max_int64).

(** Two's complement wrap-around of signed 64-bit arithmetic. *)
Definition wrap64 (z : Z) : Z := (z + 2 ^ 63) mod 2 ^ 64 - 2 ^ 63.

(** Saturation, as [time.Time.Sub] does it. *)
Definition saturate64 (z : Z) : Z :=
  if z <? min_int64 then min_int64
  else if max_int64 <? z then max_int64 else z.

End GoInt.

(** ** Package [time], as far as the worker uses it *)

Module GoTime.
Import GoInt.

(** [time.Duration]: a count of nanoseconds. *)
Definition Second : Z := 1000000000.
Definition Minute : Z := 60 * Second.

(** [time.Time] without monotonic reading: the instant, in nanoseconds
    since the Unix epoch, and the offset of its zone in seconds east of
    UTC (which only printing uses). *)
Record Time := mkTime { unixNano : Z; zoneOffset : Z }.

(** The zero [Time]: January 1, year 1, 00:00:00 UTC. *)
Definition zeroTime : Time := mkTime (-62135596800 * Second) 0.

(** [t.Sub(u)] for an instant [now] and a time [u]; [time.Since(u)] is
    [time.Now().Sub(u)]. *)
Definition Since (now : Z) (u : Time) : Z := saturate64 (now - unixNano u).

(** Days of the proleptic Gregorian calendar, counted from 1970-01-01. *)
Definition days_from_civil (y m d : Z) : Z :=
  let y' := if m <=? 2 then y - 1 else y in
  let era := y' / 400 in
  let yoe := y' - era * 400 in
  let mp := (m + 9) mod 12 in
  let doy := (153 * mp + 2) / 5 + d - 1 in
  let doe := yoe * 365 + yoe / 4 - yoe / 100 + doy in
  era * 146097 + doe - 719468.

Definition civil_from_days (z : Z) : Z * Z * Z :=
  let z' := z + 719468 in
  let era := z' / 146097 in
  let doe := z' - era * 146097 in
  let yoe := (doe - doe / 1460 + doe / 36524 - doe / 146096) / 365 in
  let doy := doe - (365 * yoe + yoe / 4 - yoe / 100) in
  let mp := (5 * doy + 2) / 153 in
  let d := doy - (153 * mp + 2) / 5 + 1 in
  let m := if mp <? 10 then mp + 3 else mp - 9 in
  let y := yoe + era * 400 in
  (if m <=? 2 then y + 1 else y, m, d).

Definition isLeap (y : Z) : bool :=
  (y mod 4 =? 0) && (negb (y mod 100 =? 0) || (y mod 400 =? 0)).

Definition daysIn (m y : Z) : Z :=
  if m =? 2 then (if isLeap y then 29 else 28)
  else if (m =? 4) || (m =? 6) || (m =? 9) || (m =? 11) then 30 else 31.

(** [time.Date(y, m, d, hh, mm, ss, nsec, UTC)] shifted by a zone. *)
Definition Date (y m d hh mm ss nsec off : Z) : Time :=
  mkTime ((days_from_civil y m d * 86400 + hh * 3600 + mm * 60 + ss - off)
            * Second + nsec) off.

End GoTime.

(** ** Package [models] *)

Module Models.
Import GoTime.

(** [models.ConversionJob]; the [json] tags are in [EncodingJSON.fieldName]. *)
Record ConversionJob := mkJob {
  ConversionID : Z;
  FileID : Z;
  FileGUID : string;
  UserID : Z;
  InputS3Path : string;
  OutputS3Path : string;
  InputExtension : string;
  RetryCount : Z;
  MaxRetries : Z;
  CreatedAt : Time;
  Timeout : Z
}.

(** The zero value of the struct, what [var job models.ConversionJob] is. *)
Definition zeroJob : ConversionJob :=
  mkJob 0 0 "" 0 "" "" "" 0 0 zeroTime 0.

(** [job.RetryCount = n], every other field kept. *)
Definition setRetryCount (n : Z) (j : ConversionJob) : ConversionJob :=
  mkJob (ConversionID j) (FileID j) (FileGUID j) (UserID j) (InputS3Path j)
        (OutputS3Path j) (InputExtension j) n (MaxRetries j) (CreatedAt j)
        (Timeout j).

(** The integer fields hold Go [int]s. *)
Definition wellTyped (j : ConversionJob) : Prop :=
  GoInt.in_int64 (RetryCount j) /\ GoInt.in_int64 (MaxRetries j).

(** [json.Unmarshal(data, &job)] on a fresh job and [json.Marshal(job)],
    the two calls the worker makes.  [Unmarshal] is [None] when Go returns
    an error; [Marshal] is the byte string the caller goes on with (the
    caller drops the error, so on an error that is the empty string). *)
Class Codec := {
  Unmarshal : string -> option ConversionJob;
  Marshal : ConversionJob -> string
}.

End Models.

(** ** [encoding/json] on [ConversionJob] *)

Module EncodingJSON.
Import GoInt GoTime Models.

Definition code (c : ascii) : Z := Z.of_N (N_of_ascii c).
Definition chr (z : Z) : ascii := ascii_of_N (Z.to_N z).

Definition dquote : ascii := chr 34.
Definition backslash : ascii := chr 92.

Definition isDigit (c : ascii) : bool := (48 <=? code c) && (code c <=? 57).

Definition isSpace (c : ascii) : bool :=
  let n := code c in (n =? 32) || (n =? 9) || (n =? 10) || (n =? 13).

Definition hexVal (c : ascii) : option Z :=
  let n := code c in
  if (48 <=? n) && (n <=? 57) then Some (n - 48)
  else if (97 <=? n) && (n <=? 102) then Some (n - 87)
  else if (65 <=? n) && (n <=? 70) then Some (n - 55)
  else None.

(** A parsed JSON text.  A number keeps its literal, a string keeps the
    bytes between its quotes next to their unquoted form
    ([time.Time.UnmarshalJSON] reads the former). *)
Inductive json :=
| JNull
| JBool (b : bool)
| JNumber (lit : string)
| JString (raw s : string)
| JArray (xs : list json)
| JObject (ms : list (string * json)).

Fixpoint skipSpace (s : string) : string :=
  match s with
  | String c r => if isSpace c then skipSpace r else s
  | EmptyString => s
  end.

(** *** String literals *)

Inductive StrTok := Raw (c : ascii) | U16 (n : Z).

Definition simpleEscape (e : ascii) : option ascii :=
  let n := code e in
  if n =? 34 then Some (chr 34)
  else if n =? 92 then Some (chr 92)
  else if n =? 47 then Some (chr 47)
  else if n =? 98 then Some (chr 8)
  else if n =? 102 then Some (chr 12)
  else if n =? 110 then Some (chr 10)
  else if n =? 114 then Some (chr 13)
  else if n =? 116 then Some (chr 9)
  else None.

(** The input after an opening quote, up to the closing one. *)
Fixpoint scanString (s : string) : option (list StrTok * string) :=
  match s with
  | EmptyString => None
  | String c r =>
    if Ascii.eqb c dquote then Some ([], r)
    else if Ascii.eqb c backslash then
      match r with
      | String e r1 =>
        if Ascii.eqb e "u" then
          match r1 with
          | String h1 (String h2 (String h3 (String h4 r2))) =>
            match hexVal h1, hexVal h2, hexVal h3, hexVal h4 with
            | Some a, Some b, Some c', Some d =>
              match scanString r2 with
              | Some (ts, rest) =>
                Some (U16 (((a * 16 + b) * 16 + c') * 16 + d) :: ts, rest)
              | None => None
              end
            | _, _, _, _ => None
            end
          | _ => None
          end
        else
          match simpleEscape e with
          | Some x =>
            match scanString r1 with
            | Some (ts, rest) => Some (Raw x :: ts, rest)
            | None => None
            end
          | None => None
          end
      | EmptyString => None
      end
    else if code c <? 32 then None
    else
      match scanString r with
      | Some (ts, rest) => Some (Raw c :: ts, rest)
      | None => None
      end
  end.

Definition utf8 (n : Z) : string :=
  if n <? 128 then String (chr n) ""
  else if n <? 2048 then
    String (chr (192 + n / 64)) (String (chr (128 + n mod 64)) "")
  else if n <? 65536 then
    String (chr (224 + n / 4096))
      (String (chr (128 + (n / 64) mod 64)) (String (chr (128 + n mod 64)) ""))
  else
    String (chr (240 + n / 262144))
      (String (chr (128 + (n / 4096) mod 64))
         (String (chr (128 + (n / 64) mod 64)) (String (chr (128 + n mod 64)) ""))).

Definition isSurrogate (n : Z) : bool := (55296 <=? n) && (n <? 57344).
Definition isHigh (n : Z) : bool := (55296 <=? n) && (n <? 56320).
Definition isLow (n : Z) : bool := (56320 <=? n) && (n <? 57344).

(** Escapes resolved; a surrogate that is not the first half of a pair
    becomes U+FFFD.  (Bytes that are not UTF-8 are kept as they are.) *)
Fixpoint unquote (ts : list StrTok) : string :=
  match ts with
  | [] => ""
  | Raw c :: r => String c (unquote r)
  | U16 hi :: r =>
    if isSurrogate hi then
      match r with
      | U16 lo :: r' =>
        if isHigh hi && isLow lo
        then utf8 ((hi - 55296) * 1024 + (lo - 56320) + 65536) ++ unquote r'
        else utf8 65533 ++ unquote r
      | _ => utf8 65533 ++ unquote r
      end
    else utf8 hi ++ unquote r
  end%string.

(** *** Number literals *)

Fixpoint takeDigits (s : string) : string * string :=
  match s with
  | String c r =>
    if isDigit c then let '(d, rest) := takeDigits r in (String c d, rest)
    else (EmptyString, s)
  | EmptyString => (EmptyString, EmptyString)
  end.

Definition scanInt (s : string) : option (string * string) :=
  match s with
  | String c r =>
    if Ascii.eqb c "0" then Some (String c "", r)
    else if isDigit c then let '(d, rest) := takeDigits r in Some (String c d, rest)
    else None
  | EmptyString => None
  end.

Definition scanFrac (s : string) : option (string * string) :=
  match s with
  | String c r =>
    if Ascii.eqb c "." then
      match takeDigits r with
      | (EmptyString, _) => None
      | (d, rest) => Some (String c d, rest)
      end
    else Some (EmptyString, s)
  | EmptyString => Some (EmptyString, s)
  end.

Definition scanExp (s : string) : option (string * string) :=
  match s with
  | String c r =>
    if Ascii.eqb c "e" || Ascii.eqb c "E" then
      let '(sign, r1) :=
        match r with
        | String c2 r' =>
          if Ascii.eqb c2 "+" || Ascii.eqb c2 "-" then (String c2 "", r') else (EmptyString, r)
        | EmptyString => (EmptyString, r)
        end in
      match takeDigits r1 with
      | (EmptyString, _) => None
      | (d, rest) => Some (String c (sign ++ d), rest)
      end
    else Some (EmptyString, s)
  | EmptyString => Some (EmptyString, s)
  end%string.

Definition scanNumber (s : string) : option (string * string) :=
  let '(sign, s1) :=
    match s with
    | String c r => if Ascii.eqb c "-" then (String c "", r) else (EmptyString, s)
    | EmptyString => (EmptyString, s)
    end in
  '(i, s2) ← scanInt s1;
  '(f, s3) ← scanFrac s2;
  '(e, s4) ← scanExp s3;
  Some (sign ++ i ++ f ++ e, s4)%string.

Definition dropPrefix (p s : string) : option string :=
  if String.prefix p s
  then Some (String.substring (String.length p) (String.length s - String.length p) s)
  else None.

(** *** Values

    Recursive descent; of two calls that follow each other in a chain of
    calls at least one has consumed a byte, so two units of fuel per byte
    of input (and two more) are never used up. *)

Fixpoint parseValue (fuel : nat) (s : string) {struct fuel} : option (json * string) :=
  match fuel with
  | O => None
  | S n =>
    match skipSpace s with
    | EmptyString => None
    | String c r =>
      if Ascii.eqb c "{" then
        match skipSpace r with
        | String c1 r1 =>
          if Ascii.eqb c1 "}" then Some (JObject [], r1)
          else
            match parseMembers n r with
            | Some (ms, rest) => Some (JObject ms, rest)
            | None => None
            end
        | EmptyString => None
        end
      else if Ascii.eqb c "[" then
        match skipSpace r with
        | String c1 r1 =>
          if Ascii.eqb c1 "]" then Some (JArray [], r1)
          else
            match parseElements n r with
            | Some (xs, rest) => Some (JArray xs, rest)
            | None => None
            end
        | EmptyString => None
        end
      else if Ascii.eqb c dquote then
        match scanString r with
        | Some (ts, rest) =>
          Some (JString (String.substring 0 (String.length r - String.length rest - 1) r)
                        (unquote ts), rest)
        | None => None
        end
      else if Ascii.eqb c "-" || isDigit c then
        match scanNumber (String c r) with
        | Some (lit, rest) => Some (JNumber lit, rest)
        | None => None
        end
      else
        match dropPrefix "true" (String c r), dropPrefix "false" (String c r),
              dropPrefix "null" (String c r) with
        | Some rest, _, _ => Some (JBool true, rest)
        | _, Some rest, _ => Some (JBool false, rest)
        | _, _, Some rest => Some (JNull, rest)
        | _, _, _ => None
        end
    end
  end
with parseMembers (fuel : nat) (s : string) {struct fuel}
     : option (list (string * json) * string) :=
  match fuel with
  | O => None
  | S n =>
    match skipSpace s with
    | String c r =>
      if Ascii.eqb c dquote then
        match scanString r with
        | Some (ts, r1) =>
          match skipSpace r1 with
          | String c2 r2 =>
            if Ascii.eqb c2 ":" then
              match parseValue n r2 with
              | Some (v, r3) =>
                match skipSpace r3 with
                | String c4 r4 =>
                  if Ascii.eqb c4 "," then
                    match parseMembers n r4 with
                    | Some (ms, rest) => Some ((unquote ts, v) :: ms, rest)
                    | None => None
                    end
                  else if Ascii.eqb c4 "}" then Some ([(unquote ts, v)], r4)
                  else None
                | EmptyString => None
                end
              | None => None
              end
            else None
          | EmptyString => None
          end
        | None => None
        end
      else None
    | EmptyString => None
    end
  end
with parseElements (fuel : nat) (s : string) {struct fuel}
     : option (list json * string) :=
  match fuel with
  | O => None
  | S n =>
    match parseValue n s with
    | Some (v, r1) =>
      match skipSpace r1 with
      | String c r2 =>
        if Ascii.eqb c "," then
          match parseElements n r2 with
          | Some (xs, rest) => Some (v :: xs, rest)
          | None => None
          end
        else if Ascii.eqb c "]" then Some ([v], r2)
        else None
      | EmptyString => None
      end
    | None => None
    end
  end.

(** The whole input is one JSON value between optional white space. *)
Definition parse (data : string) : option json :=
  match parseValue (2 * String.length data + 2) data with
  | Some (v, rest) =>
    match skipSpace rest with
    | EmptyString => Some v
    | String _ _ => None
    end
  | None => None
  end.

(** *** Integers and times *)

Fixpoint digitsVal (s : string) (acc : Z) : option Z :=
  match s with
  | EmptyString => Some acc
  | String c r => if isDigit c then digitsVal r (acc * 10 + (code c - 48)) else None
  end.

(** [strconv.ParseInt(lit, 10, 64)] on a JSON number literal. *)
Definition ParseInt (lit : string) : option Z :=
  let '(neg, body) :=
    match lit with
    | String c r => if Ascii.eqb c "-" then (true, r) else (false, lit)
    | EmptyString => (false, lit)
    end in
  match body with
  | EmptyString => None
  | String _ _ =>
    n ← digitsVal body 0;
    let v := if neg : bool then - n else n in
    if in_int64b v then Some v else None
  end.

Definition parseUint (s : string) (lo hi : Z) : option Z :=
  n ← digitsVal s 0;
  if (lo <=? n) && (n <=? hi) then Some n else None.

Definition charAt (s : string) (i : nat) (c : ascii) : bool :=
  match String.get i s with
  | Some x => Ascii.eqb x c
  | None => false
  end.

Definition slice (s : string) (i j : nat) : string := String.substring i (j - i) s.

(** The digits after the point, as nanoseconds: nine digits count. *)
Definition parseNanoseconds (digits : string) : option Z :=
  let d := String.substring 0 9 digits in
  n ← digitsVal d 0;
  Some (n * 10 ^ (9 - Z.of_nat (String.length d))).

(** RFC 3339 as [time.Time.UnmarshalJSON] reads it:
    [2006-01-02T15:04:05(.fraction)?(Z|±07:00)]. *)
Definition parseRFC3339 (s : string) : option Time :=
  if (String.length s <? 19)%nat then None
  else
    year ← parseUint (slice s 0 4) 0 9999;
    month ← parseUint (slice s 5 7) 1 12;
    day ← parseUint (slice s 8 10) 1 (daysIn month year);
    hour ← parseUint (slice s 11 13) 0 23;
    min ← parseUint (slice s 14 16) 0 59;
    sec ← parseUint (slice s 17 19) 0 59;
    if negb (charAt s 4 "-" && charAt s 7 "-" && charAt s 10 "T"
             && charAt s 13 ":" && charAt s 16 ":") then None
    else
      let s1 := String.substring 19 (String.length s - 19) s in
      '(nsec, s2) ←
        match s1 with
        | String c r =>
          if Ascii.eqb c "." then
            match takeDigits r with
            | (EmptyString, _) => Some (0, s1)
            | (d, rest) => n ← parseNanoseconds d; Some (n, rest)
            end
          else Some (0, s1)
        | EmptyString => Some (0, s1)
        end;
      if String.eqb s2 "Z" then Some (Date year month day hour min sec nsec 0)
      else if negb (String.length s2 =? 6)%nat then None
      else
        hr ← parseUint (slice s2 1 3) 0 23;
        mm ← parseUint (slice s2 4 6) 0 59;
        if negb ((charAt s2 0 "-" || charAt s2 0 "+") && charAt s2 3 ":") then None
        else
          let off := (hr * 60 + mm) * 60 in
          Some (Date year month day hour min sec nsec
                     (if charAt s2 0 "-" then - off else off)).

(** *** Decoding into the struct *)

Inductive Field :=
| FConversionID | FFileID | FFileGUID | FUserID | FInputS3Path | FOutputS3Path
| FInputExtension | FRetryCount | FMaxRetries | FCreatedAt | FTimeout.

(** The [json:"..."] tags of [models.ConversionJob]. *)
Definition fieldName (f : Field) : string :=
  match f with
  | FConversionID => "conversionId"
  | FFileID => "fileId"
  | FFileGUID => "fileGuid"
  | FUserID => "userId"
  | FInputS3Path => "inputS3Path"
  | FOutputS3Path => "outputS3Path"
  | FInputExtension => "inputExtension"
  | FRetryCount => "retryCount"
  | FMaxRetries => "maxRetries"
  | FCreatedAt => "createdAt"
  | FTimeout => "timeout"
  end.

Definition allFields : list Field :=
  [FConversionID; FFileID; FFileGUID; FUserID; FInputS3Path; FOutputS3Path;
   FInputExtension; FRetryCount; FMaxRetries; FCreatedAt; FTimeout].

Definition lower (c : ascii) : ascii :=
  let n := code c in if (65 <=? n) && (n <=? 90) then chr (n + 32) else c.

Fixpoint foldName (s : string) : string :=
  match s with
  | EmptyString => EmptyString
  | String c r => String (lower c) (foldName r)
  end.

(** A key names the field whose tag it equals, or else equals up to the
    case of ASCII letters. *)
Definition fieldOfKey (k : string) : option Field :=
  match List.find (fun f => String.eqb (fieldName f) k) allFields with
  | Some f => Some f
  | None => List.find (fun f => String.eqb (foldName (fieldName f)) (foldName k)) allFields
  end.

(** [null] leaves the destination as it is. *)
Definition decodeInt (v : json) (old : Z) : option Z :=
  match v with
  | JNull => Some old
  | JNumber lit => ParseInt lit
  | _ => None
  end.

Definition decodeString (v : json) (old : string) : option string :=
  match v with
  | JNull => Some old
  | JString _ s => Some s
  | _ => None
  end.

Definition decodeTime (v : json) (old : Time) : option Time :=
  match v with
  | JNull => Some old
  | JString raw _ => parseRFC3339 raw
  | _ => None
  end.

Definition decodeField (f : Field) (v : json) (j : ConversionJob) : option ConversionJob :=
  match f with
  | FConversionID => n ← decodeInt v (ConversionID j);
    Some (mkJob n (FileID j) (FileGUID j) (UserID j) (InputS3Path j) (OutputS3Path j)
                (InputExtension j) (RetryCount j) (MaxRetries j) (CreatedAt j) (Timeout j))
  | FFileID => n ← decodeInt v (FileID j);
    Some (mkJob (ConversionID j) n (FileGUID j) (UserID j) (InputS3Path j) (OutputS3Path j)
                (InputExtension j) (RetryCount j) (MaxRetries j) (CreatedAt j) (Timeout j))
  | FFileGUID => x ← decodeString v (FileGUID j);
    Some (mkJob (ConversionID j) (FileID j) x (UserID j) (InputS3Path j) (OutputS3Path j)
                (InputExtension j) (RetryCount j) (MaxRetries j) (CreatedAt j) (Timeout j))
  | FUserID => n ← decodeInt v (UserID j);
    Some (mkJob (ConversionID j) (FileID j) (FileGUID j) n (InputS3Path j) (OutputS3Path j)
                (InputExtension j) (RetryCount j) (MaxRetries j) (CreatedAt j) (Timeout j))
  | FInputS3Path => x ← decodeString v (InputS3Path j);
    Some (mkJob (ConversionID j) (FileID j) (FileGUID j) (UserID j) x (OutputS3Path j)
                (InputExtension j) (RetryCount j) (MaxRetries j) (CreatedAt j) (Timeout j))
  | FOutputS3Path => x ← decodeString v (OutputS3Path j);
    Some (mkJob (ConversionID j) (FileID j) (FileGUID j) (UserID j) (InputS3Path j) x
                (InputExtension j) (RetryCount j) (MaxRetries j) (CreatedAt j) (Timeout j))
  | FInputExtension => x ← decodeString v (InputExtension j);
    Some (mkJob (ConversionID j) (FileID j) (FileGUID j) (UserID j) (InputS3Path j)
                (OutputS3Path j) x (RetryCount j) (MaxRetries j) (CreatedAt j) (Timeout j))
  | FRetryCount => n ← decodeInt v (RetryCount j); Some (setRetryCount n j)
  | FMaxRetries => n ← decodeInt v (MaxRetries j);
    Some (mkJob (ConversionID j) (FileID j) (FileGUID j) (UserID j) (InputS3Path j)
                (OutputS3Path j) (InputExtension j) (RetryCount j) n (CreatedAt j) (Timeout j))
  | FCreatedAt => t ← decodeTime v (CreatedAt j);
    Some (mkJob (ConversionID j) (FileID j) (FileGUID j) (UserID j) (InputS3Path j)
                (OutputS3Path j) (InputExtension j) (RetryCount j) (MaxRetries j) t (Timeout j))
  | FTimeout => n ← decodeInt v (Timeout j);
    Some (mkJob (ConversionID j) (FileID j) (FileGUID j) (UserID j) (InputS3Path j)
                (OutputS3Path j) (InputExtension j) (RetryCount j) (MaxRetries j) (CreatedAt j) n)
  end.

(** The members of an object in their order; a key that names no field is
    skipped, a later member for a field overwrites an earlier one. *)
Fixpoint decodeMembers (ms : list (string * json)) (j : ConversionJob)
  : option ConversionJob :=
  match ms with
  | [] => Some j
  | (k, v) :: r =>
    match fieldOfKey k with
    | Some f =>
      match decodeField f v j with
      | Some j' => decodeMembers r j'
      | None => None
      end
    | None => decodeMembers r j
    end
  end.

(** Decoding into a struct: an object, or [null] (which changes nothing). *)
Definition decodeJob (v : json) : option ConversionJob :=
  match v with
  | JNull => Some zeroJob
  | JObject ms => decodeMembers ms zeroJob
  | _ => None
  end.

(** [json.Unmarshal([]byte(data), &job)] for a fresh [job]. *)
Definition jsonUnmarshal (data : string) : option ConversionJob :=
  v ← parse data; decodeJob v.

(** *** Encoding *)

Definition hexDigit (n : Z) : ascii := if n <? 10 then chr (48 + n) else chr (87 + n).

(** One byte of a string, as the encoder writes it (HTML escaping on);
    bytes above ASCII are copied. *)
Definition escapeByte (c : ascii) : string :=
  let n := code c in
  if (n =? 34) || (n =? 92) then String backslash (String c "")
  else if n =? 8 then String backslash "b"
  else if n =? 12 then String backslash "f"
  else if n =? 10 then String backslash "n"
  else if n =? 13 then String backslash "r"
  else if n =? 9 then String backslash "t"
  else if (n <? 32) || (n =? 60) || (n =? 62) || (n =? 38) then
    String backslash
      (String "u" (String "0" (String "0"
         (String (hexDigit (n / 16)) (String (hexDigit (n mod 16)) "")))))
  else String c "".

Fixpoint escapeString (s : string) : string :=
  match s with
  | EmptyString => EmptyString
  | String c r => (escapeByte c ++ escapeString r)%string
  end.

Definition quoteString (s : string) : string :=
  String dquote (escapeString s ++ String dquote "")%string.

Fixpoint zeros (n : nat) : string :=
  match n with
  | O => EmptyString
  | S k => String "0" (zeros k)
  end.

Definition padInt (width : nat) (z : Z) : string :=
  let s := pretty z in (zeros (width - String.length s) ++ s)%string.

Fixpoint trimZeros (s : string) : string :=
  match s with
  | EmptyString => EmptyString
  | String c r =>
    match trimZeros r with
    | EmptyString => if Ascii.eqb c "0" then EmptyString else String c ""
    | r' => String c r'
    end
  end.

(** [t.MarshalJSON()]: RFC 3339 with nanoseconds, an error outside the
    years 0 to 9999. *)
Definition formatRFC3339Nano (t : Time) : option string :=
  let abs := unixNano t + zoneOffset t * Second in
  let secs := abs / Second in
  let nsec := abs mod Second in
  let '(y, m, d) := civil_from_days (secs / 86400) in
  let rem := secs mod 86400 in
  if (y <? 0) || (9999 <? y) then None
  else
    let frac := if nsec =? 0 then EmptyString
                else String "." (trimZeros (padInt 9 nsec)) in
    let zone :=
      if zoneOffset t =? 0 then "Z"%string
      else
        let z := Z.quot (zoneOffset t) 60 in
        ((if (z <? 0)%Z then "-" else "+") ++ padInt 2 (Z.abs z / 60)%Z ++ ":"
           ++ padInt 2 (Z.abs z mod 60)%Z)%string in
    Some (padInt 4 y ++ "-" ++ padInt 2 m ++ "-" ++ padInt 2 d ++ "T"
            ++ padInt 2 (rem / 3600)%Z ++ ":" ++ padInt 2 (rem mod 3600 / 60)%Z ++ ":"
            ++ padInt 2 (rem mod 60)%Z ++ frac ++ zone)%string.

Definition member (f : Field) (v : string) : string :=
  (quoteString (fieldName f) ++ ":" ++ v)%string.

(** [json.Marshal(job)] with its error dropped. *)
Definition jsonMarshal (j : ConversionJob) : string :=
  match formatRFC3339Nano (CreatedAt j) with
  | None => EmptyString
  | Some created =>
    ("{" ++ member FConversionID (pretty (ConversionID j))
      ++ "," ++ member FFileID (pretty (FileID j))
      ++ "," ++ member FFileGUID (quoteString (FileGUID j))
      ++ "," ++ member FUserID (pretty (UserID j))
      ++ "," ++ member FInputS3Path (quoteString (InputS3Path j))
      ++ "," ++ member FOutputS3Path (quoteString (OutputS3Path j))
      ++ "," ++ member FInputExtension (quoteString (InputExtension j))
      ++ "," ++ member FRetryCount (pretty (RetryCount j))
      ++ "," ++ member FMaxRetries (pretty (MaxRetries j))
      ++ "," ++ member FCreatedAt (quoteString created)
      ++ "," ++ member FTimeout (pretty (Timeout j))
      ++ "}")%string
  end.

#[export] Instance encoding_json : Codec :=
  {| Unmarshal := jsonUnmarshal; Marshal := jsonMarshal |}.

End EncodingJSON.

(** ** The world the service runs in *)

Module Effects.
Import Models.

(** A row of [file_conversions], its columns as [services/database.go]
    writes them.  [metadata] holds [worker_id] and [duration_ms]. *)
Record Row := mkRow {
  status : string;
  updated_at : Z;
  started_at : option Z;
  completed_at : option Z;
  output_s3_path : option string;
  metadata : option (Z * Z);
  error_message : option string;
  retry_count : Z
}.

(** A Redis hash [conversion:status:<id>]. *)
Record StatusEntry := mkStatusEntry {
  hStatus : option string;
  hError : option string;
  hUpdatedAt : option Z
}.

(** A callback registered with [time.AfterFunc] in [handleJobFailure]:
    when it is due, what it pushes, and what its log line prints. *)
Record Timer := mkTimer {
  due : Z;
  payload : string;
  tWorker : Z;
  tRetry : Z;
  tMax : Z;
  tConversion : Z;
  tDelay : Z
}.

(** The lines the service logs, one constructor for each [log.Printf]. *)
Inductive LogLine :=
| LogStarting (workerID : Z)
| LogShuttingDown (workerID : Z)
| LogRedisError (workerID : Z)
| LogParseFailed (workerID : Z)
| LogProcessing (workerID conversionID : Z) (fileGUID : string)
| LogStatusUpdateFailed (workerID : Z)
| LogCompletedUpdateFailed (workerID : Z)
| LogCompleted (workerID conversionID duration : Z)
| LogFailed (workerID conversionID : Z) (errorMsg : string)
| LogRetryScheduled (workerID retry maxRetries conversionID delay : Z)
| LogMovedToFailed (workerID conversionID maxRetries : Z)
| LogRangeFailed
| LogRecovered (n : Z).

Record World := mkWorld {
  pending : list string;      (* config.PendingQueue, head first *)
  processing : list string;   (* config.ProcessingQueue *)
  failed : list string;       (* config.FailedQueue *)
  statusHash : gmap Z StatusEntry;
  table : gmap Z Row;
  dbFaults : list bool;       (* whether the next statements fail *)
  timers : list Timer;
  files : gset string;        (* local files that exist *)
  logs : list LogLine;        (* oldest first *)
  clock : Z                   (* time.Now(), in nanoseconds *)
}.

Definition setPending (l : list string) (w : World) : World :=
  mkWorld l (processing w) (failed w) (statusHash w) (table w) (dbFaults w)
          (timers w) (files w) (logs w) (clock w).
Definition setProcessing (l : list string) (w : World) : World :=
  mkWorld (pending w) l (failed w) (statusHash w) (table w) (dbFaults w)
          (timers w) (files w) (logs w) (clock w).
Definition setFailed (l : list string) (w : World) : World :=
  mkWorld (pending w) (processing w) l (statusHash w) (table w) (dbFaults w)
          (timers w) (files w) (logs w) (clock w).
Definition setStatusHash (h : gmap Z StatusEntry) (w : World) : World :=
  mkWorld (pending w) (processing w) (failed w) h (table w) (dbFaults w)
          (timers w) (files w) (logs w) (clock w).
Definition setTable (t : gmap Z Row) (w : World) : World :=
  mkWorld (pending w) (processing w) (failed w) (statusHash w) t (dbFaults w)
          (timers w) (files w) (logs w) (clock w).
Definition setDbFaults (o : list bool) (w : World) : World :=
  mkWorld (pending w) (processing w) (failed w) (statusHash w) (table w) o
          (timers w) (files w) (logs w) (clock w).
Definition setTimers (ts : list Timer) (w : World) : World :=
  mkWorld (pending w) (processing w) (failed w) (statusHash w) (table w) (dbFaults w)
          ts (files w) (logs w) (clock w).
Definition setFiles (fs : gset string) (w : World) : World :=
  mkWorld (pending w) (processing w) (failed w) (statusHash w) (table w) (dbFaults w)
          (timers w) fs (logs w) (clock w).
Definition setLogs (ls : list LogLine) (w : World) : World :=
  mkWorld (pending w) (processing w) (failed w) (statusHash w) (table w) (dbFaults w)
          (timers w) (files w) ls (clock w).
Definition setClock (t : Z) (w : World) : World :=
  mkWorld (pending w) (processing w) (failed w) (statusHash w) (table w) (dbFaults w)
          (timers w) (files w) (logs w) t.

(** Commands: a result and the world after them. *)
Definition M (A : Type) : Type := World -> A * World.

Definition ret {A} (a : A) : M A := fun w => (a, w).
Definition bind {A B} (c : M A) (k : A -> M B) : M B :=
  fun w => let '(a, w') := c w in k a w'.

Definition exec {A} (c : M A) (w : World) : World := snd (c w).
Definition eval {A} (c : M A) (w : World) : A := fst (c w).

Definition modify (f : World -> World) : M unit := fun w => (tt, f w).
Definition gets {A} (f : World -> A) : M A := fun w => (f w, w).

(** [log.Printf]. *)
Definition logPrintf (l : LogLine) : M unit :=
  modify (fun w => setLogs (logs w ++ [l]) w).

(** [error]: [None] is [nil]. *)
Definition error : Type := option string.

End Effects.

Declare Scope go_scope.
Delimit Scope go_scope with go.
Notation "'do' x <- c ; k" := (Effects.bind c (fun x => k))
  (at level 10, x name, c at level 100, k at level 200) : go_scope.
Notation "'run' c ; k" := (Effects.bind c (fun _ => k))
  (at level 10, c at level 100, k at level 200) : go_scope.

(** ** Redis commands *)

Module Redis.
Import Effects.
Local Open Scope go_scope.

(** The three list keys of the configuration. *)
Inductive Key := PendingQueue | ProcessingQueue | FailedQueue.

Definition getList (k : Key) (w : World) : list string :=
  match k with
  | PendingQueue => pending w
  | ProcessingQueue => processing w
  | FailedQueue => failed w
  end.

Definition setList (k : Key) (l : list string) (w : World) : World :=
  match k with
  | PendingQueue => setPending l w
  | ProcessingQueue => setProcessing l w
  | FailedQueue => setFailed l w
  end.

(** The first element equal to [v], counted from the head, removed. *)
Fixpoint removeFirst (v : string) (l : list string) : list string :=
  match l with
  | [] => []
  | x :: r => if String.eqb x v then r else x :: removeFirst v r
  end.

(** [LPUSH key v]. *)
Definition LPush (k : Key) (v : string) : M unit :=
  modify (fun w => setList k (v :: getList k w) w).

(** [LREM key 1 v]. *)
Definition LRem1 (k : Key) (v : string) : M unit :=
  modify (fun w => setList k (removeFirst v (getList k w)) w).

(** [LRANGE key 0 -1]. *)
Definition LRange (k : Key) : M (list string) := gets (getList k).

(** [BRPOPLPUSH src dst timeout]: the tail of [src] moves to the head of
    [dst] in one step; on an empty [src] the call times out with
    [redis.Nil], which is [None]. *)
Definition BRPopLPush (src dst : Key) : M (option string) :=
  fun w =>
    match List.rev (getList src w) with
    | [] => (None, w)
    | v :: r =>
      let w1 := setList src (List.rev r) w in
      (Some v, setList dst (v :: getList dst w1) w1)
    end.

(** [HSET conversion:status:<id> ...] with the fields the worker writes:
    fields that are not given keep their value. *)
Definition HSetStatus (id : Z) (st : string) (err : option string) : M unit :=
  modify (fun w =>
    let old := default (mkStatusEntry None None None) (statusHash w !! id) in
    let e := mkStatusEntry (Some st)
                           (match err with Some m => Some m | None => hError old end)
                           (Some (clock w)) in
    setStatusHash (<[id := e]> (statusHash w)) w).

End Redis.

(** ** Package [services] *)

Module DatabaseService.
Import Effects.
Local Open Scope go_scope.

(** [d.db.ExecContext(ctx, query, args...)] for an [UPDATE ... WHERE id = $n]:
    the statement fails when the oracle says so, and otherwise rewrites
    the row with that id, if there is one. *)
Definition ExecUpdate (id : Z) (f : Row -> Row) : M error :=
  fun w =>
    match dbFaults w with
    | true :: o => (Some "exec failed", setDbFaults o w)
    | false :: o => (None, setTable (alter f id (table w)) (setDbFaults o w))
    | [] => (None, setTable (alter f id (table w)) w)
    end.

Definition UpdateConversionStatus (conversionID : Z) (st : string)
           (outputPath : string) (meta : option (Z * Z)) : M error :=
  do now <- gets clock;
  ExecUpdate conversionID (fun r =>
    let r1 := mkRow st now (started_at r) (completed_at r) (output_s3_path r)
                    (metadata r) (error_message r) (retry_count r) in
    let r2 := if String.eqb st "processing"
              then mkRow (status r1) (updated_at r1) (Some now) (completed_at r1)
                         (output_s3_path r1) (metadata r1) (error_message r1)
                         (retry_count r1)
              else r1 in
    if String.eqb st "completed"
    then mkRow (status r2) (updated_at r2) (started_at r2) (Some now)
               (Some outputPath)
               (match meta with Some m => Some m | None => metadata r2 end)
               (error_message r2) (retry_count r2)
    else r2).

Definition UpdateConversionError (conversionID : Z) (errorMsg : string) : M error :=
  do now <- gets clock;
  ExecUpdate conversionID (fun r =>
    mkRow (status r) now (started_at r) (completed_at r) (output_s3_path r)
          (metadata r) (Some errorMsg) (retry_count r)).

Definition IncrementRetryCount (conversionID : Z) : M error :=
  do now <- gets clock;
  ExecUpdate conversionID (fun r =>
    mkRow (status r) now (started_at r) (completed_at r) (output_s3_path r)
          (metadata r) (error_message r) (retry_count r + 1)).

End DatabaseService.

(** What the object store and the conversion daemon answer in one attempt. *)
Module Outside.

Inductive DownloadOutcome :=
| DownloadOk
| CreateFails (e : string)      (* os.Create *)
| TransferFails (e : string).   (* DownloadWithContext, the deadline included *)

Inductive ConvertOutcome :=
| ConvertOk
| RequestFails (e : string)     (* client.Do, the deadline included *)
| BadStatus (code : Z) (body : string)
| CreateOutputFails (e : string)
| SaveFails (e : string).

Inductive UploadOutcome :=
| UploadOk
| UploadFails (e : string).

Record AttemptEnv := mkEnv {
  download : DownloadOutcome;
  convert : ConvertOutcome;
  upload : UploadOutcome;
  elapsed : Z                   (* time.Since(startTime) at the end *)
}.

End Outside.

Module S3Service.
Import Effects Outside.
Local Open Scope go_scope.

(** [os.Remove(path)] on a local file: an error when there is none. *)
Definition osRemove (path : string) : M error :=
  fun w =>
    if decide (path ∈ files w)
    then (None, setFiles (files w ∖ {[path]}) w)
    else (Some ("remove " ++ path ++ ": no such file or directory")%string, w).

Definition Cleanup (path : string) : M error :=
  if String.eqb path "" then ret None
  else osRemove path.

(** [filepath.Join(tempDir, fileGUID + "." + extension)], for names that
    [Join] has nothing to clean in. *)
Definition localPathOf (fileGUID extension : string) : string :=
  ("/tmp/conversions/" ++ fileGUID ++ "." ++ extension)%string.

Definition Download (env : AttemptEnv) (s3Path fileGUID extension : string)
  : M (string * error) :=
  let localPath := localPathOf fileGUID extension in
  match download env with
  | CreateFails e => ret (""%string, Some ("failed to create local file: " ++ e)%string)
  | TransferFails e =>
    run modify (fun w => setFiles ({[localPath]} ∪ files w) w);
    ret (""%string, Some ("failed to download from S3: " ++ e)%string)
  | DownloadOk =>
    run modify (fun w => setFiles ({[localPath]} ∪ files w) w);
    ret (localPath, None)
  end.

Definition Upload (env : AttemptEnv) (localPath s3Path : string) : M error :=
  do fs <- gets files;
  if decide (localPath ∈ fs) then
    match upload env with
    | UploadFails e => ret (Some ("failed to upload to S3: " ++ e)%string)
    | UploadOk => ret None
    end
  else ret (Some ("failed to open file: open " ++ localPath
                    ++ ": no such file or directory")%string).

End S3Service.

Module GotenbergService.
Import Effects Outside.
Local Open Scope go_scope.

Definition ConvertToPDFA (env : AttemptEnv) (inputPath extension : string)
  : M (string * error) :=
  do fs <- gets files;
  if decide (inputPath ∈ fs) then
    let outputPath := (inputPath ++ ".converted.pdf")%string in
    match convert env with
    | RequestFails e => ret (""%string, Some ("gotenberg request failed: " ++ e)%string)
    | BadStatus c body =>
      ret (""%string,
           Some ("gotenberg returned status " ++ pretty c ++ ": " ++ body)%string)
    | CreateOutputFails e =>
      ret (""%string, Some ("failed to create output file: " ++ e)%string)
    | SaveFails e =>
      run modify (fun w => setFiles ({[outputPath]} ∪ files w) w);
      ret (""%string, Some ("failed to save converted file: " ++ e)%string)
    | ConvertOk =>
      run modify (fun w => setFiles ({[outputPath]} ∪ files w) w);
      ret (outputPath, None)
    end
  else ret (""%string, Some ("failed to open input file: open " ++ inputPath
                               ++ ": no such file or directory")%string).

End GotenbergService.

(** ** Package [worker] *)

Module Worker.
Import GoInt GoTime Models Effects Redis DatabaseService Outside.
Local Open Scope go_scope.

(** [time.Duration(math.Pow(2, float64(n)))].  A power of two is exact
    in a [float64]; below 1 the conversion truncates to 0, and from
    [2^63] on (infinity included) the value is outside [int64], where
    the conversion gives the amd64 result, [min_int64]. *)
Definition pow2Duration (n : Z) : Z :=
  if n <? 0 then 0 else if n <=? 62 then 2 ^ n else min_int64.

(** The delay [handleJobFailure] computes from the incremented counter. *)
Definition backoffDelay (retryCount : Z) : Z :=
  let delay := wrap64 (pow2Duration retryCount * Second) in
  if delay >? 30 * Second then 30 * Second else delay.

(** [time.AfterFunc(delay, f)]: [f] is kept until it is due. *)
Definition AfterFunc (delay : Z) (f : Z -> Timer) : M unit :=
  modify (fun w => setTimers (timers w ++ [f (clock w + delay)]) w).

(** The body of the callback of [handleJobFailure]. *)
Definition fire (t : Timer) : M unit :=
  run LPush PendingQueue (payload t);
  logPrintf (LogRetryScheduled (tWorker t) (tRetry t) (tMax t) (tConversion t)
                               (tDelay t)).

(** [dt] nanoseconds pass; the callbacks that are due by then run, in the
    order they were registered. *)
Definition elapse (dt : Z) : M unit :=
  fun w =>
    let now := clock w + dt in
    let dueNow := List.filter (fun t => due t <=? now) (timers w) in
    let later := List.filter (fun t => negb (due t <=? now)) (timers w) in
    (tt, fold_left (fun w' t => exec (fire t) w') dueNow
                   (setTimers later (setClock now w))).

Section Pool.
Context `{Codec}.

(** [handleJobFailure]; the result is [*job] as the call leaves it. *)
Definition handleJobFailure (workerID : Z) (job : ConversionJob)
           (jobJSON errorMsg : string) : M ConversionJob :=
  run logPrintf (LogFailed workerID (ConversionID job) errorMsg);
  run LRem1 ProcessingQueue jobJSON;
  do _e <- IncrementRetryCount (ConversionID job);
  if RetryCount job <? MaxRetries job then
    let job' := setRetryCount (wrap64 (RetryCount job + 1)) job in
    let newJobJSON := Marshal job' in
    let delay := backoffDelay (RetryCount job') in
    run AfterFunc delay (fun when =>
          mkTimer when newJobJSON workerID (RetryCount job') (MaxRetries job')
                  (ConversionID job') delay);
    ret job'
  else
    run LPush FailedQueue jobJSON;
    do _e1 <- UpdateConversionStatus (ConversionID job) "failed" "" None;
    do _e2 <- UpdateConversionError (ConversionID job) errorMsg;
    run HSetStatus (ConversionID job) "failed" (Some errorMsg);
    run logPrintf (LogMovedToFailed workerID (ConversionID job) (MaxRetries job));
    ret job.

(** [processJob]; the deferred cleanups run when it returns, the later
    one first. *)
Definition processJob (workerID : Z) (job : ConversionJob) (jobJSON : string)
           (env : AttemptEnv) : M unit :=
  run logPrintf (LogProcessing workerID (ConversionID job) (FileGUID job));
  do err <- UpdateConversionStatus (ConversionID job) "processing" "" None;
  run (match err with
       | Some _ => logPrintf (LogStatusUpdateFailed workerID)
       | None => ret tt
       end);
  do dl <- S3Service.Download env (InputS3Path job) (FileGUID job)
                              (InputExtension job);
  match dl with
  | (_, Some e) =>
    do _j <- handleJobFailure workerID job jobJSON ("S3 download failed: " ++ e);
    ret tt
  | (localInputPath, None) =>
    do cv <- GotenbergService.ConvertToPDFA env localInputPath (InputExtension job);
    match cv with
    | (_, Some e) =>
      do _j <- handleJobFailure workerID job jobJSON
                                ("Office conversion failed: " ++ e);
      do _c <- S3Service.Cleanup localInputPath;
      ret tt
    | (localOutputPath, None) =>
      do up <- S3Service.Upload env localOutputPath (OutputS3Path job);
      match up with
      | Some e =>
        do _j <- handleJobFailure workerID job jobJSON ("S3 upload failed: " ++ e);
        do _c1 <- S3Service.Cleanup localOutputPath;
        do _c2 <- S3Service.Cleanup localInputPath;
        ret tt
      | None =>
        let duration := elapsed env in
        do err2 <- UpdateConversionStatus (ConversionID job) "completed"
                     (OutputS3Path job)
                     (Some (workerID, Z.quot duration 1000000));
        run (match err2 with
             | Some _ => logPrintf (LogCompletedUpdateFailed workerID)
             | None => ret tt
             end);
        run HSetStatus (ConversionID job) "completed" None;
        run LRem1 ProcessingQueue jobJSON;
        run logPrintf (LogCompleted workerID (ConversionID job) duration);
        do _c1 <- S3Service.Cleanup localOutputPath;
        do _c2 <- S3Service.Cleanup localInputPath;
        ret tt
      end
    end
  end.

(** One turn of the loop of [StartWorker] (its [default] case).
    [redisFails] is the claim failing with an error other than
    [redis.Nil]; the pause that follows it is not modelled. *)
Definition workerTurn (workerID : Z) (redisFails : bool) (env : AttemptEnv) : M unit :=
  if redisFails then logPrintf (LogRedisError workerID)
  else
    do claimed <- BRPopLPush PendingQueue ProcessingQueue;
    match claimed with
    | None => ret tt
    | Some result =>
      match Unmarshal result with
      | None =>
        run logPrintf (LogParseFailed workerID);
        LRem1 ProcessingQueue result
      | Some job => processJob workerID job result env
      end
    end.

(** [StartWorker], for the turns it makes before [ctx] is done. *)
Fixpoint workerLoop (workerID : Z) (turns : list (bool * AttemptEnv)) : M unit :=
  match turns with
  | [] => logPrintf (LogShuttingDown workerID)
  | (redisFails, env) :: r =>
    run workerTurn workerID redisFails env;
    workerLoop workerID r
  end.

Definition StartWorker (workerID : Z) (turns : list (bool * AttemptEnv)) : M unit :=
  run logPrintf (LogStarting workerID);
  workerLoop workerID turns.

(** The body of the loop of [recoverStaleJobs] for one entry of the
    snapshot; the result is the counter [recovered]. *)
Definition recoverEntry (jobJSON : string) (recovered : Z) : M Z :=
  match Unmarshal jobJSON with
  | None => ret recovered
  | Some job =>
    do now <- gets clock;
    if Since now (CreatedAt job) >? 5 * Minute then
      run LRem1 ProcessingQueue jobJSON;
      if RetryCount job <? MaxRetries job then
        let job' := setRetryCount (wrap64 (RetryCount job + 1)) job in
        let newJobJSON := Marshal job' in
        run LPush PendingQueue newJobJSON;
        do _e <- IncrementRetryCount (ConversionID job');
        ret (recovered + 1)
      else
        run LPush FailedQueue jobJSON;
        do _e1 <- UpdateConversionStatus (ConversionID job) "failed" "" None;
        do _e2 <- UpdateConversionError (ConversionID job)
                    "Job timeout - exceeded 5 minutes";
        ret recovered
    else ret recovered
  end.

Fixpoint recoverLoop (jobs : list string) (recovered : Z) : M Z :=
  match jobs with
  | [] => ret recovered
  | jobJSON :: r =>
    do n <- recoverEntry jobJSON recovered;
    recoverLoop r n
  end.

(** [recoverStaleJobs]; [rangeFails] is [LRange] returning an error. *)
Definition recoverStaleJobs (rangeFails : bool) : M unit :=
  if rangeFails then logPrintf LogRangeFailed
  else
    do jobs <- LRange ProcessingQueue;
    do recovered <- recoverLoop jobs 0;
    if recovered >? 0 then logPrintf (LogRecovered recovered) else ret tt.

(** [RecoveryLoop], for the ticks before [ctx] is done: the ticker
    fires every five minutes, and each tick runs one sweep. *)
Fixpoint RecoveryLoop (ticks : list bool) : M unit :=
  match ticks with
  | [] => ret tt
  | rangeFails :: r =>
    run elapse (5 * Minute);
    run recoverStaleJobs rangeFails;
    RecoveryLoop r
  end.

End Pool.

(** Workers that run the claim of [StartWorker] against the shared
    store, one command each, in the order a schedule puts them: who made
    the call, and what it returned. *)
Fixpoint claims (schedule : list Z) : M (list (Z * option string)) :=
  match schedule with
  | [] => ret []
  | workerID :: r =>
    do got <- BRPopLPush PendingQueue ProcessingQueue;
    do rest <- claims r;
    ret ((workerID, got) :: rest)
  end.

End Worker.

(** ** Vocabulary of the properties *)

Module Props.
Import GoInt GoTime Models EncodingJSON Effects Redis DatabaseService Outside Worker.

(** Every field but [RetryCount] is the same in both jobs. *)
Definition sameButRetryCount (a b : ConversionJob) : Prop :=
  ConversionID a = ConversionID b /\ FileID a = FileID b /\
  FileGUID a = FileGUID b /\ UserID a = UserID b /\
  InputS3Path a = InputS3Path b /\ OutputS3Path a = OutputS3Path b /\
  InputExtension a = InputExtension b /\ MaxRetries a = MaxRetries b /\
  CreatedAt a = CreatedAt b /\ Timeout a = Timeout b.

(** How often an entry occurs in a list. *)
Definition occurrences (e : string) (l : list string) : nat :=
  count_occ String.string_dec l e.

(** The first [n] statements sent to the database are accepted. *)
Definition accepts (n : nat) (w : World) : bool :=
  forallb negb (firstn n (dbFaults w)).

(** What the queue, the local files and the timers look like: the world
    without the status table, its oracle and the log. *)
Definition sameOutcome (a b : World) : Prop :=
  pending a = pending b /\ processing a = processing b /\ failed a = failed b /\
  statusHash a = statusHash b /\ timers a = timers b /\ files a = files b /\
  clock a = clock b.

(** The two log lines that report a failed status write. *)
Definition isWriteFailureLine (l : LogLine) : bool :=
  match l with
  | LogStatusUpdateFailed _ | LogCompletedUpdateFailed _ => true
  | _ => false
  end.

Definition otherLines (ls : list LogLine) : list LogLine :=
  List.filter (fun l => negb (isWriteFailureLine l)) ls.

(** Two worlds that differ at most in the status table, its oracle, and
    log lines that report a failed status write. *)
Definition alike (a b : World) : Prop :=
  sameOutcome a b /\ otherLines (logs a) = otherLines (logs b).

(** Two commands that take alike worlds to alike worlds. *)
Definition rel {A B} (c1 : M A) (c2 : M B) : Prop :=
  forall a b, alike a b -> alike (exec c1 a) (exec c2 b).

(** The same, and with the same result. *)
Definition releq {A} (c1 c2 : M A) : Prop :=
  forall a b, alike a b -> eval c1 a = eval c2 b /\ alike (exec c1 a) (exec c2 b).

(** A command that only ever adds lines to the log. *)
Definition appends {A} (c : M A) : Prop :=
  forall w, exists more, logs (exec c w) = logs w ++ more.

(** The value of a field of a job. *)
Inductive FieldValue := VInt (z : Z) | VString (s : string) | VTime (t : Time).

Definition getField (f : Field) (j : ConversionJob) : FieldValue :=
  match f with
  | FConversionID => VInt (ConversionID j)
  | FFileID => VInt (FileID j)
  | FFileGUID => VString (FileGUID j)
  | FUserID => VInt (UserID j)
  | FInputS3Path => VString (InputS3Path j)
  | FOutputS3Path => VString (OutputS3Path j)
  | FInputExtension => VString (InputExtension j)
  | FRetryCount => VInt (RetryCount j)
  | FMaxRetries => VInt (MaxRetries j)
  | FCreatedAt => VTime (CreatedAt j)
  | FTimeout => VInt (Timeout j)
  end.

(** No member of the object names the field. *)
Definition missing (f : Field) (ms : list (string * json)) : Prop :=
  Forall (fun m => fieldOfKey (fst m) <> Some f) ms.

(** The member, if it names a field, holds a value that field takes. *)
Definition memberFits (m : string * json) : bool :=
  match fieldOfKey (fst m) with
  | Some f => bool_decide (is_Some (decodeField f (snd m) zeroJob))
  | None => true
  end.

Section Steps.
Context `{Codec}.

(** The world after the first two steps of [handleJobFailure]: the
    failure logged, the entry taken out of processing. *)
Definition unclaimed (workerID : Z) (job : ConversionJob) (jobJSON errorMsg : string)
           (w : World) : World :=
  setProcessing (removeFirst jobJSON (processing w))
    (setLogs (logs w ++ [LogFailed workerID (ConversionID job) errorMsg]) w).

(** The callback [handleJobFailure] registers at time [now] for the
    job [job'] it has already incremented. *)
Definition retryTimer (workerID : Z) (job' : ConversionJob) (now : Z) : Timer :=
  mkTimer (now + backoffDelay (RetryCount job')) (Marshal job') workerID
          (RetryCount job') (MaxRetries job') (ConversionID job')
          (backoffDelay (RetryCount job')).

(** The entry is some job, serialized. *)
Definition fromMarshal (x : string) : Prop := exists j, x = Marshal j.

(** What a run leaves of an entry [e]: as often in processing and in
    failed as before, and what the run added to pending is serialized jobs. *)
Definition keeps (e : string) (w w' : World) : Prop :=
  occurrences e (processing w') = occurrences e (processing w) /\
  occurrences e (failed w') = occurrences e (failed w) /\
  exists pushed, pending w' = pushed ++ pending w /\ Forall fromMarshal pushed.

End Steps.

(** The reason the specification gives for a stale job. *)
Definition staleReason : string := "stale — exceeded staleness threshold".

(** The error text the sweep records. *)
Definition sweepReason : string := "Job timeout - exceeded 5 minutes".

(** JSON text written with apostrophes in place of double quotes. *)
Fixpoint dq (s : string) : string :=
  match s with
  | EmptyString => EmptyString
  | String c r => String (if Ascii.eqb c "'" then dquote else c) (dq r)
  end.

End Props.

(** ** Concrete jobs and worlds *)

Module Samples.
Import GoInt GoTime Models EncodingJSON Effects Redis Outside Worker Props.

(** The job of the retry scenario: conversion 42, no retry yet, three allowed. *)
Definition job42 : ConversionJob :=
  mkJob 42 7 "abc-def" 3 "in/a.docx" "out/a.pdf" "docx" 0 3
        (Date 2024 1 2 3 4 5 0 0) 120.

(** The same job with its retries used up. *)
Definition job42spent : ConversionJob := setRetryCount 3 job42.

(** A job on its 34th retry. *)
Definition job42late : ConversionJob :=
  mkJob 42 7 "abc-def" 3 "in/a.docx" "out/a.pdf" "docx" 33 40
        (Date 2024 1 2 3 4 5 0 0) 120.

Definition entry42 : string := jsonMarshal job42.
Definition entry42spent : string := jsonMarshal job42spent.
Definition entry42late : string := jsonMarshal job42late.

Definition row42 : Row := mkRow "pending" 0 None None None None None 0.

(** Ten seconds after the job was created: it sits in processing. *)
Definition worldOf (e : string) : World :=
  mkWorld [] [e] [] ∅ {[ 42 := row42 ]} [] [] ∅ []
          (unixNano (CreatedAt job42) + 10 * Second).

(** The same, six minutes later. *)
Definition staleWorldOf (e : string) : World :=
  setClock (unixNano (CreatedAt job42) + 6 * Minute) (worldOf e).

(** An entry waits in pending. *)
Definition pendingWorldOf (e : string) : World :=
  mkWorld [e] [] [] ∅ {[ 42 := row42 ]} [] [] ∅ []
          (unixNano (CreatedAt job42) + 10 * Second).

Definition envDownloadFails : AttemptEnv :=
  mkEnv (TransferFails "context deadline exceeded") ConvertOk UploadOk 0.

Definition envAllGood : AttemptEnv := mkEnv DownloadOk ConvertOk UploadOk 1500000000.

(** A queue entry that is a JSON object with one member. *)
Definition entryOnlyId : string := dq "{'conversionId':42}".

Definition envConvertFails : AttemptEnv :=
  mkEnv DownloadOk (BadStatus 500 "conversion error") UploadOk 0.

(** One attempt that fails at the conversion, then [wait] nanoseconds. *)
Definition failThenWait (wait : Z) (w : World) : World :=
  exec (elapse wait) (exec (workerTurn 42 false envConvertFails) w).

Definition localFile : string := "/tmp/conversions/abc-def.docx".

End Samples.

(** ** Package [config] *)

Module Config.
Import GoInt EncodingJSON.

(** [os.Getenv(key)] in an environment: the empty string when the variable
    is not set. *)
Definition Getenv (env : gmap string string) (key : string) : string :=
  default EmptyString (env !! key).

Definition getEnv (env : gmap string string) (key fallback : string) : string :=
  let value := Getenv env key in
  if negb (String.eqb value "") then value else fallback.

Definition getEnvWithFallback (env : gmap string string)
           (primaryKey secondaryKey fallback : string) : string :=
  let value := Getenv env primaryKey in
  if negb (String.eqb value "") then value
  else
    let value2 := Getenv env secondaryKey in
    if negb (String.eqb value2 "") then value2 else fallback.

(** [strconv.Atoi(s)]: an optional sign, then decimal digits, within [int]. *)
Definition Atoi (s : string) : option Z :=
  let '(neg, body) :=
    match s with
    | String c r =>
      if Ascii.eqb c "-" then (true, r)
      else if Ascii.eqb c "+" then (false, r) else (false, s)
    | EmptyString => (false, s)
    end in
  match body with
  | EmptyString => None
  | String _ _ =>
    n ← digitsVal body 0;
    let v := if neg : bool then - n else n in
    if in_int64b v then Some v else None
  end.

Definition getEnvInt (env : gmap string string) (key : string) (fallback : Z) : Z :=
  let value := Getenv env key in
  if negb (String.eqb value "") then
    match Atoi value with
    | Some intVal => intVal
    | None => fallback
    end
  else fallback.

Definition applyPrefix (key prefix : string) : string :=
  if String.eqb prefix "" then key else (prefix ++ key)%string.

(** [strings.ToLower] on the ASCII letters (the words [getEnvBool]
    compares with have no letter that another rune lowers to). *)
Definition ToLower (s : string) : string := foldName s.

Definition getEnvBool (env : gmap string string) (key : string) (fallback : bool) : bool :=
  let value := Getenv env key in
  if negb (String.eqb value "") then
    let v := ToLower value in
    if String.eqb v "1" || String.eqb v "true" || String.eqb v "yes" || String.eqb v "on"
    then true
    else if String.eqb v "0" || String.eqb v "false" || String.eqb v "no"
            || String.eqb v "off"
    then false
    else fallback
  else fallback.

Record Config := mkConfig {
  RedisAddr : string;
  RedisPassword : string;
  RedisDB : Z;
  RedisPrefix : string;
  PendingQueue : string;
  ProcessingQueue : string;
  FailedQueue : string;
  WorkerCount : Z;
  GotenbergURL : string;
  S3Bucket : string;
  S3Region : string;
  AWSS3AccessKey : string;
  AWSS3SecretKey : string;
  S3Endpoint : string;
  S3UsePathStyle : bool;
  DatabaseURL : string;
  ConversionTimeout : Z;
  MaxRetries : Z
}.

(** The connection string [Load] builds. *)
Definition databaseURL (env : gmap string string) : string :=
  let dbHost := getEnv env "DB_HOST" "localhost" in
  let dbPort := getEnv env "DB_PORT" "5432" in
  let dbName := getEnv env "DB_DATABASE" "paperpulse" in
  let dbUser := getEnv env "DB_USERNAME" "paperpulse" in
  let dbPassword := getEnv env "DB_PASSWORD" "" in
  let dbSSLMode := getEnv env "DB_SSLMODE" "disable" in
  let dbSSLCert := getEnv env "DB_SSLCERT" "" in
  let dbSSLKey := getEnv env "DB_SSLKEY" "" in
  let dbSSLRootCert := getEnv env "DB_SSLROOTCERT" "" in
  let dbURL :=
    if negb (String.eqb dbPassword "") then
      ("host=" ++ dbHost ++ " port=" ++ dbPort ++ " dbname=" ++ dbName ++ " user="
         ++ dbUser ++ " password=" ++ dbPassword ++ " sslmode=" ++ dbSSLMode)%string
    else
      ("host=" ++ dbHost ++ " port=" ++ dbPort ++ " dbname=" ++ dbName ++ " user="
         ++ dbUser ++ " sslmode=" ++ dbSSLMode)%string in
  let dbURL1 := if negb (String.eqb dbSSLCert "")
                then (dbURL ++ " sslcert=" ++ dbSSLCert)%string else dbURL in
  let dbURL2 := if negb (String.eqb dbSSLKey "")
                then (dbURL1 ++ " sslkey=" ++ dbSSLKey)%string else dbURL1 in
  if negb (String.eqb dbSSLRootCert "")
  then (dbURL2 ++ " sslrootcert=" ++ dbSSLRootCert)%string else dbURL2.

Definition Load (env : gmap string string) : Config :=
  let redisPrefix := getEnv env "REDIS_PREFIX" "" in
  mkConfig
    (getEnv env "REDIS_ADDR" "redis:6379")
    (getEnv env "REDIS_PASSWORD" "")
    (getEnvInt env "REDIS_CONVERSION_DB" 3)
    redisPrefix
    (applyPrefix (getEnv env "CONVERSION_PENDING_QUEUE" "conversion:pending") redisPrefix)
    (applyPrefix (getEnv env "CONVERSION_PROCESSING_QUEUE" "conversion:processing")
                 redisPrefix)
    (applyPrefix (getEnv env "CONVERSION_FAILED_QUEUE" "conversion:failed") redisPrefix)
    (getEnvInt env "CONVERSION_WORKER_COUNT" 3)
    (getEnv env "GOTENBERG_URL" "http://gotenberg:3000")
    (getEnv env "AWS_BUCKET" "paperpulse")
    (getEnvWithFallback env "S3_REGION" "AWS_DEFAULT_REGION" "us-east-1")
    (getEnvWithFallback env "S3_KEY" "AWS_ACCESS_KEY_ID" "")
    (getEnvWithFallback env "S3_SECRET" "AWS_SECRET_ACCESS_KEY" "")
    (getEnv env "S3_ENDPOINT" "")
    (getEnvBool env "S3_USE_PATH_STYLE_ENDPOINT" false)
    (databaseURL env)
    (getEnvInt env "CONVERSION_TIMEOUT" 120)
    (getEnvInt env "CONVERSION_MAX_RETRIES" 3).

End Config.

(** ** More vocabulary *)

Module Lifecycle.
Import GoInt GoTime Models EncodingJSON Effects Redis DatabaseService Outside Worker Props.

(** What the queue holds: the three lists, the registered callbacks and
    the time. *)
Definition queueOf (w : World)
  : list string * list string * list string * list Timer * Z :=
  (pending w, processing w, failed w, timers w, clock w).

(** The attempt fails at one of its three steps. *)
Definition fails (env : AttemptEnv) : bool :=
  match download env with
  | DownloadOk =>
    match convert env with
    | ConvertOk =>
      match upload env with
      | UploadOk => false
      | UploadFails _ => true
      end
    | _ => true
    end
  | _ => true
  end.

Section WithCodec.
Context `{Codec}.

(** The job an entry holds, if it decodes and is older than five minutes
    at [now]. *)
Definition staleJob (now : Z) (x : string) : option ConversionJob :=
  match Unmarshal x with
  | Some job => if Since now (CreatedAt job) >? 5 * Minute then Some job else None
  | None => None
  end.

Definition isStale (now : Z) (x : string) : bool :=
  match staleJob now x with Some _ => true | None => false end.

(** The job with one retry more, as the code writes it. *)
Definition bump (job : ConversionJob) : ConversionJob :=
  setRetryCount (wrap64 (RetryCount job + 1)) job.

(** What a sweep at [now] requeues from a list and what it gives up on,
    each in the order of the list. *)
Definition requeued (now : Z) (l : list string) : list string :=
  flat_map (fun x =>
              match staleJob now x with
              | Some job =>
                if RetryCount job <? MaxRetries job then [Marshal (bump job)] else []
              | None => []
              end) l.

Definition givenUp (now : Z) (l : list string) : list string :=
  List.filter (fun x =>
                 match staleJob now x with
                 | Some job => negb (RetryCount job <? MaxRetries job)
                 | None => false
                 end) l.

(** What a failed attempt does to the queue. *)
Definition failedAttempt (workerID : Z) (job : ConversionJob) (jobJSON : string)
           (w : World) : list string * list string * list string * list Timer * Z :=
  if RetryCount job <? MaxRetries job
  then (pending w, removeFirst jobJSON (processing w), failed w,
        timers w ++ [retryTimer workerID (bump job) (clock w)], clock w)
  else (pending w, removeFirst jobJSON (processing w), jobJSON :: failed w,
        timers w, clock w).

(** Worker turns, each followed by thirty seconds in which nothing else
    happens. *)
Fixpoint rounds (rs : list (Z * AttemptEnv)) : M unit :=
  match rs with
  | [] => ret tt
  | (workerID, env) :: r =>
    bind (workerTurn workerID false env)
         (fun _ => bind (elapse (30 * Second)) (fun _ => rounds r))
  end.

End WithCodec.

(** The world [processJob] has made when it starts the download. *)
Definition started (workerID : Z) (job : ConversionJob) (w : World) : World :=
  let w1 := exec (logPrintf (LogProcessing workerID (ConversionID job) (FileGUID job))) w in
  let w2 := exec (UpdateConversionStatus (ConversionID job) "processing" "" None) w1 in
  exec (match eval (UpdateConversionStatus (ConversionID job) "processing" "" None) w1 with
        | Some _ => logPrintf (LogStatusUpdateFailed workerID)
        | None => ret tt
        end) w2.

(** The local files an attempt leaves, from the files [F] it found. *)
Definition leftOnDisk (env : AttemptEnv) (lp : string) (F : gset string) : gset string :=
  match download env with
  | CreateFails _ => F
  | TransferFails _ => {[lp]} ∪ F
  | DownloadOk =>
    match convert env with
    | ConvertOk => F ∖ {[lp]} ∖ {[(lp ++ ".converted.pdf")%string]}
    | SaveFails _ => ({[(lp ++ ".converted.pdf")%string]} ∪ F) ∖ {[lp]}
    | _ => F ∖ {[lp]}
    end
  end.

(** The lines a worker with nothing to do logs in its turns. *)
Definition idleLines (workerID : Z) (turns : list (bool * AttemptEnv)) : list LogLine :=
  flat_map (fun t => if fst t : bool then [LogRedisError workerID] else []) turns.

(** The error text [processJob] hands to [handleJobFailure], by what the
    object store and the conversion daemon answer. *)
Definition failureText (env : AttemptEnv) : option string :=
  match download env with
  | CreateFails e => Some ("S3 download failed: failed to create local file: " ++ e)%string
  | TransferFails e => Some ("S3 download failed: failed to download from S3: " ++ e)%string
  | DownloadOk =>
    match convert env with
    | RequestFails e => Some ("Office conversion failed: gotenberg request failed: " ++ e)%string
    | BadStatus c body =>
      Some ("Office conversion failed: gotenberg returned status " ++ pretty c ++ ": "
              ++ body)%string
    | CreateOutputFails e =>
      Some ("Office conversion failed: failed to create output file: " ++ e)%string
    | SaveFails e => Some ("Office conversion failed: failed to save converted file: " ++ e)%string
    | ConvertOk =>
      match upload env with
      | UploadFails e => Some ("S3 upload failed: failed to upload to S3: " ++ e)%string
      | UploadOk => None
      end
    end
  end.

(** The statement [c] on the row [id], run in [w]: rows with another id
    stay as they are, no row is created or deleted, an error means no row
    was changed, and nothing outside the table changes. *)
Definition touchesOnly (id : Z) (c : M error) (w : World) : Prop :=
  (forall id', id' <> id -> table (exec c w) !! id' = table w !! id') /\
  dom (table (exec c w)) = dom (table w) /\
  (is_Some (eval c w) -> table (exec c w) = table w) /\
  sameOutcome (exec c w) w /\ logs (exec c w) = logs w.

End Lifecycle.

(** ** [main] *)

Module Main.
Import Config.

(** [for i := 0; i < cfg.WorkerCount; i++] of [main]: the ids of the
    workers it starts, from [i] on, in at most [fuel] iterations. *)
Fixpoint startWorkersFrom (fuel : nat) (i count : Z) : list Z :=
  match fuel with
  | O => []
  | S f => if i <? count then i :: startWorkersFrom f (i + 1) count else []
  end.

Definition startWorkers (cfg : Config) : list Z :=
  startWorkersFrom (Z.to_nat (WorkerCount cfg)) 0 (WorkerCount cfg).

End Main.

(** * Properties *)

(** ** Arithmetic and the primitive commands *)

Section Basics.
Import GoInt GoTime Models Effects Redis DatabaseService Worker Props.

Lemma wrap64_id z : in_int64 z -> wrap64 z = z.
Proof.
  unfold in_int64, wrap64, min_int64, max_int64. intros Hz.
  rewrite Z.mod_small; lia.
Qed.

Lemma exec_bind {A B} (c : M A) (k : A -> M B) w :
  exec (bind c k) w = exec (k (eval c w)) (exec c w).
Proof. unfold exec, eval, bind. destruct (c w). reflexivity. Qed.

Lemma removeFirst_head e l : removeFirst e (e :: l) = l.
Proof. simpl. rewrite String.eqb_refl. reflexivity. Qed.

(** Whatever the database answers, a statement touches the table and the
    oracle only. *)
Lemma ExecUpdate_any id f w :
  exists err t o, ExecUpdate id f w = (err, setTable t (setDbFaults o w)).
Proof.
  destruct w as [p pr fl sh tb o tm fs lg ck]. unfold ExecUpdate. simpl.
  destruct o as [|[] o].
  - exists None, (alter f id tb), []. reflexivity.
  - exists (Some "exec failed"), tb, o. reflexivity.
  - exists None, (alter f id tb), o. reflexivity.
Qed.

(** An accepted statement rewrites the row. *)
Lemma ExecUpdate_accepted id f w :
  accepts 1 w = true ->
  ExecUpdate id f w
  = (None, setTable (alter f id (table w)) (setDbFaults (List.tl (dbFaults w)) w)).
Proof.
  destruct w as [p pr fl sh tb o tm fs lg ck]. unfold ExecUpdate, accepts. simpl.
  destruct o as [|[] o]; simpl; intros Ha; try discriminate; reflexivity.
Qed.

Lemma fire_all_pending ts w :
  pending (fold_left (fun w' t => exec (fire t) w') ts w)
  = rev (map payload ts) ++ pending w.
Proof.
  revert w. induction ts as [|t ts IH]; intros w; simpl; [reflexivity|].
  rewrite IH. simpl. rewrite <- app_assoc. reflexivity.
Qed.

(** What time passing does to the pending list: the payloads of the
    callbacks that came due are pushed, the last registered on top. *)
Lemma elapse_pending dt w :
  pending (exec (elapse dt) w)
  = rev (map payload (List.filter (fun t => due t <=? clock w + dt) (timers w)))
    ++ pending w.
Proof. unfold elapse, exec. simpl. rewrite fire_all_pending. reflexivity. Qed.

End Basics.

Ltac db_step :=
  match goal with
  | |- context [DatabaseService.ExecUpdate ?i ?f ?W] =>
    let E := fresh "E" in
    destruct (ExecUpdate_any i f W) as (? & ? & ? & E); rewrite E; clear E
  end.

Ltac run_go :=
  unfold Worker.handleJobFailure, Worker.recoverEntry,
    DatabaseService.UpdateConversionStatus, DatabaseService.UpdateConversionError,
    DatabaseService.IncrementRetryCount, Redis.HSetStatus, Worker.AfterFunc,
    Redis.LPush, Redis.LRem1, Effects.logPrintf, Effects.bind, Effects.gets,
    Effects.modify, Effects.ret;
  cbn.

(** ** [handleJobFailure] *)

Section FailAttempt.
Import GoInt GoTime Models Effects Redis DatabaseService Worker Props.
Context `{Codec}.

(** The retry branch, run. *)
Lemma handleJobFailure_retry_run workerID job jobJSON errorMsg w :
  RetryCount job < MaxRetries job ->
  exists t o,
    handleJobFailure workerID job jobJSON errorMsg w
    = (setRetryCount (wrap64 (RetryCount job + 1)) job,
       setTimers (timers w ++ [retryTimer workerID
                                 (setRetryCount (wrap64 (RetryCount job + 1)) job)
                                 (clock w)])
         (setTable t (setDbFaults o (unclaimed workerID job jobJSON errorMsg w)))).
Proof.
  intros Hlt. apply Z.ltb_lt in Hlt. run_go. db_step. cbn. rewrite Hlt.
  eexists _, _. reflexivity.
Qed.

(** The branch for a job whose retries are used up, run. *)
Lemma handleJobFailure_spent_run workerID job jobJSON errorMsg w :
  MaxRetries job <= RetryCount job ->
  exists t o,
    handleJobFailure workerID job jobJSON errorMsg w
    = (job,
       setLogs (logs w ++ [LogFailed workerID (ConversionID job) errorMsg;
                           LogMovedToFailed workerID (ConversionID job) (MaxRetries job)])
         (setStatusHash
            (<[ConversionID job :=
                 mkStatusEntry (Some "failed") (Some errorMsg) (Some (clock w))]>
               (statusHash w))
            (setTable t (setDbFaults o
               (setFailed (jobJSON :: failed w)
                  (unclaimed workerID job jobJSON errorMsg w)))))).
Proof.
  intros Hge. apply Z.ltb_ge in Hge. run_go. db_step. cbn. rewrite Hge.
  cbn. db_step. cbn. db_step. cbn. rewrite <- app_assoc.
  eexists _, _. reflexivity.
Qed.

(** C1. A job that fails with [RetryCount < MaxRetries]: its entry
    leaves the processing list (the first occurrence of that value), the
    counter of the job goes up by exactly one and no other field changes,
    nothing is pushed at once, one callback is registered that is due
    after the backoff delay and holds the job serialized again, and once
    that delay has passed exactly that one entry has been pushed on the
    head of the pending list.  So a counter that is at most [MaxRetries]
    stays at most [MaxRetries], in either branch. *)
Theorem handleJobFailure_retries_once
        (workerID : Z) (job : ConversionJob) (jobJSON errorMsg : string) (w : World) :
  wellTyped job ->
  let job' := eval (handleJobFailure workerID job jobJSON errorMsg) w in
  let w' := exec (handleJobFailure workerID job jobJSON errorMsg) w in
  (RetryCount job < MaxRetries job ->
     processing w' = removeFirst jobJSON (processing w) /\
     RetryCount job' = RetryCount job + 1 /\
     sameButRetryCount job job' /\
     pending w' = pending w /\ failed w' = failed w /\
     (exists t, timers w' = timers w ++ [t]
                /\ due t = clock w + backoffDelay (RetryCount job')
                /\ payload t = Marshal job') /\
     (forall dt, 0 <= dt ->
        pending (exec (elapse dt) w')
        = if backoffDelay (RetryCount job') <=? dt
          then Marshal job' :: pending (exec (elapse dt) w)
          else pending (exec (elapse dt) w))) /\
  (RetryCount job <= MaxRetries job ->
     RetryCount job' <= MaxRetries job' /\ MaxRetries job' = MaxRetries job).
Proof.
  intros [Hrc Hmr] job' w'. subst job' w'.
  assert (Hw : RetryCount job < MaxRetries job
               -> wrap64 (RetryCount job + 1) = RetryCount job + 1).
  { intros Hlt. apply wrap64_id. unfold in_int64, min_int64, max_int64 in *. lia. }
  split.
  - intros Hlt. specialize (Hw Hlt).
    destruct (handleJobFailure_retry_run workerID job jobJSON errorMsg w Hlt)
      as (t & o & E).
    unfold eval.
    change (exec (handleJobFailure workerID job jobJSON errorMsg) w)
      with (snd (handleJobFailure workerID job jobJSON errorMsg w)).
    rewrite E, Hw. cbn [fst snd].
    repeat split.
    + eexists. repeat split.
    + intros dt Hdt. rewrite !elapse_pending. cbn.
      rewrite List.filter_app, map_app, rev_app_distr. cbn.
      replace (clock w + backoffDelay (RetryCount job + 1) <=? clock w + dt)
        with (backoffDelay (RetryCount job + 1) <=? dt)
        by (destruct (Z.leb_spec (backoffDelay (RetryCount job + 1)) dt);
            symmetry; [apply Z.leb_le | apply Z.leb_gt]; lia).
      destruct (backoffDelay (RetryCount job + 1) <=? dt); reflexivity.
  - intros Hle. unfold eval.
    destruct (Z.lt_ge_cases (RetryCount job) (MaxRetries job)) as [Hlt|Hge].
    + destruct (handleJobFailure_retry_run workerID job jobJSON errorMsg w Hlt)
        as (t & o & ->).
      cbn. rewrite (Hw Hlt). split; [lia | reflexivity].
    + destruct (handleJobFailure_spent_run workerID job jobJSON errorMsg w Hge)
        as (t & o & ->).
      cbn. split; [lia | reflexivity].
Qed.

End FailAttempt.

Section FailAttemptCases.
Import GoInt GoTime Models EncodingJSON Effects Redis DatabaseService Worker Props Samples.

Lemma handleJobFailure_retries_once_witness :
  wellTyped job42 /\ RetryCount job42 < MaxRetries job42 /\
  RetryCount (eval (handleJobFailure 1 job42 entry42 "conversion failed")
                   (worldOf entry42))
  = RetryCount job42 + 1 /\
  RetryCount (eval (handleJobFailure 1 job42 entry42 "conversion failed")
                   (worldOf entry42))
  <= MaxRetries (eval (handleJobFailure 1 job42 entry42 "conversion failed")
                      (worldOf entry42)).
Proof.
  assert (Hwt : wellTyped job42).
  { unfold wellTyped, in_int64, min_int64, max_int64. simpl. lia. }
  assert (Hlt : RetryCount job42 < MaxRetries job42) by (simpl; lia).
  destruct (handleJobFailure_retries_once 1 job42 entry42 "conversion failed"
              (worldOf entry42) Hwt) as [Hretry Hbound].
  split; [exact Hwt|]. split; [exact Hlt|]. split.
  - apply (Hretry Hlt).
  - apply Hbound. simpl. lia.
Defined.

(** Up to the 33rd retry the delay is [min(2^k, 30)] seconds. *)
Lemma backoffDelay_small k :
  1 <= k <= 33 -> backoffDelay k = Z.min (2 ^ k) 30 * Second.
Proof.
  intros Hk.
  assert (Hall : forallb (fun n => backoffDelay n =? Z.min (2 ^ n) 30 * Second)
                         (map Z.of_nat (seq 1 33)) = true)
    by (vm_compute; reflexivity).
  rewrite forallb_forall in Hall. apply Z.eqb_eq, Hall.
  apply in_map_iff. exists (Z.to_nat k). split; [lia|]. apply in_seq. lia.
Qed.

(** C2. The delay on the 34th retry: [2^34] seconds do not fit the 64
    bits of a [time.Duration] in nanoseconds, the product wraps to a
    negative number, the comparison with 30 seconds does not hold, and the
    callback is due at once.  For the job [job42late] (33 retries made, 40
    allowed) [handleJobFailure] registers that delay and the entry is back
    on the pending list without any time passing. *)
Theorem backoffDelay_wraps_at_34 :
  backoffDelay 34 = -1266874889709551616 /\
  backoffDelay 34 <> Z.min (2 ^ 34) 30 * Second /\
  let job' := eval (handleJobFailure 1 job42late entry42late "conversion failed")
                   (worldOf entry42late) in
  let w' := exec (handleJobFailure 1 job42late entry42late "conversion failed")
                 (worldOf entry42late) in
  RetryCount job' = 34 /\
  map tDelay (timers w') = [-1266874889709551616] /\
  pending (exec (elapse 0) w') = [Marshal job'].
Proof.
  split; [vm_compute; reflexivity|].
  split; [vm_compute; discriminate|].
  vm_compute. repeat split.
Qed.

End FailAttemptCases.

Section Exhausted.
Import GoInt GoTime Models Effects Redis DatabaseService Worker Props.
Context `{Codec}.

(** The three statements of the exhausted branch, all accepted. *)
Lemma handleJobFailure_spent_table workerID job jobJSON errorMsg w :
  MaxRetries job <= RetryCount job ->
  accepts 3 w = true ->
  table (exec (handleJobFailure workerID job jobJSON errorMsg) w)
  = alter (fun r => mkRow (status r) (clock w) (started_at r) (completed_at r)
                          (output_s3_path r) (metadata r) (Some errorMsg)
                          (retry_count r))
      (ConversionID job)
      (alter (fun r => mkRow "failed" (clock w) (started_at r) (completed_at r)
                             (output_s3_path r) (metadata r) (error_message r)
                             (retry_count r))
         (ConversionID job)
         (alter (fun r => mkRow (status r) (clock w) (started_at r) (completed_at r)
                                (output_s3_path r) (metadata r) (error_message r)
                                (retry_count r + 1))
            (ConversionID job) (table w))).
Proof.
  intros Hge Hacc. apply Z.ltb_ge in Hge.
  destruct w as [p pr fl sh tb o tm fs lg ck]. unfold accepts in Hacc. simpl in Hacc.
  unfold exec. run_go. unfold ExecUpdate. cbn.
  destruct o as [|[] [|[] [|[] o]]]; try discriminate Hacc; cbn; rewrite Hge; reflexivity.
Qed.

(** C3. A job that fails with [RetryCount >= MaxRetries]: the entry as it
    was claimed, not serialized again, is the one entry pushed on the failed
    list; the job is not changed; nothing is pushed on the pending list and
    no callback is registered, so nothing appears on pending later either;
    the status hash of the conversion reads [failed] with the error text;
    and, where the table has the row and takes the statements, the row
    reads [failed] with the error text. *)
Theorem handleJobFailure_exhausted
        (workerID : Z) (job : ConversionJob) (jobJSON errorMsg : string) (w : World) :
  MaxRetries job <= RetryCount job ->
  let job' := eval (handleJobFailure workerID job jobJSON errorMsg) w in
  let w' := exec (handleJobFailure workerID job jobJSON errorMsg) w in
  failed w' = jobJSON :: failed w /\
  processing w' = removeFirst jobJSON (processing w) /\
  job' = job /\
  pending w' = pending w /\ timers w' = timers w /\
  (forall dt, pending (exec (elapse dt) w') = pending (exec (elapse dt) w)) /\
  statusHash w' !! ConversionID job
  = Some (mkStatusEntry (Some "failed") (Some errorMsg) (Some (clock w))) /\
  (accepts 3 w = true ->
   forall r, table w !! ConversionID job = Some r ->
     table w' !! ConversionID job
     = Some (mkRow "failed" (clock w) (started_at r) (completed_at r)
                   (output_s3_path r) (metadata r) (Some errorMsg)
                   (retry_count r + 1))).
Proof.
  intros Hge job' w'. subst job' w'.
  split; [|split; [|split; [|split; [|split; [|split; [|split]]]]]].
  8: { intros Hacc r Hr.
       rewrite (handleJobFailure_spent_table _ _ _ _ _ Hge Hacc).
       rewrite !lookup_alter_eq, Hr. reflexivity. }
  all: destruct (handleJobFailure_spent_run workerID job jobJSON errorMsg w Hge)
    as (t & o & E).
  all: unfold eval;
    change (exec (handleJobFailure workerID job jobJSON errorMsg) w)
      with (snd (handleJobFailure workerID job jobJSON errorMsg w));
    rewrite E; cbn [fst snd]; try reflexivity.
  - intros dt. rewrite !elapse_pending. reflexivity.
  - cbn. apply lookup_insert_eq.
Qed.

End Exhausted.

Section ExhaustedCases.
Import GoInt GoTime Models EncodingJSON Effects Redis DatabaseService Worker Props Samples.

Lemma handleJobFailure_exhausted_witness :
  MaxRetries job42spent <= RetryCount job42spent /\
  failed (exec (handleJobFailure 1 job42spent entry42spent "conversion failed")
               (worldOf entry42spent))
  = entry42spent :: failed (worldOf entry42spent).
Proof.
  assert (Hge : MaxRetries job42spent <= RetryCount job42spent) by (simpl; lia).
  split; [exact Hge|].
  destruct (handleJobFailure_exhausted 1 job42spent entry42spent "conversion failed"
              (worldOf entry42spent) Hge) as [Hfailed _].
  exact Hfailed.
Defined.

End ExhaustedCases.

(** ** The claim and the decode step *)

Section Claim.
Import GoInt GoTime Models Effects Redis DatabaseService Outside Worker Props.

Lemma BRPopLPush_tail l e w :
  pending w = l ++ [e] ->
  BRPopLPush PendingQueue ProcessingQueue w
  = (Some e, setProcessing (e :: processing w) (setPending l w)).
Proof.
  intros Hp. unfold BRPopLPush. cbn. rewrite Hp, rev_app_distr. cbn.
  rewrite rev_involutive. reflexivity.
Qed.

Lemma BRPopLPush_empty w :
  pending w = [] -> BRPopLPush PendingQueue ProcessingQueue w = (None, w).
Proof. intros Hp. unfold BRPopLPush. cbn. rewrite Hp. reflexivity. Qed.

Lemma claims_empty schedule w :
  pending w = [] -> claims schedule w = (map (fun b => (b, None)) schedule, w).
Proof.
  intros Hp. induction schedule as [|a r IH]; [reflexivity|].
  cbn. unfold bind. rewrite (BRPopLPush_empty w Hp), IH. reflexivity.
Qed.

(** C7. One entry on the pending list and any number of claims, by any
    workers, in any order: the claim that runs first returns the entry, which
    is then on the head of the processing list and no longer pending, and
    every other claim returns "no job".  For two workers [a] and [b] the
    schedules are [a; b] and [b; a]: in both exactly one of them has the
    entry. *)
Theorem claims_single_entry (w : World) (e : string) (first : Z) (others : list Z) :
  pending w = [e] ->
  eval (claims (first :: others)) w
  = (first, Some e) :: map (fun b => (b, None)) others /\
  pending (exec (claims (first :: others)) w) = [] /\
  processing (exec (claims (first :: others)) w) = e :: processing w.
Proof.
  intros Hp. unfold eval, exec. cbn. unfold bind.
  rewrite (BRPopLPush_tail [] e w Hp).
  rewrite claims_empty by reflexivity. cbn. repeat split.
Qed.

Section Decode.
Context `{Codec}.

Lemma workerTurn_undecodable workerID env w l e :
  pending w = l ++ [e] -> Unmarshal e = None ->
  exec (workerTurn workerID false env) w
  = setLogs (logs w ++ [LogParseFailed workerID]) (setPending l w).
Proof.
  intros Hp Hu. unfold exec, workerTurn, bind.
  rewrite (BRPopLPush_tail l e w Hp), Hu.
  unfold logPrintf, LRem1, modify. cbn. rewrite String.eqb_refl. reflexivity.
Qed.

Lemma workerTurn_decodable workerID env w l e job :
  pending w = l ++ [e] -> Unmarshal e = Some job ->
  exec (workerTurn workerID false env) w
  = exec (processJob workerID job e env)
         (setProcessing (e :: processing w) (setPending l w)).
Proof.
  intros Hp Hu. unfold exec, workerTurn, bind.
  rewrite (BRPopLPush_tail l e w Hp), Hu. reflexivity.
Qed.

(** C5. A worker turn that claims an entry [Unmarshal] fails on: the
    claim has put the entry on the head of processing, and the one removal
    by value takes exactly that occurrence out again, so the processing list
    is as it was; the pending list has lost the entry and nothing else; the
    failed list, the status table (its retry counters with it), the status
    hashes, the registered callbacks and the local files are untouched; one
    line is logged; and whatever time passes, the pending list shows what it
    would have shown without the entry. *)
Theorem workerTurn_drops_undecodable
        (workerID : Z) (env : AttemptEnv) (w : World) (l : list string) (e : string) :
  pending w = l ++ [e] -> Unmarshal e = None ->
  let w' := exec (workerTurn workerID false env) w in
  exec (BRPopLPush PendingQueue ProcessingQueue) w
  = setProcessing (e :: processing w) (setPending l w) /\
  processing w' = removeFirst e (e :: processing w) /\
  processing w' = processing w /\
  pending w' = l /\ failed w' = failed w /\
  table w' = table w /\ dbFaults w' = dbFaults w /\ statusHash w' = statusHash w /\
  timers w' = timers w /\ files w' = files w /\
  logs w' = logs w ++ [LogParseFailed workerID] /\
  (forall dt, pending (exec (elapse dt) w') = pending (exec (elapse dt) (setPending l w))).
Proof.
  intros Hp Hu w'. subst w'.
  rewrite (workerTurn_undecodable workerID env w l e Hp Hu).
  split; [unfold exec; rewrite (BRPopLPush_tail l e w Hp); reflexivity|].
  rewrite removeFirst_head.
  repeat (split; [reflexivity|]).
  intros dt. rewrite !elapse_pending. reflexivity.
Qed.

End Decode.
End Claim.

(** ** Local cleanup *)

Section CleanupFacts.
Import Effects S3Service.

(** C9, as the code has it.  [Cleanup] leaves the world after a second
    call as after the first, and does nothing at all when the file is
    absent; but it returns [nil] only for the empty path or a file that
    exists: for an absent file it returns the error of [os.Remove], and
    so the second of two calls in a row on a path that is not empty always
    returns an error. *)
Theorem Cleanup_twice (path : string) (w : World) :
  exec (Cleanup path) (exec (Cleanup path) w) = exec (Cleanup path) w /\
  (path ∉ files w -> exec (Cleanup path) w = w) /\
  (eval (Cleanup path) w = None <-> path = "" \/ path ∈ files w) /\
  (path <> "" -> eval (Cleanup path) (exec (Cleanup path) w) <> None).
Proof.
  unfold Cleanup, exec, eval, osRemove, ret.
  destruct (String.eqb_spec path "") as [->|Hne]; cbn.
  - split; [reflexivity|]. split; [reflexivity|]. split; [|congruence].
    split; [left; reflexivity | reflexivity].
  - destruct (decide (path ∈ files w)) as [Hin|Hout]; cbn.
    + destruct (decide (path ∈ files w ∖ {[path]})) as [Hx|_];
      [apply elem_of_difference in Hx as [_ Hx]; exfalso; apply Hx, elem_of_singleton;
       reflexivity|].
      cbn. split; [reflexivity|]. split; [contradiction|].
      split; [|discriminate]. split; [right; exact Hin | reflexivity].
    + destruct (decide (path ∈ files w)) as [Hin|_]; [contradiction|]. cbn.
      split; [reflexivity|]. split; [reflexivity|]. split; [|discriminate].
      split; [discriminate|]. intros [He|Hin]; contradiction.
Qed.

End CleanupFacts.

Section ClaimCases.
Import GoInt GoTime Models EncodingJSON Effects Redis DatabaseService Outside Worker.
Import S3Service Props Samples.

Lemma claims_single_entry_witness :
  pending (pendingWorldOf entry42) = [entry42] /\
  eval (claims [1; 2]) (pendingWorldOf entry42) = [(1, Some entry42); (2, None)] /\
  eval (claims [2; 1]) (pendingWorldOf entry42) = [(2, Some entry42); (1, None)].
Proof.
  assert (Hp : pending (pendingWorldOf entry42) = [entry42]) by reflexivity.
  split; [exact Hp|]. split.
  - destruct (claims_single_entry (pendingWorldOf entry42) entry42 1 [2] Hp) as [Hr _].
    exact Hr.
  - destruct (claims_single_entry (pendingWorldOf entry42) entry42 2 [1] Hp) as [Hr _].
    exact Hr.
Defined.

Lemma workerTurn_drops_undecodable_witness :
  pending (pendingWorldOf "not json") = [] ++ ["not json"] /\
  Unmarshal "not json" = None /\
  processing (exec (workerTurn 1 false envAllGood) (pendingWorldOf "not json"))
  = processing (pendingWorldOf "not json") /\
  pending (exec (workerTurn 1 false envAllGood) (pendingWorldOf "not json")) = [].
Proof.
  assert (Hp : pending (pendingWorldOf "not json") = [] ++ ["not json"]) by reflexivity.
  assert (Hu : Unmarshal "not json" = None) by (vm_compute; reflexivity).
  split; [exact Hp|]. split; [exact Hu|].
  destruct (workerTurn_drops_undecodable 1 envAllGood (pendingWorldOf "not json")
              [] "not json" Hp Hu) as (_ & _ & Hproc & Hpend & _).
  split; [exact Hproc | exact Hpend].
Defined.

(** C9, the claim as it is written, refuted: with no local file at the
    path, [Cleanup] returns an error; and of two calls in a row on a file
    that exists, the second returns an error. *)
Lemma Cleanup_absent_file_fails :
  (localFile ∉ files (worldOf entry42)) /\
  eval (Cleanup localFile) (worldOf entry42)
  = Some "remove /tmp/conversions/abc-def.docx: no such file or directory" /\
  eval (Cleanup localFile) (setFiles {[localFile]} (worldOf entry42)) = None /\
  eval (Cleanup localFile)
       (exec (Cleanup localFile) (setFiles {[localFile]} (worldOf entry42)))
  = Some "remove /tmp/conversions/abc-def.docx: no such file or directory".
Proof.
  split; [set_solver|]. vm_compute. repeat split.
Qed.

Lemma Cleanup_twice_witness :
  (localFile ∉ files (worldOf entry42)) /\ localFile <> "" /\
  exec (Cleanup localFile) (worldOf entry42) = worldOf entry42 /\
  eval (Cleanup localFile) (exec (Cleanup localFile) (worldOf entry42)) <> None.
Proof.
  assert (Hout : localFile ∉ files (worldOf entry42)) by set_solver.
  assert (Hne : localFile <> "") by discriminate.
  split; [exact Hout|]. split; [exact Hne|].
  destruct (Cleanup_twice localFile (worldOf entry42)) as (_ & Habsent & _ & Hsecond).
  split; [exact (Habsent Hout) | exact (Hsecond Hne)].
Defined.

End ClaimCases.

(** ** The stale-job sweep *)

Section Sweep.
Import GoInt GoTime Models Effects Redis DatabaseService Outside Worker Props.
Context `{Codec}.

Lemma recoverEntry_skip x n w : Unmarshal x = None -> recoverEntry x n w = (n, w).
Proof. intros Hu. unfold recoverEntry. rewrite Hu. reflexivity. Qed.

Lemma recoverEntry_fresh x job n w :
  Unmarshal x = Some job -> Since (clock w) (CreatedAt job) <= 5 * Minute ->
  recoverEntry x n w = (n, w).
Proof.
  intros Hu Hs. unfold recoverEntry. rewrite Hu. unfold bind, gets.
  rewrite Z.gtb_ltb. apply Z.ltb_ge in Hs. rewrite Hs. reflexivity.
Qed.

Lemma recoverEntry_retry_run x job n w :
  Unmarshal x = Some job -> Since (clock w) (CreatedAt job) > 5 * Minute ->
  RetryCount job < MaxRetries job ->
  exists t o,
    recoverEntry x n w
    = (n + 1,
       setTable t (setDbFaults o
         (setPending (Marshal (setRetryCount (wrap64 (RetryCount job + 1)) job)
                        :: pending w)
            (setProcessing (removeFirst x (processing w)) w)))).
Proof.
  intros Hu Hs Hlt. apply Z.ltb_lt in Hlt.
  assert (Hb : (Since (clock w) (CreatedAt job) >? 5 * Minute) = true)
    by (rewrite Z.gtb_ltb; apply Z.ltb_lt; lia).
  run_go. rewrite Hu. cbn. rewrite Hb. cbn. rewrite Hlt. cbn. db_step.
  eexists _, _. reflexivity.
Qed.

Lemma recoverEntry_spent_run x job n w :
  Unmarshal x = Some job -> Since (clock w) (CreatedAt job) > 5 * Minute ->
  MaxRetries job <= RetryCount job ->
  exists t o,
    recoverEntry x n w
    = (n, setTable t (setDbFaults o
            (setFailed (x :: failed w)
               (setProcessing (removeFirst x (processing w)) w)))).
Proof.
  intros Hu Hs Hge. apply Z.ltb_ge in Hge.
  assert (Hb : (Since (clock w) (CreatedAt job) >? 5 * Minute) = true)
    by (rewrite Z.gtb_ltb; apply Z.ltb_lt; lia).
  run_go. rewrite Hu. cbn. rewrite Hb. cbn. rewrite Hge. cbn. db_step. cbn. db_step.
  eexists _, _. reflexivity.
Qed.

Lemma occurrences_removeFirst_ne e x l :
  x <> e -> occurrences e (removeFirst x l) = occurrences e l.
Proof.
  intros Hne. unfold occurrences. induction l as [|y l IH]; [reflexivity|].
  simpl. destruct (String.eqb_spec y x) as [->|Hyx].
  - destruct (string_dec x e); [contradiction | reflexivity].
  - simpl. rewrite IH. reflexivity.
Qed.

Lemma occurrences_cons_ne e x l : x <> e -> occurrences e (x :: l) = occurrences e l.
Proof.
  intros Hne. unfold occurrences. simpl.
  destruct (string_dec x e); [contradiction | reflexivity].
Qed.

Lemma keeps_refl e w : keeps e w w.
Proof. repeat split. exists []. split; [reflexivity | constructor]. Qed.

Lemma keeps_trans e w1 w2 w3 : keeps e w1 w2 -> keeps e w2 w3 -> keeps e w1 w3.
Proof.
  intros (Hp1 & Hf1 & l1 & Hl1 & HF1) (Hp2 & Hf2 & l2 & Hl2 & HF2).
  split; [congruence|]. split; [congruence|].
  exists (l2 ++ l1). split.
  - rewrite Hl2, Hl1, app_assoc. reflexivity.
  - apply Forall_app; split; assumption.
Qed.

Lemma recoverEntry_keeps e x n w :
  Unmarshal e = None -> keeps e w (exec (recoverEntry x n) w).
Proof.
  intros Hu. unfold exec.
  destruct (Unmarshal x) as [job|] eqn:Hx.
  2: { rewrite (recoverEntry_skip x n w Hx). apply keeps_refl. }
  assert (Hne : x <> e) by (intros ->; congruence).
  destruct (Z_le_gt_dec (Since (clock w) (CreatedAt job)) (5 * Minute)) as [Hf|Hs].
  { rewrite (recoverEntry_fresh x job n w Hx Hf). apply keeps_refl. }
  destruct (Z.lt_ge_cases (RetryCount job) (MaxRetries job)) as [Hlt|Hge].
  - destruct (recoverEntry_retry_run x job n w Hx Hs Hlt) as (t & o & ->). cbn.
    split; [apply occurrences_removeFirst_ne, Hne|]. split; [reflexivity|].
    eexists [_]. split; [reflexivity|]. constructor; [eexists; reflexivity | constructor].
  - destruct (recoverEntry_spent_run x job n w Hx Hs Hge) as (t & o & ->). cbn.
    split; [apply occurrences_removeFirst_ne, Hne|].
    split; [apply occurrences_cons_ne, Hne|].
    exists []. split; [reflexivity | constructor].
Qed.

Lemma recoverLoop_keeps e jobs n w :
  Unmarshal e = None -> keeps e w (exec (recoverLoop jobs n) w).
Proof.
  intros Hu. revert n w. induction jobs as [|x r IH]; intros n w.
  - apply keeps_refl.
  - unfold exec. cbn. unfold bind.
    pose proof (recoverEntry_keeps e x n w Hu) as H1. unfold exec in H1.
    destruct (recoverEntry x n w) as [n' w1]. cbn in H1.
    eapply keeps_trans; [exact H1 | apply IH].
Qed.

Lemma recoverStaleJobs_keeps e rangeFails w :
  Unmarshal e = None -> keeps e w (exec (recoverStaleJobs rangeFails) w).
Proof.
  intros Hu. unfold exec, recoverStaleJobs. destruct rangeFails.
  - cbn. split; [reflexivity|]. split; [reflexivity|].
    exists []. split; [reflexivity | constructor].
  - unfold bind, LRange, gets. cbn.
    pose proof (recoverLoop_keeps e (processing w) 0 w Hu) as H1. unfold exec in H1.
    destruct (recoverLoop (processing w) 0 w) as [n' w1]. cbn in H1.
    destruct (n' >? 0); cbn; [|exact H1].
    destruct H1 as (Hp & Hf & l & Hl & HF). repeat split; try assumption.
    exists l. split; assumption.
Qed.

Lemma fire_all_frame ts w :
  processing (fold_left (fun w' t => exec (fire t) w') ts w) = processing w /\
  failed (fold_left (fun w' t => exec (fire t) w') ts w) = failed w.
Proof.
  revert w. induction ts as [|t ts IH]; intros w; simpl; [split; reflexivity|].
  destruct (IH (exec (fire t) w)) as [-> ->]. split; reflexivity.
Qed.

Lemma elapse_frame dt w :
  processing (exec (elapse dt) w) = processing w /\
  failed (exec (elapse dt) w) = failed w.
Proof.
  exact (fire_all_frame
           (List.filter (fun t => due t <=? clock w + dt) (timers w))
           (setTimers (List.filter (fun t => negb (due t <=? clock w + dt)) (timers w))
                      (setClock (clock w + dt) w))).
Qed.

Lemma RecoveryLoop_processing e ticks w :
  Unmarshal e = None ->
  occurrences e (processing (exec (RecoveryLoop ticks) w)) = occurrences e (processing w).
Proof.
  intros Hu. revert w. induction ticks as [|b r IH]; intros w; [reflexivity|].
  cbn [RecoveryLoop]. rewrite !exec_bind, IH.
  destruct (recoverStaleJobs_keeps e b (exec (elapse (5 * Minute)) w) Hu) as (-> & _).
  destruct (elapse_frame (5 * Minute) w) as [-> _]. reflexivity.
Qed.

(** C10. An entry of the processing list that [Unmarshal] fails on: the
    turn of the sweep's loop for it changes nothing at all (no removal, no
    push, no statement to the status table); a whole sweep leaves it in
    processing as often as it was there and in failed as often as it was
    there, and what the sweep pushes on pending are serialized jobs; and
    however many ticks the recovery loop runs, the entry is still in
    processing after them. *)
Theorem recoverStaleJobs_skips_undecodable (e : string) :
  Unmarshal e = None ->
  (forall n w, recoverEntry e n w = (n, w)) /\
  (forall rangeFails w,
     let w' := exec (recoverStaleJobs rangeFails) w in
     occurrences e (processing w') = occurrences e (processing w) /\
     occurrences e (failed w') = occurrences e (failed w) /\
     exists pushed, pending w' = pushed ++ pending w /\ Forall fromMarshal pushed) /\
  (forall ticks w,
     occurrences e (processing (exec (RecoveryLoop ticks) w))
     = occurrences e (processing w)) /\
  (forall ticks w, In e (processing w) -> In e (processing (exec (RecoveryLoop ticks) w))).
Proof.
  intros Hu. split; [intros n w; apply recoverEntry_skip, Hu|].
  split; [intros b w; apply (recoverStaleJobs_keeps e b w Hu)|].
  split; [intros ticks w; apply RecoveryLoop_processing, Hu|].
  intros ticks w Hin.
  apply (count_occ_In String.string_dec).
  fold (occurrences e (processing (exec (RecoveryLoop ticks) w))).
  rewrite (RecoveryLoop_processing e ticks w Hu).
  apply (count_occ_In String.string_dec). exact Hin.
Qed.


Lemma stale_gtb w job :
  Since (clock w) (CreatedAt job) > 5 * Minute ->
  (Since (clock w) (CreatedAt job) >? 5 * Minute) = true.
Proof. intros Hs. rewrite Z.gtb_ltb. apply Z.ltb_lt. lia. Qed.

Lemma sweep_retry_db x job n workerID errorMsg w :
  Unmarshal x = Some job -> Since (clock w) (CreatedAt job) > 5 * Minute ->
  RetryCount job < MaxRetries job ->
  table (exec (recoverEntry x n) w)
  = table (exec (handleJobFailure workerID job x errorMsg) w) /\
  dbFaults (exec (recoverEntry x n) w)
  = dbFaults (exec (handleJobFailure workerID job x errorMsg) w).
Proof.
  intros Hu Hs Hlt. apply Z.ltb_lt in Hlt. apply stale_gtb in Hs.
  destruct w as [p pr fl sh tb o tm fs lg ck]. cbn in Hs.
  unfold exec. run_go. rewrite Hu. cbn. rewrite Hs. cbn. rewrite Hlt. cbn.
  unfold ExecUpdate. cbn.
  destruct o as [|[] o]; cbn; rewrite ?Hlt; split; reflexivity.
Qed.

Lemma sweep_spent_db x job n w :
  Unmarshal x = Some job -> Since (clock w) (CreatedAt job) > 5 * Minute ->
  MaxRetries job <= RetryCount job ->
  table (exec (recoverEntry x n) w)
  = table (exec (bind (UpdateConversionStatus (ConversionID job) "failed" "" None)
                      (fun _ => UpdateConversionError (ConversionID job) sweepReason))
                w).
Proof.
  intros Hu Hs Hge. apply Z.ltb_ge in Hge. apply stale_gtb in Hs.
  destruct w as [p pr fl sh tb o tm fs lg ck]. cbn in Hs.
  unfold exec. run_go. rewrite Hu. cbn. rewrite Hs. cbn. rewrite Hge. cbn.
  unfold ExecUpdate. cbn.
  destruct o as [|[] [|[] o]]; reflexivity.
Qed.

(** The row the sweep leaves for a job whose retries are used up, when
    the table has the row and takes the two statements. *)
Lemma sweep_spent_row x job n w r :
  Unmarshal x = Some job -> Since (clock w) (CreatedAt job) > 5 * Minute ->
  MaxRetries job <= RetryCount job ->
  accepts 2 w = true -> table w !! ConversionID job = Some r ->
  table (exec (recoverEntry x n) w) !! ConversionID job
  = Some (mkRow "failed" (clock w) (started_at r) (completed_at r) (output_s3_path r)
                (metadata r) (Some sweepReason) (retry_count r)).
Proof.
  intros Hu Hs Hge Hacc Hr. apply Z.ltb_ge in Hge. apply stale_gtb in Hs.
  destruct w as [p pr fl sh tb o tm fs lg ck]. cbn in Hs, Hr.
  unfold accepts in Hacc. cbn in Hacc.
  unfold exec. run_go. rewrite Hu. cbn. rewrite Hs. cbn. rewrite Hge. cbn.
  unfold ExecUpdate. cbn.
  destruct o as [|[] [|[] o]]; try discriminate Hacc; cbn;
    rewrite !lookup_alter_eq, Hr; reflexivity.
Qed.

(** C4, as the code has it.  For an entry that decodes to a job older
    than five minutes the sweep takes the branch [handleJobFailure] takes
    (retry when [RetryCount < MaxRetries], fail otherwise) and leaves the
    processing and failed lists as [handleJobFailure] would.  In the retry
    branch it pushes the entry [handleJobFailure] would schedule, and counts
    the retry in the table alike, but it pushes at once: no callback, no
    backoff.  In the other branch it pushes the original entry on failed
    and records [failed] with its own error text, [sweepReason]; it writes
    no status hash, and the row keeps its retry counter. *)
Theorem recoverEntry_branches_as_handleJobFailure
        (workerID : Z) (e : string) (job : ConversionJob) (errorMsg : string)
        (n : Z) (w : World) :
  Unmarshal e = Some job ->
  Since (clock w) (CreatedAt job) > 5 * Minute ->
  let ws := exec (recoverEntry e n) w in
  let wf := exec (handleJobFailure workerID job e errorMsg) w in
  let job' := eval (handleJobFailure workerID job e errorMsg) w in
  processing ws = removeFirst e (processing w) /\
  processing ws = processing wf /\ failed ws = failed wf /\
  (RetryCount job < MaxRetries job ->
     pending ws = Marshal job' :: pending w /\ timers ws = timers w /\
     pending wf = pending w /\
     (exists t, timers wf = timers w ++ [t] /\ payload t = Marshal job'
                /\ due t = clock w + backoffDelay (RetryCount job')) /\
     table ws = table wf /\ dbFaults ws = dbFaults wf /\
     statusHash ws = statusHash wf) /\
  (MaxRetries job <= RetryCount job ->
     failed ws = e :: failed w /\
     pending ws = pending w /\ pending wf = pending w /\
     timers ws = timers w /\ timers wf = timers w /\
     statusHash ws = statusHash w /\
     table ws
     = table (exec (bind (UpdateConversionStatus (ConversionID job) "failed" "" None)
                         (fun _ => UpdateConversionError (ConversionID job) sweepReason))
                   w) /\
     (accepts 2 w = true ->
      forall r, table w !! ConversionID job = Some r ->
        table ws !! ConversionID job
        = Some (mkRow "failed" (clock w) (started_at r) (completed_at r)
                      (output_s3_path r) (metadata r) (Some sweepReason)
                      (retry_count r)))).
Proof.
  intros Hu Hs ws wf job'. subst ws wf job'.
  destruct (Z.lt_ge_cases (RetryCount job) (MaxRetries job)) as [Hlt|Hge].
  - destruct (sweep_retry_db e job n workerID errorMsg w Hu Hs Hlt) as [Ht Ho].
    destruct (recoverEntry_retry_run e job n w Hu Hs Hlt) as (t1 & o1 & E1).
    destruct (handleJobFailure_retry_run workerID job e errorMsg w Hlt) as (t2 & o2 & E2).
    assert (Hws : exec (recoverEntry e n) w = snd (recoverEntry e n w)) by reflexivity.
    assert (Hwf : exec (handleJobFailure workerID job e errorMsg) w
                  = snd (handleJobFailure workerID job e errorMsg w)) by reflexivity.
    unfold eval. rewrite Hws, Hwf in *. rewrite E1, E2 in *. cbn [fst snd] in *.
    split; [reflexivity|]. split; [reflexivity|]. split; [reflexivity|].
    split; [|intros Hge; lia].
    intros _. split; [reflexivity|]. split; [reflexivity|]. split; [reflexivity|].
    split; [eexists; repeat split|].
    split; [exact Ht|]. split; [exact Ho | reflexivity].
  - pose proof (sweep_spent_db e job n w Hu Hs Hge) as Ht.
    pose proof (fun Ha r => sweep_spent_row e job n w r Hu Hs Hge Ha) as Hrow.
    destruct (recoverEntry_spent_run e job n w Hu Hs Hge) as (t1 & o1 & E1).
    destruct (handleJobFailure_spent_run workerID job e errorMsg w Hge) as (t2 & o2 & E2).
    assert (Hws : exec (recoverEntry e n) w = snd (recoverEntry e n w)) by reflexivity.
    assert (Hwf : exec (handleJobFailure workerID job e errorMsg) w
                  = snd (handleJobFailure workerID job e errorMsg w)) by reflexivity.
    unfold eval. rewrite Hws, Hwf in *. rewrite E1, E2 in *. cbn [fst snd] in *.
    split; [reflexivity|]. split; [reflexivity|]. split; [reflexivity|].
    split; [intros Hlt; lia|].
    intros _. repeat (split; [reflexivity|]). split; [exact Ht | exact Hrow].
Qed.

End Sweep.

Section SweepCases.
Import GoInt GoTime Models EncodingJSON Effects Redis DatabaseService Outside Worker.
Import Props Samples.

(** C4, the claim as it is written, refuted.  The job [job42] is six
    minutes old and in processing.  The sweep has it back on the pending
    list at once, with no callback registered; [handleJobFailure], for the
    same job and entry, leaves the pending list empty and registers a
    callback due two seconds later.  With the retries used up
    ([job42spent]) the sweep records its own error text and not the reason
    it is given, and it leaves the retry counter of the row alone. *)
Lemma recoverEntry_pushes_without_backoff :
  Unmarshal entry42 = Some job42 /\
  Since (clock (staleWorldOf entry42)) (CreatedAt job42) > 5 * Minute /\
  pending (exec (recoverEntry entry42 0) (staleWorldOf entry42))
  = [Marshal (setRetryCount 1 job42)] /\
  timers (exec (recoverEntry entry42 0) (staleWorldOf entry42)) = [] /\
  pending (exec (handleJobFailure 1 job42 entry42 staleReason) (staleWorldOf entry42))
  = [] /\
  map tDelay (timers (exec (handleJobFailure 1 job42 entry42 staleReason)
                           (staleWorldOf entry42)))
  = [2 * Second] /\
  Unmarshal entry42spent = Some job42spent /\
  (fun r => (error_message r, retry_count r))
    <$> (table (exec (recoverEntry entry42spent 0) (staleWorldOf entry42spent)) !! 42)
  = Some (Some sweepReason, 0) /\
  (fun r => (error_message r, retry_count r))
    <$> (table (exec (handleJobFailure 1 job42spent entry42spent staleReason)
                     (staleWorldOf entry42spent)) !! 42)
  = Some (Some staleReason, 1).
Proof. vm_compute. repeat split. Qed.

Lemma recoverEntry_branches_as_handleJobFailure_witness :
  Unmarshal entry42 = Some job42 /\
  Since (clock (staleWorldOf entry42)) (CreatedAt job42) > 5 * Minute /\
  RetryCount job42 < MaxRetries job42 /\
  timers (exec (recoverEntry entry42 0) (staleWorldOf entry42))
  = timers (staleWorldOf entry42) /\
  processing (exec (recoverEntry entry42 0) (staleWorldOf entry42))
  = processing (exec (handleJobFailure 1 job42 entry42 staleReason)
                     (staleWorldOf entry42)).
Proof.
  assert (Hu : Unmarshal entry42 = Some job42) by (vm_compute; reflexivity).
  assert (Hs : Since (clock (staleWorldOf entry42)) (CreatedAt job42) > 5 * Minute)
    by (vm_compute; reflexivity).
  assert (Hlt : RetryCount job42 < MaxRetries job42) by (simpl; lia).
  split; [exact Hu|]. split; [exact Hs|]. split; [exact Hlt|].
  destruct (recoverEntry_branches_as_handleJobFailure 1 entry42 job42 staleReason 0
              (staleWorldOf entry42) Hu Hs) as (_ & Hproc & _ & Hretry & _).
  destruct (Hretry Hlt) as (_ & Htimers & _).
  split; [exact Htimers | exact Hproc].
Defined.

Lemma recoverStaleJobs_skips_undecodable_witness :
  Unmarshal "not json" = None /\
  In "not json" (processing (worldOf "not json")) /\
  In "not json"
     (processing (exec (RecoveryLoop [false; false; false]) (worldOf "not json"))).
Proof.
  assert (Hu : Unmarshal "not json" = None) by (vm_compute; reflexivity).
  assert (Hin : In "not json" (processing (worldOf "not json"))) by (left; reflexivity).
  split; [exact Hu|]. split; [exact Hin|].
  destruct (recoverStaleJobs_skips_undecodable "not json" Hu) as (_ & _ & _ & Hloop).
  exact (Hloop [false; false; false] (worldOf "not json") Hin).
Defined.

End SweepCases.

(** ** Status writes *)

Section Observational.
Import GoInt GoTime Models Effects Redis DatabaseService Outside Worker Props.
Context `{Codec}.

#[local] Arguments otherLines : simpl never.

Lemma otherLines_app l r : otherLines (l ++ r) = otherLines l ++ otherLines r.
Proof. unfold otherLines. apply List.filter_app. Qed.

Ltac fail_step Hlt :=
  match goal with
  | |- context [handleJobFailure ?a ?b ?c ?d ?W] =>
    first [ destruct (handleJobFailure_retry_run a b c d W Hlt) as (? & ? & ->)
          | destruct (handleJobFailure_spent_run a b c d W Hlt) as (? & ? & ->) ]
  end.

Ltac alike_done Hl :=
  unfold alike, sameOutcome; cbn;
  rewrite ?otherLines_app, ?Hl; cbn; repeat split; reflexivity.

Lemma handleJobFailure_alike workerID job jobJSON errorMsg a b :
  alike a b ->
  eval (handleJobFailure workerID job jobJSON errorMsg) a
  = eval (handleJobFailure workerID job jobJSON errorMsg) b /\
  alike (exec (handleJobFailure workerID job jobJSON errorMsg) a)
        (exec (handleJobFailure workerID job jobJSON errorMsg) b) /\
  (logs a = logs b ->
   logs (exec (handleJobFailure workerID job jobJSON errorMsg) a)
   = logs (exec (handleJobFailure workerID job jobJSON errorMsg) b)).
Proof.
  intros [(Hp & Hpr & Hf & Hs & Ht & Hfs & Hc) Hl].
  destruct a as [p pr fl sh tb o tm fs lg ck], b as [p' pr' fl' sh' tb' o' tm' fs' lg' ck'].
  cbn [pending processing failed statusHash timers files clock logs] in *.
  subst p' pr' fl' sh' tm' fs' ck'.
  unfold eval, exec.
  destruct (Z.lt_ge_cases (RetryCount job) (MaxRetries job)) as [Hlt|Hge].
  - fail_step Hlt. fail_step Hlt. cbn [fst snd].
    split; [reflexivity|]. split; [alike_done Hl|].
    cbn. intros ->. reflexivity.
  - fail_step Hge. fail_step Hge. cbn [fst snd].
    split; [reflexivity|]. split; [alike_done Hl|].
    cbn. intros ->. reflexivity.
Qed.


Lemma releq_rel {A} (c1 c2 : M A) : releq c1 c2 -> rel c1 c2.
Proof. intros Hc a b Hab. apply (Hc a b Hab). Qed.

Lemma rel_bind {A B A' B'} (c1 : M A) (c2 : M A') (k1 : A -> M B) (k2 : A' -> M B') :
  rel c1 c2 -> (forall x y, rel (k1 x) (k2 y)) -> rel (bind c1 k1) (bind c2 k2).
Proof. intros Hc Hk a b Hab. rewrite !exec_bind. apply Hk, Hc, Hab. Qed.

Lemma rel_bind_eq {A B B'} (c1 c2 : M A) (k1 : A -> M B) (k2 : A -> M B') :
  releq c1 c2 -> (forall x, rel (k1 x) (k2 x)) -> rel (bind c1 k1) (bind c2 k2).
Proof.
  intros Hc Hk a b Hab. rewrite !exec_bind.
  destruct (Hc a b Hab) as [-> Hw]. apply Hk, Hw.
Qed.

Lemma rel_ret {A B} (x : A) (y : B) : rel (ret x) (ret y).
Proof. intros a b Hab. exact Hab. Qed.

Lemma releq_modify (f : World -> World) :
  (forall a b, alike a b -> alike (f a) (f b)) -> releq (modify f) (modify f).
Proof. intros Hf a b Hab. split; [reflexivity | apply Hf, Hab]. Qed.

Ltac split_alike :=
  match goal with
  | Hab : alike ?a ?b |- _ =>
    let Hl := fresh "Hl" in
    destruct Hab as [(? & ? & ? & ? & ? & ? & ?) Hl];
    destruct a, b;
    cbn [pending processing failed statusHash timers files clock logs] in *;
    subst
  end.

Ltac close_alike :=
  unfold alike, sameOutcome; cbn;
  rewrite ?otherLines_app;
  repeat match goal with Hl : otherLines _ = otherLines _ |- _ => rewrite Hl; clear Hl end;
  cbn; repeat split; reflexivity.

Lemma releq_logPrintf l : releq (logPrintf l) (logPrintf l).
Proof. apply releq_modify. intros a b Hab. split_alike. close_alike. Qed.

Lemma rel_ExecUpdate id f id' f' : rel (ExecUpdate id f) (ExecUpdate id' f').
Proof.
  intros a b Hab. unfold exec.
  destruct (ExecUpdate_any id f a) as (? & ? & ? & ->).
  destruct (ExecUpdate_any id' f' b) as (? & ? & ? & ->).
  split_alike. close_alike.
Qed.

Lemma rel_UpdateConversionStatus id st out meta :
  rel (UpdateConversionStatus id st out meta) (UpdateConversionStatus id st out meta).
Proof.
  unfold UpdateConversionStatus. apply rel_bind.
  - intros a b Hab. exact Hab.
  - intros x y. apply rel_ExecUpdate.
Qed.

Lemma rel_write_failure_line {A B} (x : option A) (y : option B) l :
  isWriteFailureLine l = true ->
  rel (match x with Some _ => logPrintf l | None => ret tt end)
      (match y with Some _ => logPrintf l | None => ret tt end).
Proof.
  intros Hline a b Hab. split_alike.
  assert (Hdrop : forall ls, otherLines (ls ++ [l]) = otherLines ls).
  { intros ls. rewrite otherLines_app. unfold otherLines at 2. cbn.
    rewrite Hline. cbn. apply app_nil_r. }
  destruct x, y; unfold alike, sameOutcome, exec; cbn; rewrite ?Hdrop;
    repeat split; assumption.
Qed.

Lemma releq_Download env p g x :
  releq (S3Service.Download env p g x) (S3Service.Download env p g x).
Proof.
  intros a b Hab. unfold S3Service.Download, eval, exec, bind, modify, ret.
  split_alike. destruct (download env); cbn; (split; [reflexivity | close_alike]).
Qed.

Lemma releq_ConvertToPDFA env p x :
  releq (GotenbergService.ConvertToPDFA env p x) (GotenbergService.ConvertToPDFA env p x).
Proof.
  intros a b Hab.
  unfold GotenbergService.ConvertToPDFA, eval, exec, bind, modify, gets, ret.
  split_alike. cbn.
  destruct (decide (p ∈ _)); [destruct (convert env)|]; cbn;
    (split; [reflexivity | close_alike]).
Qed.

Lemma releq_Upload env p x :
  releq (S3Service.Upload env p x) (S3Service.Upload env p x).
Proof.
  intros a b Hab. unfold S3Service.Upload, eval, exec, bind, gets, ret.
  split_alike. cbn.
  destruct (decide (p ∈ _)); [destruct (upload env)|]; cbn;
    (split; [reflexivity | close_alike]).
Qed.

Lemma releq_Cleanup p : releq (S3Service.Cleanup p) (S3Service.Cleanup p).
Proof.
  intros a b Hab. unfold S3Service.Cleanup, S3Service.osRemove, eval, exec, ret.
  split_alike. destruct (String.eqb p ""); cbn; [split; [reflexivity | close_alike]|].
  destruct (decide (p ∈ _)); cbn; (split; [reflexivity | close_alike]).
Qed.

Lemma releq_HSetStatus id st err : releq (HSetStatus id st err) (HSetStatus id st err).
Proof. apply releq_modify. intros a b Hab. split_alike. close_alike. Qed.

Lemma releq_LRem1 k v : releq (LRem1 k v) (LRem1 k v).
Proof.
  apply releq_modify. intros a b Hab. split_alike. destruct k; close_alike.
Qed.

Lemma releq_handleJobFailure workerID job jobJSON errorMsg :
  releq (handleJobFailure workerID job jobJSON errorMsg)
        (handleJobFailure workerID job jobJSON errorMsg).
Proof.
  intros a b Hab.
  destruct (handleJobFailure_alike workerID job jobJSON errorMsg a b Hab) as (? & ? & _).
  split; assumption.
Qed.

Lemma processJob_alike workerID job jobJSON env :
  rel (processJob workerID job jobJSON env) (processJob workerID job jobJSON env).
Proof.
  unfold processJob.
  apply rel_bind_eq; [apply releq_logPrintf | intros _].
  apply rel_bind; [apply rel_UpdateConversionStatus | intros e1 e2].
  apply rel_bind; [apply rel_write_failure_line; reflexivity | intros _ _].
  apply rel_bind_eq; [apply releq_Download | intros [lp [e|]]].
  { apply rel_bind_eq; [apply releq_handleJobFailure | intros _; apply rel_ret]. }
  apply rel_bind_eq; [apply releq_ConvertToPDFA | intros [op [e|]]].
  { apply rel_bind_eq; [apply releq_handleJobFailure | intros _].
    apply rel_bind_eq; [apply releq_Cleanup | intros _; apply rel_ret]. }
  apply rel_bind_eq; [apply releq_Upload | intros [e|]].
  { apply rel_bind_eq; [apply releq_handleJobFailure | intros _].
    apply rel_bind_eq; [apply releq_Cleanup | intros _].
    apply rel_bind_eq; [apply releq_Cleanup | intros _; apply rel_ret]. }
  apply rel_bind; [apply rel_UpdateConversionStatus | intros e3 e4].
  apply rel_bind; [apply rel_write_failure_line; reflexivity | intros _ _].
  apply rel_bind_eq; [apply releq_HSetStatus | intros _].
  apply rel_bind_eq; [apply releq_LRem1 | intros _].
  apply rel_bind_eq; [apply releq_logPrintf | intros _].
  apply rel_bind_eq; [apply releq_Cleanup | intros _].
  apply rel_bind_eq; [apply releq_Cleanup | intros _; apply rel_ret].
Qed.


Lemma appends_bind {A B} (c : M A) (k : A -> M B) :
  appends c -> (forall x, appends (k x)) -> appends (bind c k).
Proof.
  intros Hc Hk w. rewrite exec_bind.
  destruct (Hc w) as [m1 E1]. destruct (Hk (eval c w) (exec c w)) as [m2 E2].
  exists (m1 ++ m2). rewrite E2, E1, app_assoc. reflexivity.
Qed.

Lemma appends_ret {A} (x : A) : appends (ret x).
Proof. intros w. exists []. symmetry. apply app_nil_r. Qed.

Lemma appends_quiet {A} (c : M A) :
  (forall w, logs (exec c w) = logs w) -> appends c.
Proof. intros Hc w. exists []. rewrite Hc. symmetry. apply app_nil_r. Qed.

Lemma appends_logPrintf l : appends (logPrintf l).
Proof. intros w. exists [l]. reflexivity. Qed.

Lemma appends_ExecUpdate id f : appends (ExecUpdate id f).
Proof.
  apply appends_quiet. intros w. unfold exec.
  destruct (ExecUpdate_any id f w) as (? & ? & ? & ->). reflexivity.
Qed.

Lemma appends_UpdateConversionStatus id st out meta :
  appends (UpdateConversionStatus id st out meta).
Proof.
  apply appends_bind; [apply appends_quiet; reflexivity | intros; apply appends_ExecUpdate].
Qed.

Lemma appends_Cleanup p : appends (S3Service.Cleanup p).
Proof.
  apply appends_quiet. intros w. unfold S3Service.Cleanup, S3Service.osRemove, exec, ret.
  destruct (String.eqb p ""); [reflexivity|]. destruct (decide (p ∈ files w)); reflexivity.
Qed.

Lemma appends_handleJobFailure workerID job jobJSON errorMsg :
  appends (handleJobFailure workerID job jobJSON errorMsg).
Proof.
  intros w. unfold exec.
  destruct (Z.lt_ge_cases (RetryCount job) (MaxRetries job)) as [Hlt|Hge].
  - destruct (handleJobFailure_retry_run workerID job jobJSON errorMsg w Hlt)
      as (? & ? & ->). eexists. reflexivity.
  - destruct (handleJobFailure_spent_run workerID job jobJSON errorMsg w Hge)
      as (? & ? & ->). eexists. reflexivity.
Qed.

Ltac appends_step :=
  first [ apply appends_ret | apply appends_logPrintf | apply appends_Cleanup
        | apply appends_handleJobFailure | apply appends_UpdateConversionStatus
        | apply appends_bind; [|intros ?] ].

(** What [processJob] does once the input is on the local disk. *)
Lemma appends_afterDownload workerID job jobJSON env dl :
  appends (match dl with
           | (_, Some e) =>
             bind (handleJobFailure workerID job jobJSON ("S3 download failed: " ++ e))
                  (fun _ => ret tt)
           | (localInputPath, None) =>
             bind (GotenbergService.ConvertToPDFA env localInputPath (InputExtension job))
               (fun cv =>
                match cv with
                | (_, Some e) =>
                  bind (handleJobFailure workerID job jobJSON
                                         ("Office conversion failed: " ++ e))
                    (fun _ => bind (S3Service.Cleanup localInputPath) (fun _ => ret tt))
                | (localOutputPath, None) =>
                  bind (S3Service.Upload env localOutputPath (OutputS3Path job))
                    (fun up =>
                     match up with
                     | Some e =>
                       bind (handleJobFailure workerID job jobJSON
                                              ("S3 upload failed: " ++ e))
                         (fun _ => bind (S3Service.Cleanup localOutputPath)
                            (fun _ => bind (S3Service.Cleanup localInputPath)
                               (fun _ => ret tt)))
                     | None =>
                       bind (UpdateConversionStatus (ConversionID job) "completed"
                               (OutputS3Path job)
                               (Some (workerID, Z.quot (elapsed env) 1000000)))
                         (fun err2 =>
                          bind (match err2 with
                                | Some _ => logPrintf (LogCompletedUpdateFailed workerID)
                                | None => ret tt
                                end)
                            (fun _ => bind (HSetStatus (ConversionID job) "completed" None)
                               (fun _ => bind (LRem1 ProcessingQueue jobJSON)
                                  (fun _ => bind (logPrintf
                                                    (LogCompleted workerID
                                                       (ConversionID job) (elapsed env)))
                                     (fun _ => bind (S3Service.Cleanup localOutputPath)
                                        (fun _ => bind (S3Service.Cleanup localInputPath)
                                           (fun _ => ret tt)))))))
                     end)
                end)
           end).
Proof.
  destruct dl as [lp [e|]]; [repeat appends_step|].
  apply appends_bind.
  { apply appends_quiet. intros w.
    unfold GotenbergService.ConvertToPDFA, exec, bind, gets, modify, ret. cbn.
    destruct (decide (lp ∈ files w)); [destruct (convert env)|]; reflexivity. }
  intros [op [e|]]; [repeat appends_step|].
  apply appends_bind.
  { apply appends_quiet. intros w. unfold S3Service.Upload, exec, bind, gets, ret. cbn.
    destruct (decide (op ∈ files w)); [destruct (upload env)|]; reflexivity. }
  intros [e|]; [repeat appends_step|].
  apply appends_bind; [apply appends_UpdateConversionStatus | intros err2].
  apply appends_bind; [destruct err2; appends_step | intros _].
  apply appends_bind; [apply appends_quiet; reflexivity | intros _].
  apply appends_bind; [apply appends_quiet; reflexivity | intros _].
  repeat appends_step.
Qed.


Lemma UpdateConversionStatus_refused id st out meta w o :
  dbFaults w = true :: o ->
  eval (UpdateConversionStatus id st out meta) w = Some "exec failed" /\
  logs (exec (UpdateConversionStatus id st out meta) w) = logs w /\
  files (exec (UpdateConversionStatus id st out meta) w) = files w.
Proof.
  intros Ho. unfold UpdateConversionStatus, eval, exec, bind, gets, ExecUpdate. cbn.
  rewrite Ho. repeat split.
Qed.

Lemma processing_write_failure_logged workerID job jobJSON env w o :
  In (LogStatusUpdateFailed workerID)
     (logs (exec (processJob workerID job jobJSON env) (setDbFaults (true :: o) w))).
Proof.
  unfold processJob. rewrite exec_bind, exec_bind.
  match goal with
  | |- context [eval (UpdateConversionStatus ?i ?s ?p ?m) ?W] =>
    destruct (UpdateConversionStatus_refused i s p m W o eq_refl) as (-> & _ & _)
  end.
  rewrite exec_bind, exec_bind.
  match goal with
  | |- In _ (logs (exec _ ?W)) =>
    match W with
    | exec (S3Service.Download ?e ?a ?b ?c) ?W0 =>
      destruct (appends_afterDownload workerID job jobJSON env
                  (eval (S3Service.Download e a b c) W0) W) as [m E];
      cut (In (LogStatusUpdateFailed workerID) (logs W ++ m));
      [intros Hc; rewrite <- E in Hc; exact Hc|];
      replace (logs W) with (logs W0)
        by (unfold S3Service.Download, exec, bind, modify, ret;
            destruct (download e); reflexivity)
    end
  end.
  apply in_or_app. left. apply in_or_app. right. left. reflexivity.
Qed.

Lemma completed_write_failure_logged workerID job jobJSON d w first o :
  In (LogCompletedUpdateFailed workerID)
     (logs (exec (processJob workerID job jobJSON (mkEnv DownloadOk ConvertOk UploadOk d))
                 (setDbFaults (first :: true :: o) w))).
Proof.
  destruct w as [p pr fl sh tb o0 tm fs lg ck].
  unfold exec, processJob, UpdateConversionStatus, S3Service.Download,
    GotenbergService.ConvertToPDFA, S3Service.Upload, HSetStatus, LRem1, logPrintf,
    bind, gets, modify, ret, ExecUpdate.
  cbn.
  destruct first; cbn.
  all: destruct (decide _) as [_|Hout]; [|exfalso; apply Hout; set_solver]; cbn.
  all: destruct (decide _) as [_|Hout]; [|exfalso; apply Hout; set_solver]; cbn.
  all: repeat match goal with
              | |- context [S3Service.Cleanup ?q ?W] =>
                let r := fresh "r" in let W' := fresh "W" in let E := fresh "E" in
                destruct (S3Service.Cleanup q W) as [r W'] eqn:E;
                assert (logs W' = logs W)
                  by (revert E; unfold S3Service.Cleanup, S3Service.osRemove, ret;
                      destruct (String.eqb q ""); [intros [= _ <-]; reflexivity|];
                      destruct (decide _); intros [= _ <-]; reflexivity);
                clear E
              end.
  all: cbn in *.
  all: repeat match goal with Hx : logs _ = _ |- _ => rewrite Hx; clear Hx end.
  all: cbn; repeat rewrite in_app_iff; cbn; tauto.
Qed.

(** C8, as the code has it.  Run [processJob], or [handleJobFailure], twice
    from the same world with two different oracles for the status table,
    so that any of the writes fails in one run and succeeds in the other:
    the queue lists, the status hashes, the registered callbacks, the
    local files and the job come out the same, and so does the log but for
    lines that report a failed write.  Only two writes have such a line:
    a failed write of [processing] and a failed write of [completed] are
    logged; in [handleJobFailure] (the retry counter, [failed], the error
    text) the two logs are equal, a failure there leaves no line. *)
Theorem status_write_failures_never_steer
        (workerID : Z) (job : ConversionJob) (jobJSON errorMsg : string)
        (env : AttemptEnv) (w : World) (o1 o2 : list bool) (d : Z) (first : bool) :
  let a := setDbFaults o1 w in
  let b := setDbFaults o2 w in
  sameOutcome (exec (processJob workerID job jobJSON env) a)
              (exec (processJob workerID job jobJSON env) b) /\
  otherLines (logs (exec (processJob workerID job jobJSON env) a))
  = otherLines (logs (exec (processJob workerID job jobJSON env) b)) /\
  eval (handleJobFailure workerID job jobJSON errorMsg) a
  = eval (handleJobFailure workerID job jobJSON errorMsg) b /\
  sameOutcome (exec (handleJobFailure workerID job jobJSON errorMsg) a)
              (exec (handleJobFailure workerID job jobJSON errorMsg) b) /\
  logs (exec (handleJobFailure workerID job jobJSON errorMsg) a)
  = logs (exec (handleJobFailure workerID job jobJSON errorMsg) b) /\
  In (LogStatusUpdateFailed workerID)
     (logs (exec (processJob workerID job jobJSON env) (setDbFaults (true :: o1) w))) /\
  In (LogCompletedUpdateFailed workerID)
     (logs (exec (processJob workerID job jobJSON (mkEnv DownloadOk ConvertOk UploadOk d))
                 (setDbFaults (first :: true :: o1) w))).
Proof.
  intros a b.
  assert (Hab : alike a b).
  { subst a b. destruct w. unfold alike, sameOutcome. cbn. repeat split. }
  destruct (processJob_alike workerID job jobJSON env a b Hab) as [Hp Hl].
  destruct (handleJobFailure_alike workerID job jobJSON errorMsg a b Hab)
    as (He & [Hf _] & Hlogs).
  split; [exact Hp|]. split; [exact Hl|]. split; [exact He|]. split; [exact Hf|].
  split; [apply Hlogs; subst a b; destruct w; reflexivity|].
  split; [apply processing_write_failure_logged | apply completed_write_failure_logged].
Qed.

End Observational.

(** ** The decode step and [encoding/json] *)

Section DecodeStep.
Import GoInt GoTime Models EncodingJSON Effects Redis DatabaseService Outside Worker Props.

Lemma decodeField_fits f v j :
  is_Some (decodeField f v j) <-> is_Some (decodeField f v zeroJob).
Proof.
  destruct f, v; cbn;
    repeat match goal with
           | |- context [ParseInt ?l] => destruct (ParseInt l); cbn
           | |- context [parseRFC3339 ?l] => destruct (parseRFC3339 l); cbn
           end;
    split; intros [x Hx]; try discriminate Hx; eexists; reflexivity.
Qed.

Lemma decodeField_other f g v j j' :
  decodeField g v j = Some j' -> g <> f -> getField f j' = getField f j.
Proof.
  intros Hd Hne.
  destruct g, f; try contradiction; cbn in Hd |- *;
    repeat match type of Hd with
           | context [decodeInt ?a ?b] => destruct (decodeInt a b); cbn in Hd
           | context [decodeString ?a ?b] => destruct (decodeString a b); cbn in Hd
           | context [decodeTime ?a ?b] => destruct (decodeTime a b); cbn in Hd
           end;
    try discriminate Hd; injection Hd as <-; reflexivity.
Qed.

Lemma decodeMembers_missing ms j j' f :
  decodeMembers ms j = Some j' -> missing f ms -> getField f j' = getField f j.
Proof.
  revert j. induction ms as [|[k v] r IH]; intros j Hd Hm.
  - injection Hd as <-. reflexivity.
  - apply Forall_cons in Hm as [Hk Hr]. cbn in Hd, Hk.
    destruct (fieldOfKey k) as [g|].
    + destruct (decodeField g v j) as [j1|] eqn:Hg; [|discriminate Hd].
      rewrite (IH j1 Hd Hr). apply (decodeField_other f g v j j1 Hg). congruence.
    + apply (IH j Hd Hr).
Qed.

Lemma decodeMembers_rejects ms j :
  decodeMembers ms j = None <-> exists m, In m ms /\ memberFits m = false.
Proof.
  revert j. induction ms as [|[k v] r IH]; intros j.
  - split; [discriminate | intros (m & [] & _)].
  - cbn. unfold memberFits at 1. cbn.
    destruct (fieldOfKey k) as [g|] eqn:Hk.
    + destruct (decodeField g v j) as [j1|] eqn:Hg.
      * rewrite IH. split.
        -- intros (m & Hin & Hm). exists m. split; [right; exact Hin | exact Hm].
        -- intros (m & [<-|Hin] & Hm); [|exists m; split; assumption].
           exfalso. unfold memberFits in Hm. cbn in Hm. rewrite Hk in Hm.
           apply bool_decide_eq_false in Hm. apply Hm.
           apply (decodeField_fits g v j). rewrite Hg. eexists; reflexivity.
      * split; [intros _ | reflexivity].
        exists (k, v). split; [left; reflexivity|].
        unfold memberFits. cbn. rewrite Hk. apply bool_decide_eq_false.
        intros Hs. apply (decodeField_fits g v j) in Hs. rewrite Hg in Hs.
        destruct Hs as [x Hx]. discriminate Hx.
    + rewrite IH. split.
      * intros (m & Hin & Hm). exists m. split; [right; exact Hin | exact Hm].
      * intros (m & [<-|Hin] & Hm); [|exists m; split; assumption].
        unfold memberFits in Hm. cbn in Hm. rewrite Hk in Hm. discriminate Hm.
Qed.


End DecodeStep.

Section DecodeCases.
Import GoInt GoTime Models EncodingJSON Effects Redis DatabaseService Outside Worker.
Import Props Samples.



(** C8, the claim as it is written, refuted.  The statement that
    increments the retry counter fails; [handleJobFailure] goes on as the
    claim says, but no line of its log reports the failure: the log is the
    one of the run in which the statement succeeds.  The same holds when all
    three statements of the exhausted branch fail. *)
Lemma retry_counter_failure_is_silent :
  eval (DatabaseService.IncrementRetryCount 42) (setDbFaults [true] (worldOf entry42))
  = Some "exec failed" /\
  logs (exec (handleJobFailure 1 job42 entry42 "conversion failed")
             (setDbFaults [true] (worldOf entry42)))
  = [LogFailed 1 42 "conversion failed"] /\
  logs (exec (handleJobFailure 1 job42 entry42 "conversion failed") (worldOf entry42))
  = [LogFailed 1 42 "conversion failed"] /\
  retry_count <$> (table (exec (handleJobFailure 1 job42 entry42 "conversion failed")
                               (setDbFaults [true] (worldOf entry42))) !! 42)
  = Some 0 /\
  logs (exec (handleJobFailure 1 job42spent entry42spent "conversion failed")
             (setDbFaults [true; true; true] (worldOf entry42spent)))
  = [LogFailed 1 42 "conversion failed"; LogMovedToFailed 1 42 3] /\
  status <$> (table (exec (handleJobFailure 1 job42spent entry42spent "conversion failed")
                          (setDbFaults [true; true; true] (worldOf entry42spent))) !! 42)
  = Some "pending".
Proof. vm_compute. repeat split. Qed.

End DecodeCases.

(** ** The retry scenario, run *)

Section Scenario.
Import GoInt GoTime Models EncodingJSON Effects Redis DatabaseService Outside Worker.
Import Props Samples.

(** Conversion 42 with no retry made and three allowed fails at the
    conversion step four times.  It is back on pending, one retry more in
    its entry, after 2, 4 and 8 seconds (and not a nanosecond earlier); the
    fourth failure puts the entry with three retries on the failed list and
    the status at [failed] with the error text. *)
Example retry_scenario :
  let w1 := exec (workerTurn 42 false envConvertFails) (pendingWorldOf entry42) in
  let w2 := failThenWait (2 * Second) (pendingWorldOf entry42) in
  let w3 := failThenWait (4 * Second) w2 in
  let w4 := failThenWait (8 * Second) w3 in
  let w5 := failThenWait 0 w4 in
  pending (exec (elapse (2 * Second - 1)) w1) = [] /\
  pending w2 = [jsonMarshal (setRetryCount 1 job42)] /\
  pending w3 = [jsonMarshal (setRetryCount 2 job42)] /\
  pending w4 = [jsonMarshal (setRetryCount 3 job42)] /\
  pending w5 = [] /\ processing w5 = [] /\ timers w5 = [] /\
  failed w5 = [jsonMarshal (setRetryCount 3 job42)] /\
  (fun r => (status r, error_message r, retry_count r)) <$> (table w5 !! 42)
  = Some ("failed",
          Some "Office conversion failed: gotenberg returned status 500: conversion error",
          4).
Proof. vm_compute. repeat split. Qed.

End Scenario.

(** ** One attempt *)

Section Attempt.
Import GoInt GoTime Models Effects Redis DatabaseService Outside Worker Props Lifecycle.
Import S3Service GotenbergService.
Context `{Codec}.

Lemma queueOf_logPrintf l w : queueOf (exec (logPrintf l) w) = queueOf w.
Proof. reflexivity. Qed.

Lemma queueOf_ExecUpdate id f w : queueOf (exec (ExecUpdate id f) w) = queueOf w.
Proof.
  unfold exec. destruct (ExecUpdate_any id f w) as (? & ? & ? & ->). reflexivity.
Qed.

Lemma queueOf_UpdateConversionStatus id st out meta w :
  queueOf (exec (UpdateConversionStatus id st out meta) w) = queueOf w.
Proof. unfold UpdateConversionStatus. rewrite exec_bind. apply queueOf_ExecUpdate. Qed.

Lemma files_UpdateConversionStatus id st out meta w :
  files (exec (UpdateConversionStatus id st out meta) w) = files w.
Proof.
  unfold UpdateConversionStatus. rewrite exec_bind. unfold exec at 1.
  match goal with
  | |- context [ExecUpdate ?i ?f ?W] => destruct (ExecUpdate_any i f W) as (? & ? & ? & ->)
  end.
  reflexivity.
Qed.

(** What [Download] answers and leaves on the disk. *)
Lemma Download_run env s3Path g x w :
  Download env s3Path g x w
  = match download env with
    | DownloadOk => (localPathOf g x, None, setFiles ({[localPathOf g x]} ∪ files w) w)
    | CreateFails e => ("", Some ("failed to create local file: " ++ e)%string, w)
    | TransferFails e =>
      ("", Some ("failed to download from S3: " ++ e)%string,
       setFiles ({[localPathOf g x]} ∪ files w) w)
    end.
Proof. unfold Download. destruct (download env); reflexivity. Qed.

Lemma ConvertToPDFA_run env p x w :
  p ∈ files w ->
  ConvertToPDFA env p x w
  = match convert env with
    | ConvertOk =>
      ((p ++ ".converted.pdf")%string, None,
       setFiles ({[(p ++ ".converted.pdf")%string]} ∪ files w) w)
    | RequestFails e => ("", Some ("gotenberg request failed: " ++ e)%string, w)
    | BadStatus c body =>
      ("", Some ("gotenberg returned status " ++ pretty c ++ ": " ++ body)%string, w)
    | CreateOutputFails e => ("", Some ("failed to create output file: " ++ e)%string, w)
    | SaveFails e =>
      ("", Some ("failed to save converted file: " ++ e)%string,
       setFiles ({[(p ++ ".converted.pdf")%string]} ∪ files w) w)
    end.
Proof.
  intros Hin. unfold ConvertToPDFA, bind, gets, modify, ret.
  destruct (decide (p ∈ files w)) as [_|Hout]; [|contradiction].
  destruct (convert env); reflexivity.
Qed.

Lemma Upload_run env p s3Path w :
  p ∈ files w ->
  Upload env p s3Path w
  = (match upload env with
     | UploadOk => None
     | UploadFails e => Some ("failed to upload to S3: " ++ e)%string
     end, w).
Proof.
  intros Hin. unfold Upload, bind, gets, ret.
  destruct (decide (p ∈ files w)) as [_|Hout]; [|contradiction].
  destruct (upload env); reflexivity.
Qed.

Lemma Cleanup_run p w :
  p <> "" ->
  Cleanup p w
  = if decide (p ∈ files w)
    then (None, setFiles (files w ∖ {[p]}) w)
    else (Some ("remove " ++ p ++ ": no such file or directory")%string, w).
Proof.
  intros Hne. unfold Cleanup, osRemove.
  destruct (String.eqb_spec p ""); [contradiction | reflexivity].
Qed.

Lemma queueOf_Cleanup p w : queueOf (exec (Cleanup p) w) = queueOf w.
Proof.
  unfold exec, Cleanup, osRemove, ret. destruct (String.eqb p ""); [reflexivity|].
  destruct (decide (p ∈ files w)); reflexivity.
Qed.

(** What [handleJobFailure] does to the queue. *)
Lemma queueOf_handleJobFailure workerID job jobJSON errorMsg w :
  queueOf (exec (handleJobFailure workerID job jobJSON errorMsg) w)
  = if RetryCount job <? MaxRetries job
    then (pending w, removeFirst jobJSON (processing w), failed w,
          timers w ++ [retryTimer workerID (bump job) (clock w)], clock w)
    else (pending w, removeFirst jobJSON (processing w), jobJSON :: failed w,
          timers w, clock w).
Proof.
  unfold exec.
  destruct (Z.ltb_spec (RetryCount job) (MaxRetries job)) as [Hlt|Hge].
  - destruct (handleJobFailure_retry_run workerID job jobJSON errorMsg w Hlt)
      as (? & ? & ->). reflexivity.
  - destruct (handleJobFailure_spent_run workerID job jobJSON errorMsg w Hge)
      as (? & ? & ->). reflexivity.
Qed.

Lemma queueOf_handleJobFailure_ext workerID job jobJSON errorMsg w w0 :
  queueOf w = queueOf w0 ->
  queueOf (exec (handleJobFailure workerID job jobJSON errorMsg) w)
  = if RetryCount job <? MaxRetries job
    then (pending w0, removeFirst jobJSON (processing w0), failed w0,
          timers w0 ++ [retryTimer workerID (bump job) (clock w0)], clock w0)
    else (pending w0, removeFirst jobJSON (processing w0), jobJSON :: failed w0,
          timers w0, clock w0).
Proof.
  intros Hq. rewrite queueOf_handleJobFailure. unfold queueOf in Hq.
  injection Hq as -> -> -> -> ->. reflexivity.
Qed.

Lemma localPathOf_nonempty g x : localPathOf g x <> "".
Proof. discriminate. Qed.

Lemma converted_nonempty p : (p ++ ".converted.pdf")%string <> "".
Proof. destruct p; discriminate. Qed.

Lemma started_frame workerID job w :
  queueOf (started workerID job w) = queueOf w /\
  files (started workerID job w) = files w.
Proof.
  unfold started. cbv zeta.
  match goal with
  | |- context [eval ?c ?W] => destruct (eval c W)
  end.
  - split.
    + rewrite queueOf_logPrintf, queueOf_UpdateConversionStatus. reflexivity.
    + change (files (exec (logPrintf ?l) ?W)) with (files W).
      rewrite files_UpdateConversionStatus. reflexivity.
  - split.
    + change (exec (ret tt) ?W) with W.
      rewrite queueOf_UpdateConversionStatus. reflexivity.
    + change (exec (ret tt) ?W) with W.
      rewrite files_UpdateConversionStatus. reflexivity.
Qed.

Lemma processJob_started workerID job jobJSON env w :
  exec (processJob workerID job jobJSON env) w
  = exec (bind (Download env (InputS3Path job) (FileGUID job) (InputExtension job))
            (fun dl =>
             match dl with
             | (_, Some e) =>
               bind (handleJobFailure workerID job jobJSON ("S3 download failed: " ++ e))
                    (fun _ => ret tt)
             | (localInputPath, None) =>
               bind (ConvertToPDFA env localInputPath (InputExtension job))
                 (fun cv =>
                  match cv with
                  | (_, Some e) =>
                    bind (handleJobFailure workerID job jobJSON
                                           ("Office conversion failed: " ++ e))
                      (fun _ => bind (Cleanup localInputPath) (fun _ => ret tt))
                  | (localOutputPath, None) =>
                    bind (Upload env localOutputPath (OutputS3Path job))
                      (fun up =>
                       match up with
                       | Some e =>
                         bind (handleJobFailure workerID job jobJSON
                                                ("S3 upload failed: " ++ e))
                           (fun _ => bind (Cleanup localOutputPath)
                              (fun _ => bind (Cleanup localInputPath)
                                 (fun _ => ret tt)))
                       | None =>
                         bind (UpdateConversionStatus (ConversionID job) "completed"
                                 (OutputS3Path job)
                                 (Some (workerID, Z.quot (elapsed env) 1000000)))
                           (fun err2 =>
                            bind (match err2 with
                                  | Some _ => logPrintf (LogCompletedUpdateFailed workerID)
                                  | None => ret tt
                                  end)
                              (fun _ => bind (HSetStatus (ConversionID job) "completed" None)
                                 (fun _ => bind (LRem1 ProcessingQueue jobJSON)
                                    (fun _ => bind (logPrintf
                                                      (LogCompleted workerID
                                                         (ConversionID job) (elapsed env)))
                                       (fun _ => bind (Cleanup localOutputPath)
                                          (fun _ => bind (Cleanup localInputPath)
                                             (fun _ => ret tt)))))))
                       end)
                  end)
             end))
         (started workerID job w).
Proof.
  unfold processJob, started. rewrite exec_bind, exec_bind, exec_bind. reflexivity.
Qed.

Lemma string_app_nil_r (s : string) : (s ++ "")%string = s.
Proof.
  induction s as [|c s IH]; [reflexivity|].
  change (String c (s ++ "")%string = String c s). rewrite IH. reflexivity.
Qed.

Lemma converted_differs p : (p ++ ".converted.pdf")%string <> p.
Proof.
  intros Heq.
  assert (He : (p ++ ".converted.pdf")%string = (p ++ "")%string)
    by (rewrite string_app_nil_r; exact Heq).
  apply (inj (String.app p)) in He. discriminate He.
Qed.

Lemma files_handleJobFailure workerID job jobJSON errorMsg w :
  files (exec (handleJobFailure workerID job jobJSON errorMsg) w) = files w.
Proof.
  unfold exec.
  destruct (Z.lt_ge_cases (RetryCount job) (MaxRetries job)) as [Hlt|Hge].
  - destruct (handleJobFailure_retry_run workerID job jobJSON errorMsg w Hlt)
      as (? & ? & ->). reflexivity.
  - destruct (handleJobFailure_spent_run workerID job jobJSON errorMsg w Hge)
      as (? & ? & ->). reflexivity.
Qed.

Lemma exec_Cleanup_present p w :
  p <> "" -> p ∈ files w -> exec (Cleanup p) w = setFiles (files w ∖ {[p]}) w.
Proof.
  intros Hne Hin. unfold exec. rewrite (Cleanup_run p w Hne).
  destruct (decide (p ∈ files w)); [reflexivity | contradiction].
Qed.

Lemma files_Cleanup p w : p <> "" -> files (exec (Cleanup p) w) = files w ∖ {[p]}.
Proof.
  intros Hne. unfold exec. rewrite (Cleanup_run p w Hne).
  destruct (decide (p ∈ files w)) as [Hin|Hout]; cbn; [reflexivity|].
  apply set_eq. intros q. rewrite elem_of_difference, elem_of_singleton.
  split; [|intros [Hq _]; exact Hq].
  intros Hq. split; [exact Hq|]. intros ->. contradiction.
Qed.

Lemma queueOf_LRem1_processing v w q :
  queueOf w = q ->
  queueOf (exec (LRem1 ProcessingQueue v) w)
  = (q.1.1.1.1, removeFirst v q.1.1.1.2, q.1.1.2, q.1.2, q.2).
Proof. intros <-. reflexivity. Qed.

Lemma queueOf_HSetStatus id st err w : queueOf (exec (HSetStatus id st err) w) = queueOf w.
Proof. reflexivity. Qed.

Lemma queueOf_write_failure_line {A} (x : option A) l w :
  queueOf (exec (match x with Some _ => logPrintf l | None => ret tt end) w) = queueOf w.
Proof. destruct x; reflexivity. Qed.

Lemma exec_ret {A} (x : A) w : exec (ret x) w = w.
Proof. reflexivity. Qed.

Ltac fail_now Hq :=
  rewrite exec_bind;
  repeat first [ rewrite queueOf_Cleanup | rewrite exec_bind | rewrite exec_ret ];
  match goal with
  | |- context [exec (handleJobFailure ?a ?b ?c ?d) ?W] =>
    match type of Hq with
    | _ = queueOf ?w0 =>
      rewrite (queueOf_handleJobFailure_ext a b c d W w0 (Hq : queueOf W = queueOf w0))
    end
  end;
  reflexivity.

(** The queue after an attempt. *)
Lemma processJob_queue workerID job jobJSON env w :
  queueOf (exec (processJob workerID job jobJSON env) w)
  = if fails env
    then failedAttempt workerID job jobJSON w
    else (pending w, removeFirst jobJSON (processing w), failed w, timers w, clock w).
Proof.
  rewrite processJob_started.
  destruct (started_frame workerID job w) as [Hq Hf].
  set (W0 := started workerID job w) in *.
  unfold fails, failedAttempt.
  rewrite exec_bind. unfold eval at 1, exec at 2. rewrite Download_run.
  destruct (download env) as [|e|e]; cbn [fst snd].
  2, 3: fail_now Hq.
  set (lp := localPathOf (FileGUID job) (InputExtension job)).
  assert (Hlp : lp ∈ files (setFiles ({[lp]} ∪ files W0) W0)) by (cbn; set_solver).
  rewrite exec_bind. unfold eval at 1, exec at 2.
  rewrite (ConvertToPDFA_run env lp _ _ Hlp).
  destruct (convert env) as [|e|c body|e|e]; cbn [fst snd].
  2, 3, 4, 5: fail_now Hq.
  set (op := (lp ++ ".converted.pdf")%string).
  match goal with
  | |- context [Upload env op _] =>
    match goal with
    | |- context [setFiles ({[op]} ∪ ?F) ?W] =>
      assert (Hop : op ∈ files (setFiles ({[op]} ∪ F) W)) by (cbn; set_solver)
    end
  end.
  rewrite exec_bind. unfold eval at 1, exec at 2.
  rewrite (Upload_run env op _ _ Hop).
  destruct (upload env) as [|e]; cbn [fst snd].
  2: fail_now Hq.
  repeat first [rewrite exec_bind | rewrite exec_ret].
  rewrite !queueOf_Cleanup, queueOf_logPrintf.
  erewrite queueOf_LRem1_processing; [|rewrite queueOf_HSetStatus, queueOf_write_failure_line, queueOf_UpdateConversionStatus; reflexivity].
  unfold queueOf in Hq |- *. cbn [pending processing failed timers clock setFiles].
  injection Hq as -> -> -> -> ->. reflexivity.
Qed.

Lemma files_write_failure_line {A} (x : option A) l w :
  files (exec (match x with Some _ => logPrintf l | None => ret tt end) w) = files w.
Proof. destruct x; reflexivity. Qed.

Ltac files_now :=
  repeat first [ rewrite exec_bind | rewrite exec_ret ];
  rewrite ?files_Cleanup by (first [apply localPathOf_nonempty | apply converted_nonempty]);
  rewrite ?files_handleJobFailure.

(** The local files after an attempt. *)
Lemma processJob_files workerID job jobJSON env w :
  files (exec (processJob workerID job jobJSON env) w)
  = leftOnDisk env (localPathOf (FileGUID job) (InputExtension job)) (files w).
Proof.
  rewrite processJob_started.
  destruct (started_frame workerID job w) as [Hq Hf].
  set (W0 := started workerID job w) in *.
  unfold leftOnDisk.
  rewrite exec_bind. unfold eval at 1, exec at 2. rewrite Download_run.
  set (lp := localPathOf (FileGUID job) (InputExtension job)).
  destruct (download env) as [|e|e]; cbn [fst snd].
  2, 3: files_now; cbn [files setFiles]; rewrite Hf; reflexivity.
  assert (Hlp : lp ∈ files (setFiles ({[lp]} ∪ files W0) W0)) by (cbn; set_solver).
  rewrite exec_bind. unfold eval at 1, exec at 2.
  rewrite (ConvertToPDFA_run env lp _ _ Hlp).
  set (op := (lp ++ ".converted.pdf")%string).
  assert (Hne : op <> lp) by apply converted_differs.
  destruct (convert env) as [|e|c body|e|e]; cbn [fst snd].
  2, 3, 4, 5: files_now; cbn [files setFiles]; rewrite Hf; apply set_eq; intros q;
    set_solver.
  match goal with
  | |- context [setFiles ({[op]} ∪ ?F) ?W] =>
    assert (Hop : op ∈ files (setFiles ({[op]} ∪ F) W)) by (cbn; set_solver)
  end.
  rewrite exec_bind. unfold eval at 1, exec at 2.
  rewrite (Upload_run env op _ _ Hop).
  destruct (upload env) as [|e]; cbn [fst snd].
  - files_now.
    change (files (exec (logPrintf ?l) ?W)) with (files W).
    cbn [exec LRem1 HSetStatus modify snd files setList setProcessing setStatusHash].
    rewrite files_write_failure_line, files_UpdateConversionStatus.
    cbn [files setFiles]. rewrite Hf. apply set_eq; intros q; set_solver.
  - files_now. cbn [files setFiles]. rewrite Hf. apply set_eq; intros q; set_solver.
Qed.
End Attempt.

(** ** Worker turns *)

Section Turns.
Import GoInt GoTime Models Effects Redis DatabaseService Outside Worker Props Lifecycle.
Import S3Service GotenbergService.
Context `{Codec}.

Lemma Cleanup_frame p w : exists r fs, Cleanup p w = (r, setFiles fs w).
Proof.
  destruct w as [pd pr fl sh tb o tm fs lg ck]. unfold Cleanup, osRemove, ret.
  destruct (String.eqb p ""); [eexists _, fs; reflexivity|].
  cbn. destruct (decide (p ∈ fs)); [eexists _, _; reflexivity | eexists _, fs; reflexivity].
Qed.

(** X2. The status the store shows after an attempt in which every step
    succeeded. *)
Theorem processJob_completed_status
        (workerID : Z) (job : ConversionJob) (jobJSON : string) (env : AttemptEnv)
        (w : World) :
  fails env = false ->
  hStatus <$> (statusHash (exec (processJob workerID job jobJSON env) w) !! ConversionID job)
  = Some (Some "completed") /\
  (accepts 2 w = true ->
   forall r, table w !! ConversionID job = Some r ->
     table (exec (processJob workerID job jobJSON env) w) !! ConversionID job
     = Some (mkRow "completed" (clock w) (Some (clock w)) (Some (clock w))
                   (Some (OutputS3Path job))
                   (Some (workerID, Z.quot (elapsed env) 1000000))
                   (error_message r) (retry_count r))).
Proof.
  intros Hok. destruct env as [dl cv up el]. unfold fails in Hok. cbn in Hok.
  destruct dl; try discriminate Hok. destruct cv; try discriminate Hok.
  destruct up; try discriminate Hok. clear Hok.
  destruct w as [pd pr fl sh tb o tm fs lg ck].
  unfold exec, processJob, UpdateConversionStatus, S3Service.Download,
    GotenbergService.ConvertToPDFA, S3Service.Upload, HSetStatus, LRem1, logPrintf,
    bind, gets, modify, ret, ExecUpdate.
  cbn.
  split.
  - destruct o as [|[] [|[] o]]; cbn.
    all: destruct (decide _) as [_|Hout]; [|exfalso; apply Hout; set_solver]; cbn.
    all: destruct (decide _) as [_|Hout]; [|exfalso; apply Hout; set_solver]; cbn.
    all: repeat match goal with
                | |- context [S3Service.Cleanup ?q ?W] =>
                  destruct (Cleanup_frame q W) as (? & ? & ->)
                end.
    all: cbn; rewrite lookup_insert_eq; reflexivity.
  - unfold accepts. cbn. intros Hacc r Hr.
    destruct o as [|[] [|[] o]]; try discriminate Hacc; cbn.
    all: destruct (decide _) as [_|Hout]; [|exfalso; apply Hout; set_solver]; cbn.
    all: destruct (decide _) as [_|Hout]; [|exfalso; apply Hout; set_solver]; cbn.
    all: repeat match goal with
                | |- context [S3Service.Cleanup ?q ?W] =>
                  destruct (Cleanup_frame q W) as (? & ? & ->)
                end.
    all: cbn; rewrite !lookup_alter_eq, Hr; reflexivity.
Qed.

(** The queue after one worker turn: what the turn took from pending, what
    it put on failed and which callbacks it registered. *)
Lemma workerTurn_queue workerID redisFails env w :
  exists taken added scheduled,
    pending w = pending (exec (workerTurn workerID redisFails env) w) ++ taken /\
    failed (exec (workerTurn workerID redisFails env) w) = added ++ failed w /\
    timers (exec (workerTurn workerID redisFails env) w) = timers w ++ scheduled /\
    processing (exec (workerTurn workerID redisFails env) w) = processing w /\
    clock (exec (workerTurn workerID redisFails env) w) = clock w /\
    (length added + length scheduled <= length taken <= 1)%nat.
Proof.
  destruct redisFails.
  { exists [], [], []. cbn. rewrite !app_nil_r. repeat split; lia. }
  destruct (pending w) as [|x l] eqn:Hp using rev_ind.
  { exists [], [], []. unfold exec, workerTurn, bind.
    rewrite (BRPopLPush_empty w Hp). cbn. rewrite Hp, !app_nil_r. repeat split; lia. }
  clear IHl. rename x into e.
  destruct (Unmarshal e) as [job|] eqn:Hu.
  2: { rewrite (workerTurn_undecodable workerID env w l e Hp Hu).
       exists [e], [], []. cbn. rewrite !app_nil_r. repeat split; lia. }
  rewrite (workerTurn_decodable workerID env w l e job Hp Hu).
  pose proof (processJob_queue workerID job e env
                (setProcessing (e :: processing w) (setPending l w))) as Hq.
  unfold queueOf, failedAttempt in Hq.
  cbn [pending processing failed timers clock setProcessing setPending] in Hq.
  rewrite removeFirst_head in Hq.
  destruct (fails env); [destruct (RetryCount job <? MaxRetries job)|];
    injection Hq as -> -> -> -> ->.
  - exists [e], [], [retryTimer workerID (bump job) (clock w)]. cbn. repeat split; lia.
  - exists [e], [e], []. cbn. rewrite app_nil_r. repeat split; lia.
  - exists [e], [], []. cbn. rewrite app_nil_r. repeat split; lia.
Qed.

Lemma workerLoop_queue workerID turns w :
  exists taken added scheduled,
    pending w = pending (exec (workerLoop workerID turns) w) ++ taken /\
    failed (exec (workerLoop workerID turns) w) = added ++ failed w /\
    timers (exec (workerLoop workerID turns) w) = timers w ++ scheduled /\
    processing (exec (workerLoop workerID turns) w) = processing w /\
    clock (exec (workerLoop workerID turns) w) = clock w /\
    (length added + length scheduled <= length taken <= length turns)%nat.
Proof.
  revert w. induction turns as [|[rf env] r IH]; intros w.
  { exists [], [], []. cbn. rewrite !app_nil_r. repeat split; lia. }
  cbn [workerLoop]. rewrite exec_bind.
  destruct (workerTurn_queue workerID rf env w)
    as (t1 & a1 & s1 & Hp1 & Hf1 & Ht1 & Hpr1 & Hc1 & Hn1).
  destruct (IH (exec (workerTurn workerID rf env) w))
    as (t2 & a2 & s2 & Hp2 & Hf2 & Ht2 & Hpr2 & Hc2 & Hn2).
  exists (t2 ++ t1), (a2 ++ a1), (s1 ++ s2).
  split; [rewrite app_assoc, <- Hp2; exact Hp1|].
  split; [rewrite Hf2, Hf1, app_assoc; reflexivity|].
  split; [rewrite Ht2, Ht1, app_assoc; reflexivity|].
  split; [rewrite Hpr2; exact Hpr1|].
  split; [rewrite Hc2; exact Hc1|].
  rewrite !length_app. cbn [length]. lia.
Qed.

(** X3. A worker makes no work: in any number of turns it leaves the
    processing list as it found it, takes entries off the tail of pending
    only, and what it adds to the failed list and to the registered retries
    is at most what it took. *)
Theorem StartWorker_conserves (workerID : Z) (turns : list (bool * AttemptEnv)) (w : World) :
  let w' := exec (StartWorker workerID turns) w in
  processing w' = processing w /\
  (exists taken, pending w = pending w' ++ taken /\ (length taken <= length turns)%nat) /\
  (exists added, failed w' = added ++ failed w) /\
  (exists scheduled, timers w' = timers w ++ scheduled) /\
  (length (pending w') + length (failed w') + length (timers w')
   <= length (pending w) + length (failed w) + length (timers w))%nat.
Proof.
  intros w'. subst w'. unfold StartWorker. rewrite exec_bind.
  set (W1 := exec (logPrintf (LogStarting workerID)) w).
  destruct (workerLoop_queue workerID turns W1)
    as (t & a & s & Hp & Hf & Ht & Hpr & Hc & Hn).
  change (pending W1) with (pending w) in Hp.
  change (failed W1) with (failed w) in Hf.
  change (timers W1) with (timers w) in Ht.
  change (processing W1) with (processing w) in Hpr.
  split; [exact Hpr|].
  split; [exists t; split; [exact Hp | lia]|].
  split; [exists a; exact Hf|].
  split; [exists s; exact Ht|].
  pose proof (f_equal (@length _) Hp) as HL. rewrite length_app in HL.
  rewrite Hf, Ht, !length_app. lia.
Qed.

Lemma workerLoop_idle workerID turns w :
  pending w = [] ->
  exec (workerLoop workerID turns) w
  = setLogs (logs w ++ idleLines workerID turns ++ [LogShuttingDown workerID]) w.
Proof.
  intros Hp. revert w Hp. induction turns as [|[rf env] r IH]; intros w Hp.
  { reflexivity. }
  cbn [workerLoop]. rewrite exec_bind. destruct rf.
  - change (exec (workerTurn workerID true env) w)
      with (setLogs (logs w ++ [LogRedisError workerID]) w).
    rewrite IH by exact Hp. destruct w. cbn. rewrite <- app_assoc. reflexivity.
  - assert (Hw : exec (workerTurn workerID false env) w = w).
    { unfold exec, workerTurn, bind. rewrite (BRPopLPush_empty w Hp). reflexivity. }
    rewrite Hw. rewrite IH by exact Hp. reflexivity.
Qed.

(** X4. With nothing pending, a worker changes nothing but the log, whatever
    Redis or the services would have answered. *)
Theorem StartWorker_idle (workerID : Z) (turns : list (bool * AttemptEnv)) (w : World) :
  pending w = [] ->
  exec (StartWorker workerID turns) w
  = setLogs (logs w ++ LogStarting workerID :: idleLines workerID turns
                   ++ [LogShuttingDown workerID]) w.
Proof.
  intros Hp. unfold StartWorker. rewrite exec_bind.
  rewrite workerLoop_idle by exact Hp. destruct w. cbn. rewrite <- app_assoc. reflexivity.
Qed.

(** No counter value makes a retry wait more than thirty seconds. *)
Lemma backoffDelay_le k : backoffDelay k <= 30 * Second.
Proof.
  unfold backoffDelay.
  destruct (Z.gtb_spec (wrap64 (pow2Duration k * Second)) (30 * Second)); lia.
Qed.

Lemma fire_all_timers ts w :
  timers (fold_left (fun w' t => exec (fire t) w') ts w) = timers w.
Proof.
  revert w. induction ts as [|t ts IH]; intros w; simpl; [reflexivity|].
  rewrite IH. reflexivity.
Qed.

Lemma elapse_timers dt w :
  timers (exec (elapse dt) w)
  = List.filter (fun t => negb (due t <=? clock w + dt)) (timers w).
Proof. unfold elapse, exec. simpl. rewrite fire_all_timers. reflexivity. Qed.

(** One failing turn and thirty seconds, for a job with retries left and
    for one without. *)
Lemma round_retry workerID env job e w :
  fails env = true -> wellTyped job -> Unmarshal e = Some job ->
  RetryCount job < MaxRetries job -> pending w = [e] -> timers w = [] ->
  let w1 := exec (elapse (30 * Second)) (exec (workerTurn workerID false env) w) in
  pending w1 = [Marshal (setRetryCount (RetryCount job + 1) job)] /\ timers w1 = [] /\
  processing w1 = processing w /\ failed w1 = failed w.
Proof.
  intros Hfail [Hrc Hmr] Hu Hlt Hp Ht w1. subst w1.
  assert (Hb : bump job = setRetryCount (RetryCount job + 1) job).
  { unfold bump. rewrite wrap64_id; [reflexivity|].
    unfold in_int64, min_int64, max_int64 in *. lia. }
  rewrite (workerTurn_decodable workerID env w [] e job Hp Hu).
  pose proof (processJob_queue workerID job e env
                (setProcessing (e :: processing w) (setPending [] w))) as Hq.
  rewrite Hfail in Hq. unfold failedAttempt, queueOf in Hq.
  apply Z.ltb_lt in Hlt. rewrite Hlt in Hq.
  cbn [pending processing failed timers clock setProcessing setPending] in Hq.
  rewrite removeFirst_head, Ht, Hb in Hq. injection Hq as Hq1 Hq2 Hq3 Hq4 Hq5.
  destruct (elapse_frame (30 * Second)
              (exec (processJob workerID job e env)
                    (setProcessing (e :: processing w) (setPending [] w)))) as [-> ->].
  rewrite elapse_pending, elapse_timers, Hq1, Hq2, Hq3, Hq4, Hq5.
  pose proof (backoffDelay_le (RetryCount job + 1)) as Hle.
  assert (Hdue : (clock w + backoffDelay (RetryCount job + 1) <=? clock w + 30 * Second)
                 = true) by (apply Z.leb_le; lia).
  cbn. rewrite Hdue. cbn. repeat split.
Qed.

Lemma round_spent workerID env job e w :
  fails env = true -> Unmarshal e = Some job ->
  MaxRetries job <= RetryCount job -> pending w = [e] -> timers w = [] ->
  let w1 := exec (elapse (30 * Second)) (exec (workerTurn workerID false env) w) in
  pending w1 = [] /\ timers w1 = [] /\
  processing w1 = processing w /\ failed w1 = e :: failed w.
Proof.
  intros Hfail Hu Hge Hp Ht w1. subst w1.
  rewrite (workerTurn_decodable workerID env w [] e job Hp Hu).
  pose proof (processJob_queue workerID job e env
                (setProcessing (e :: processing w) (setPending [] w))) as Hq.
  rewrite Hfail in Hq. unfold failedAttempt, queueOf in Hq.
  apply Z.ltb_ge in Hge. rewrite Hge in Hq.
  cbn [pending processing failed timers clock setProcessing setPending] in Hq.
  rewrite removeFirst_head, Ht in Hq. injection Hq as Hq1 Hq2 Hq3 Hq4 Hq5.
  destruct (elapse_frame (30 * Second)
              (exec (processJob workerID job e env)
                    (setProcessing (e :: processing w) (setPending [] w)))) as [-> ->].
  rewrite elapse_pending, elapse_timers, Hq1, Hq2, Hq3, Hq4. repeat split.
Qed.

(** X5. A job that fails every attempt ends on the failed list: with
    [MaxRetries - RetryCount] retries left, that many failing rounds bring
    it back with one retry more each time, and the failure after them puts
    its last entry on the failed list, with nothing left pending or
    scheduled. *)
Theorem rounds_reach_failed
        (rs : list (Z * AttemptEnv)) (job : ConversionJob) (e : string) (w : World) :
  wellTyped job -> Unmarshal e = Some job -> RetryCount job <= MaxRetries job ->
  (forall k, RetryCount job < k <= MaxRetries job ->
             Unmarshal (Marshal (setRetryCount k job)) = Some (setRetryCount k job)) ->
  Forall (fun r => fails (snd r) = true) rs ->
  Z.of_nat (length rs) = MaxRetries job - RetryCount job + 1 ->
  pending w = [e] -> timers w = [] ->
  let w' := exec (rounds rs) w in
  pending w' = [] /\ timers w' = [] /\ processing w' = processing w /\
  failed w'
  = (if RetryCount job =? MaxRetries job then e
     else Marshal (setRetryCount (MaxRetries job) job)) :: failed w.
Proof.
  revert job e w. induction rs as [|[workerID env] rs IH]; intros job e w Hwt Hu Hle Hrt Hall Hlen Hp Ht.
  { cbn in Hlen. lia. }
  apply Forall_cons in Hall as [Hfail Hall]. cbn [snd] in Hfail.
  cbn [length] in Hlen. cbn [rounds]. cbv zeta. rewrite exec_bind, exec_bind.
  destruct (Z.eqb_spec (RetryCount job) (MaxRetries job)) as [Heq|Hne].
  - assert (rs = []) by (destruct rs; [reflexivity | cbn in Hlen; lia]). subst rs.
    cbn [rounds]. rewrite exec_ret.
    apply (round_spent workerID env job e w Hfail Hu ltac:(lia) Hp Ht).
  - assert (Hlt : RetryCount job < MaxRetries job) by lia.
    destruct (round_retry workerID env job e w Hfail Hwt Hu Hlt Hp Ht)
      as (Hp1 & Ht1 & Hpr1 & Hf1).
    set (job' := setRetryCount (RetryCount job + 1) job) in *.
    assert (Hwt' : wellTyped job').
    { destruct Hwt as [Hrc Hmr]. split; [|exact Hmr]. cbn.
      unfold in_int64, min_int64, max_int64 in *. lia. }
    assert (Hu' : Unmarshal (Marshal job') = Some job')
      by (apply Hrt; lia).
    destruct (IH job' (Marshal job') _ Hwt' Hu' ltac:(cbn; lia)
                 ltac:(intros k Hk; apply (Hrt k); cbn in Hk; lia)
                 Hall ltac:(cbn; lia) Hp1 Ht1) as (Hp2 & Ht2 & Hpr2 & Hf2).
    split; [exact Hp2|]. split; [exact Ht2|]. split; [rewrite Hpr2; exact Hpr1|].
    rewrite Hf2, Hf1. cbn [RetryCount MaxRetries job' setRetryCount].
    destruct (Z.eqb_spec (RetryCount job + 1) (MaxRetries job)) as [Heq|_];
      [subst job'; rewrite Heq|]; reflexivity.
Qed.
End Turns.

(** ** The whole sweep *)

Section SweepAll.
Import GoInt GoTime Models Effects Redis DatabaseService Outside Worker Props Lifecycle.
Context `{Codec}.

Lemma eval_bind {A B} (c : M A) (k : A -> M B) w :
  eval (bind c k) w = eval (k (eval c w)) (exec c w).
Proof. unfold exec, eval, bind. destruct (c w). reflexivity. Qed.

Lemma removeFirst_skip x kept rest :
  ~ In x kept -> removeFirst x (kept ++ x :: rest) = kept ++ rest.
Proof.
  induction kept as [|y kept IH]; intros Hnin.
  - apply removeFirst_head.
  - cbn. destruct (String.eqb_spec y x) as [->|Hne].
    + exfalso. apply Hnin. left. reflexivity.
    + rewrite IH; [reflexivity|]. intros Hin. apply Hnin. right. exact Hin.
Qed.

Lemma staleJob_Some now x job :
  staleJob now x = Some job ->
  Unmarshal x = Some job /\ Since now (CreatedAt job) > 5 * Minute.
Proof.
  unfold staleJob. destruct (Unmarshal x) as [j|]; [|discriminate].
  destruct (Z.gtb_spec (Since now (CreatedAt j)) (5 * Minute)); [|discriminate].
  intros [= ->]. split; [reflexivity | lia].
Qed.

Lemma staleJob_None x n w :
  staleJob (clock w) x = None -> recoverEntry x n w = (n, w).
Proof.
  unfold staleJob. destruct (Unmarshal x) as [j|] eqn:Hu.
  - destruct (Z.gtb_spec (Since (clock w) (CreatedAt j)) (5 * Minute)); [discriminate|].
    intros _. apply (recoverEntry_fresh x j n w Hu). lia.
  - intros _. apply recoverEntry_skip, Hu.
Qed.

(** The sweep's loop over the rest [jobs] of its snapshot, when the
    processing list is what it kept so far followed by that rest. *)
Lemma recoverLoop_moves jobs : forall kept n w,
  processing w = kept ++ jobs ->
  Forall (fun x => isStale (clock w) x = false) kept ->
  let w' := exec (recoverLoop jobs n) w in
  processing w' = kept ++ List.filter (fun x => negb (isStale (clock w) x)) jobs /\
  pending w' = rev (requeued (clock w) jobs) ++ pending w /\
  failed w' = rev (givenUp (clock w) jobs) ++ failed w /\
  timers w' = timers w /\ clock w' = clock w /\
  (eval (recoverLoop jobs n) w = n + Z.of_nat (length (requeued (clock w) jobs))).
Proof.
  induction jobs as [|x r IH]; intros kept n w Hpr Hkept w'; subst w'.
  { cbn. rewrite Z.add_0_r. repeat split. exact Hpr. }
  cbn [recoverLoop]. rewrite exec_bind, eval_bind.
  cbn [List.filter requeued givenUp flat_map].
  assert (Hist : isStale (clock w) x
                 = match staleJob (clock w) x with Some _ => true | None => false end)
    by reflexivity.
  rewrite Hist. clear Hist.
  destruct (staleJob (clock w) x) as [job|] eqn:Hst.
  - destruct (staleJob_Some _ _ _ Hst) as [Hu Hs].
    assert (Hnin : ~ In x kept).
    { intros Hin. rewrite List.Forall_forall in Hkept. specialize (Hkept x Hin).
      unfold isStale in Hkept. rewrite Hst in Hkept. discriminate Hkept. }
    destruct (Z.ltb_spec (RetryCount job) (MaxRetries job)) as [Hlt|Hge].
    + destruct (recoverEntry_retry_run x job n w Hu Hs Hlt) as (t & o & E).
      assert (Hn : eval (recoverEntry x n) w = n + 1) by (unfold eval; rewrite E; reflexivity).
      assert (Hw : exec (recoverEntry x n) w
                   = setTable t (setDbFaults o
                       (setPending (Marshal (bump job) :: pending w)
                          (setProcessing (removeFirst x (processing w)) w))))
        by (unfold exec; rewrite E; reflexivity).
      rewrite Hn, Hw.
      match goal with
      | |- context [exec (recoverLoop r ?n1) ?W] =>
        destruct (IH kept n1 W) as (H1 & H2 & H3 & H4 & H5 & H6)
      end.
      { cbn. rewrite Hpr. apply removeFirst_skip, Hnin. }
      { exact Hkept. }
      cbn [clock pending failed timers setTable setDbFaults setPending setProcessing]
        in H1, H2, H3, H4, H5, H6.
      rewrite H1, H2, H3, H4, H5, H6.
      cbn [rev length app negb]. rewrite <- !app_assoc. cbn [app].
      repeat split. cbn [length]. rewrite Nat2Z.inj_succ. unfold requeued. lia.
    + destruct (recoverEntry_spent_run x job n w Hu Hs Hge) as (t & o & E).
      assert (Hn : eval (recoverEntry x n) w = n) by (unfold eval; rewrite E; reflexivity).
      assert (Hw : exec (recoverEntry x n) w
                   = setTable t (setDbFaults o
                       (setFailed (x :: failed w)
                          (setProcessing (removeFirst x (processing w)) w))))
        by (unfold exec; rewrite E; reflexivity).
      rewrite Hn, Hw.
      match goal with
      | |- context [exec (recoverLoop r ?n1) ?W] =>
        destruct (IH kept n1 W) as (H1 & H2 & H3 & H4 & H5 & H6)
      end.
      { cbn. rewrite Hpr. apply removeFirst_skip, Hnin. }
      { exact Hkept. }
      cbn [clock pending failed timers setTable setDbFaults setFailed setProcessing]
        in H1, H2, H3, H4, H5, H6.
      rewrite H1, H2, H3, H4, H5, H6.
      cbn [rev length app negb]. rewrite <- !app_assoc. cbn [app].
      repeat split.
  - assert (Hn : eval (recoverEntry x n) w = n)
      by (unfold eval; rewrite (staleJob_None x n w Hst); reflexivity).
    assert (Hw : exec (recoverEntry x n) w = w)
      by (unfold exec; rewrite (staleJob_None x n w Hst); reflexivity).
    rewrite Hn, Hw.
    destruct (IH (kept ++ [x]) n w) as (H1 & H2 & H3 & H4 & H5 & H6).
    { rewrite Hpr, <- app_assoc. reflexivity. }
    { apply Forall_app. split; [exact Hkept|]. constructor; [|constructor].
      unfold isStale. rewrite Hst. reflexivity. }
    rewrite H1, H2, H3, H4, H5, H6. cbn [negb app]. rewrite <- app_assoc. cbn [app].
    repeat split.
Qed.

(** What one sweep does to the queue. *)
Lemma recoverStaleJobs_shape (w : World) :
  let w' := exec (recoverStaleJobs false) w in
  processing w' = List.filter (fun x => negb (isStale (clock w) x)) (processing w) /\
  pending w' = rev (requeued (clock w) (processing w)) ++ pending w /\
  failed w' = rev (givenUp (clock w) (processing w)) ++ failed w /\
  timers w' = timers w /\ clock w' = clock w.
Proof.
  intros w'. subst w'. unfold recoverStaleJobs. rewrite exec_bind.
  change (eval (LRange ProcessingQueue) w) with (processing w).
  change (exec (LRange ProcessingQueue) w) with w.
  rewrite exec_bind.
  destruct (recoverLoop_moves (processing w) [] 0 w eq_refl (List.Forall_nil _))
    as (H1 & H2 & H3 & H4 & H5 & _).
  cbn [app] in H1.
  destruct (eval (recoverLoop (processing w) 0) w >? 0);
    [change (exec (logPrintf ?l) ?W) with (setLogs (logs W ++ [l]) W); cbn [processing pending failed timers clock setLogs]
    | rewrite exec_ret];
    repeat split; assumption.
Qed.

(** X6. The sweep moves every stale job out of processing and nothing else:
    what stays is the entries that do not decode or are no older than five
    minutes, in their order; each stale job with retries left is on pending
    with one retry more, each other stale job is on failed as it was; no
    callback is registered. *)
Theorem recoverStaleJobs_moves_stale (w : World) :
  let w' := exec (recoverStaleJobs false) w in
  processing w' = List.filter (fun x => negb (isStale (clock w) x)) (processing w) /\
  pending w' = rev (requeued (clock w) (processing w)) ++ pending w /\
  failed w' = rev (givenUp (clock w) (processing w)) ++ failed w /\
  timers w' = timers w /\ clock w' = clock w.
Proof. exact (recoverStaleJobs_shape w). Qed.

(** Where no entry is stale the sweep changes nothing at all. *)
Lemma recoverLoop_nothing_stale jobs n w :
  Forall (fun x => isStale (clock w) x = false) jobs ->
  recoverLoop jobs n w = (n, w).
Proof.
  revert n. induction jobs as [|x r IH]; intros n Hall; [reflexivity|].
  apply Forall_cons in Hall as [Hx Hr]. cbn [recoverLoop]. unfold bind.
  rewrite staleJob_None; [apply IH, Hr|].
  unfold isStale in Hx. destruct (staleJob (clock w) x); [discriminate | reflexivity].
Qed.

(** X7. A second sweep at the same time finds nothing to do: it leaves the
    world exactly as the first one left it. *)
Theorem recoverStaleJobs_twice (w : World) :
  exec (recoverStaleJobs false) (exec (recoverStaleJobs false) w)
  = exec (recoverStaleJobs false) w.
Proof.
  destruct (recoverStaleJobs_shape w) as (Hpr & _ & _ & _ & Hck).
  set (w1 := exec (recoverStaleJobs false) w) in *.
  unfold recoverStaleJobs at 1. unfold exec at 1, bind, LRange, gets.
  rewrite recoverLoop_nothing_stale; [reflexivity|].
  cbn [getList]. rewrite Hpr, Hck. apply List.Forall_forall. intros x Hin.
  apply List.filter_In in Hin as [_ Hx]. apply negb_true_iff, Hx.
Qed.
End SweepAll.

(** ** One attempt, as a whole *)

Section AttemptOutcome.
Import GoInt GoTime Models Effects Redis DatabaseService Outside S3Service.
Import GotenbergService Worker Props Lifecycle.
Context `{Codec}.

Lemma logs_handleJobFailure workerID job jobJSON errorMsg w :
  logs (exec (handleJobFailure workerID job jobJSON errorMsg) w)
  = logs w ++ LogFailed workerID (ConversionID job) errorMsg
      :: (if RetryCount job <? MaxRetries job then []
          else [LogMovedToFailed workerID (ConversionID job) (MaxRetries job)]).
Proof.
  unfold exec.
  destruct (Z.ltb_spec (RetryCount job) (MaxRetries job)) as [Hlt|Hge].
  - destruct (handleJobFailure_retry_run workerID job jobJSON errorMsg w Hlt)
      as (? & ? & ->). reflexivity.
  - destruct (handleJobFailure_spent_run workerID job jobJSON errorMsg w Hge)
      as (? & ? & ->). reflexivity.
Qed.

Lemma logs_Cleanup p w : logs (exec (Cleanup p) w) = logs w.
Proof. unfold exec. destruct (Cleanup_frame p w) as (r & fs & ->). reflexivity. Qed.

Ltac logs_now :=
  repeat first [ rewrite exec_bind | rewrite exec_ret ];
  rewrite ?logs_Cleanup; rewrite logs_handleJobFailure; reflexivity.

(** What a failed attempt logs after its start: one line with the error
    text, which says which step failed and is fixed by the answers of the
    object store and the daemon alone (a local file that cannot be opened
    is never the reason), and for a job without retries left the line
    that it moved to the failed list. *)
Lemma processJob_failure_logs workerID job jobJSON env w :
  fails env = true ->
  exists msg, failureText env = Some msg /\
  logs (exec (processJob workerID job jobJSON env) w)
  = logs (started workerID job w)
    ++ LogFailed workerID (ConversionID job) msg
       :: (if RetryCount job <? MaxRetries job then []
           else [LogMovedToFailed workerID (ConversionID job) (MaxRetries job)]).
Proof.
  intros Hfail. rewrite processJob_started.
  set (W0 := started workerID job w) in *.
  unfold fails in Hfail. unfold failureText.
  rewrite exec_bind. unfold eval at 1, exec at 2. rewrite Download_run.
  set (lp := localPathOf (FileGUID job) (InputExtension job)).
  destruct (download env) as [|e|e]; cbn [fst snd].
  2, 3: eexists; split; [reflexivity|]; logs_now.
  assert (Hlp : lp ∈ files (setFiles ({[lp]} ∪ files W0) W0)) by (cbn; set_solver).
  rewrite exec_bind. unfold eval at 1, exec at 2.
  rewrite (ConvertToPDFA_run env lp _ _ Hlp).
  set (op := (lp ++ ".converted.pdf")%string).
  destruct (convert env) as [|e|c body|e|e]; cbn [fst snd].
  2, 3, 4, 5: eexists; split; [reflexivity|]; logs_now.
  match goal with
  | |- context [setFiles ({[op]} ∪ ?F) ?W] =>
    assert (Hop : op ∈ files (setFiles ({[op]} ∪ F) W)) by (cbn; set_solver)
  end.
  rewrite exec_bind. unfold eval at 1, exec at 2.
  rewrite (Upload_run env op _ _ Hop).
  destruct (upload env) as [|e]; cbn [fst snd]; [discriminate Hfail|].
  eexists; split; [reflexivity|]; logs_now.
Qed.

End AttemptOutcome.

(** ** The object store and the conversion daemon *)

Section Services.
Import GoInt GoTime Models Effects Redis DatabaseService Outside S3Service.
Import GotenbergService Worker Props Lifecycle.



(** X16. A download that succeeds leaves the file where [Cleanup] finds it:
    the path it returns exists, [Cleanup] of that path returns no error, and
    afterwards the file is gone, also where it had been there before the
    download. *)
Theorem Download_then_Cleanup
        (env : AttemptEnv) (s3Path fileGUID extension : string) (w : World) :
  download env = DownloadOk ->
  let r := eval (Download env s3Path fileGUID extension) w in
  let w1 := exec (Download env s3Path fileGUID extension) w in
  r = (localPathOf fileGUID extension, None) /\
  fst r ∈ files w1 /\
  eval (Cleanup (fst r)) w1 = None /\
  files (exec (Cleanup (fst r)) w1) = files w ∖ {[fst r]}.
Proof.
  intros Hd. unfold Download, exec, eval, bind, modify, ret. rewrite Hd. cbn.
  set (lp := localPathOf fileGUID extension).
  split; [reflexivity|]. split; [set_solver|].
  unfold Cleanup, osRemove.
  destruct (String.eqb_spec lp "") as [He|_];
    [exfalso; exact (localPathOf_nonempty fileGUID extension He)|].
  cbn. destruct (decide (lp ∈ {[lp]} ∪ files w)) as [_|Hout]; [|exfalso; set_solver].
  cbn. split; [reflexivity|]. set_solver.
Qed.
End Services.

(** ** Claims in any number *)

Section Queue.
Import GoInt GoTime Models Effects Redis DatabaseService Outside Worker Props Lifecycle.

Lemma claims_from old : forall schedule w,
  rev (pending w) = old ->
  map fst (eval (claims schedule) w) = schedule /\
  map snd (eval (claims schedule) w)
  = map Some (firstn (length schedule) old)
    ++ repeat None (length schedule - length old) /\
  pending (exec (claims schedule) w) = rev (skipn (length schedule) old) /\
  processing (exec (claims schedule) w)
  = rev (firstn (length schedule) old) ++ processing w.
Proof.
  induction old as [|v old IH]; intros schedule w Hp.
  - assert (Hp' : pending w = []).
    { apply (f_equal (@rev _)) in Hp. rewrite rev_involutive in Hp. exact Hp. }
    unfold eval, exec. rewrite (claims_empty schedule w Hp'). cbn [fst snd].
    rewrite firstn_nil, skipn_nil, Hp', Nat.sub_0_r. cbn.
    rewrite !map_map. cbn. rewrite map_id.
    split; [reflexivity|]. split; [|split; reflexivity].
    induction schedule as [|a r IHr]; [reflexivity | cbn; rewrite IHr; reflexivity].
  - assert (Hp' : pending w = rev old ++ [v]).
    { apply (f_equal (@rev _)) in Hp. rewrite rev_involutive in Hp. exact Hp. }
    destruct schedule as [|a r].
    { cbn [length firstn skipn claims map repeat Nat.sub app rev].
      rewrite exec_ret. repeat split. exact Hp'. }
    cbn [claims]. rewrite !eval_bind, !exec_bind.
    assert (Hc : BRPopLPush PendingQueue ProcessingQueue w
                 = (Some v, setProcessing (v :: processing w) (setPending (rev old) w)))
      by (apply BRPopLPush_tail, Hp').
    assert (He : eval (BRPopLPush PendingQueue ProcessingQueue) w = Some v)
      by (unfold eval; rewrite Hc; reflexivity).
    assert (Hw : exec (BRPopLPush PendingQueue ProcessingQueue) w
                 = setProcessing (v :: processing w) (setPending (rev old) w))
      by (unfold exec; rewrite Hc; reflexivity).
    rewrite He, Hw.
    destruct (IH r (setProcessing (v :: processing w) (setPending (rev old) w)))
      as (H1 & H2 & H3 & H4); [cbn; apply rev_involutive|].
    change (eval (ret ?x) ?W) with x. rewrite !exec_ret.
    cbn [map fst snd length firstn skipn rev Nat.sub]. rewrite H1, H2, H3, H4.
    cbn [processing setProcessing setPending]. rewrite <- app_assoc. repeat split.
Qed.

(** X8. Any number of claims on any pending list: they return its entries
    from the tail on, oldest first and each once, then "no job"; what was
    claimed is on the head of processing, the latest on top, and the rest is
    still pending. *)
Theorem claims_oldest_first (schedule : list Z) (w : World) :
  let n := length schedule in
  let old := rev (pending w) in
  map fst (eval (claims schedule) w) = schedule /\
  map snd (eval (claims schedule) w)
  = map Some (firstn n old) ++ repeat None (n - length old) /\
  pending (exec (claims schedule) w) = rev (skipn n old) /\
  processing (exec (claims schedule) w) = rev (firstn n old) ++ processing w.
Proof. apply claims_from. reflexivity. Qed.
End Queue.

(** ** The sweep and the workers together *)

Section Races.
Import GoInt GoTime Models Effects Redis DatabaseService Outside Worker Props Lifecycle.
Context `{Codec}.

Lemma fire_all_clock ts w :
  clock (fold_left (fun w' t => exec (fire t) w') ts w) = clock w.
Proof.
  revert w. induction ts as [|t ts IH]; intros w; simpl; [reflexivity|].
  rewrite IH. reflexivity.
Qed.

Lemma elapse_clock dt w : clock (exec (elapse dt) w) = clock w + dt.
Proof. unfold elapse, exec. simpl. rewrite fire_all_clock. reflexivity. Qed.

Lemma stale_after_tick job now :
  unixNano (CreatedAt job) < now -> Since (now + 5 * Minute) (CreatedAt job) > 5 * Minute.
Proof.
  intros Hlt. unfold Since, saturate64, min_int64, max_int64, Minute, Second.
  repeat match goal with |- context [?a <? ?b] => destruct (Z.ltb_spec a b) end; lia.
Qed.

(** X9. The first tick of the recovery loop takes every decodable entry that
    was created before the loop started out of processing, whatever
    callbacks come due meanwhile: it is then on pending with one retry
    more, or on failed as it was. *)
Theorem RecoveryLoop_first_tick (e : string) (job : ConversionJob) (w : World) :
  In e (processing w) -> Unmarshal e = Some job ->
  unixNano (CreatedAt job) < clock w ->
  let w' := exec (RecoveryLoop [false]) w in
  ~ In e (processing w') /\
  (if RetryCount job <? MaxRetries job
   then In (Marshal (bump job)) (pending w')
   else In e (failed w')).
Proof.
  intros Hin Hu Hold w'. subst w'.
  cbn [RecoveryLoop]. rewrite !exec_bind, exec_ret.
  set (w1 := exec (elapse (5 * Minute)) w).
  destruct (elapse_frame (5 * Minute) w) as [Hpr _]. fold w1 in Hpr.
  pose proof (elapse_clock (5 * Minute) w) as Hck. fold w1 in Hck.
  destruct (recoverStaleJobs_shape w1) as (H1 & H2 & H3 & _).
  assert (Hst : staleJob (clock w1) e = Some job).
  { unfold staleJob. rewrite Hu, Hck.
    pose proof (stale_after_tick job (clock w) Hold) as Hgt.
    destruct (Z.gtb_spec (Since (clock w + 5 * Minute) (CreatedAt job)) (5 * Minute));
      [reflexivity | lia]. }
  split.
  - rewrite H1. intros Hf. apply List.filter_In in Hf as [_ Hf].
    unfold isStale in Hf. rewrite Hst in Hf. discriminate Hf.
  - destruct (RetryCount job <? MaxRetries job) eqn:Hlt.
    + rewrite H2. apply in_or_app. left. apply -> in_rev.
      unfold requeued. apply in_flat_map. exists e. split; [rewrite Hpr; exact Hin|].
      rewrite Hst, Hlt. left. reflexivity.
    + rewrite H3. apply in_or_app. left. apply -> in_rev.
      unfold givenUp. apply List.filter_In. split; [rewrite Hpr; exact Hin|].
      rewrite Hst, Hlt. reflexivity.
Qed.

(** X10. A sweep that runs while a worker still holds a stale job, and the
    failure of that worker's attempt afterwards: the sweep has requeued the
    job, the worker's removal finds nothing and is not checked, and its
    retry is scheduled all the same.  Thirty seconds later the job is on
    pending twice, both with the same retry count. *)
Theorem sweep_then_failure_requeues_twice
        (workerID : Z) (e errorMsg : string) (job : ConversionJob) (w : World) :
  Unmarshal e = Some job -> Since (clock w) (CreatedAt job) > 5 * Minute ->
  RetryCount job < MaxRetries job ->
  processing w = [e] -> timers w = [] ->
  let w' := exec (elapse (30 * Second))
              (exec (handleJobFailure workerID job e errorMsg)
                 (exec (recoverStaleJobs false) w)) in
  pending w' = Marshal (bump job) :: Marshal (bump job) :: pending w /\
  processing w' = [] /\ failed w' = failed w /\ timers w' = [].
Proof.
  intros Hu Hold Hlt Hpr Ht w'. subst w'.
  assert (Hst : staleJob (clock w) e = Some job).
  { unfold staleJob. rewrite Hu.
    destruct (Z.gtb_spec (Since (clock w) (CreatedAt job)) (5 * Minute));
      [reflexivity | lia]. }
  apply Z.ltb_lt in Hlt.
  destruct (recoverStaleJobs_shape w) as (H1 & H2 & H3 & H4 & H5).
  set (w1 := exec (recoverStaleJobs false) w) in *.
  rewrite Hpr in H1, H2, H3. unfold requeued, givenUp, isStale in H1, H2, H3.
  cbn [flat_map List.filter] in H1, H2, H3. rewrite Hst, Hlt in *.
  cbn [negb app rev] in H1, H2, H3.
  pose proof (queueOf_handleJobFailure workerID job e errorMsg w1) as Hq.
  rewrite Hlt, H1, H2, H3, H4, H5, Ht in Hq. cbn [removeFirst app] in Hq.
  unfold queueOf in Hq. injection Hq as Hq1 Hq2 Hq3 Hq4 Hq5.
  destruct (elapse_frame (30 * Second)
              (exec (handleJobFailure workerID job e errorMsg) w1)) as [-> ->].
  rewrite elapse_pending, elapse_timers, Hq1, Hq2, Hq3, Hq4, Hq5.
  pose proof (backoffDelay_le (RetryCount (bump job))) as Hle.
  assert (Hdue : (clock w + backoffDelay (RetryCount (bump job)) <=? clock w + 30 * Second)
                 = true) by (apply Z.leb_le; lia).
  cbn [retryTimer List.filter due map payload rev app negb]. rewrite Hdue.
  cbn [retryTimer List.filter due map payload rev app negb]. repeat split.
Qed.

End Races.

(** ** The backoff *)

Section Backoff.
Import GoInt GoTime Models Effects Redis DatabaseService Outside Worker Props Lifecycle.

Lemma backoffDelay_table k :
  0 <= k <= 33 -> backoffDelay k = Z.min (2 ^ k) 30 * Second.
Proof.
  intros Hk.
  assert (Hall : forallb (fun n => backoffDelay n =? Z.min (2 ^ n) 30 * Second)
                         (map Z.of_nat (seq 0 34)) = true)
    by (vm_compute; reflexivity).
  rewrite forallb_forall in Hall. apply Z.eqb_eq, Hall.
  apply in_map_iff. exists (Z.to_nat k). split; [lia|]. apply in_seq. lia.
Qed.

(** X11. The backoff for every value of the counter: never more than thirty
    seconds; for a counter from 0 to 33 it is [2^k] seconds capped at
    thirty, so at least a second and never shorter than for a smaller
    counter; for a negative counter, which a queue entry can carry, it is
    zero. *)
Theorem backoffDelay_range (j k : Z) :
  backoffDelay k <= 30 * Second /\
  (k < 0 -> backoffDelay k = 0) /\
  (0 <= j <= k -> k <= 33 ->
   Second <= backoffDelay j <= backoffDelay k /\
   backoffDelay k = Z.min (2 ^ k) 30 * Second).
Proof.
  split; [apply backoffDelay_le|]. split.
  - intros Hk. unfold backoffDelay, pow2Duration.
    apply Z.ltb_lt in Hk. rewrite Hk. reflexivity.
  - intros Hj Hk. rewrite (backoffDelay_table j), (backoffDelay_table k) by lia.
    split; [|reflexivity].
    assert (1 <= 2 ^ j) by (apply (Z.pow_le_mono_r 2 0 j); lia).
    assert (2 ^ j <= 2 ^ k) by (apply Z.pow_le_mono_r; lia).
    unfold Second. lia.
Qed.

End Backoff.

(** ** The status table *)

Section Database.
Import GoInt GoTime Models Effects Redis DatabaseService Outside Worker Props Lifecycle.

Lemma ExecUpdate_frame id f w :
  (forall id', id' <> id ->
     table (exec (ExecUpdate id f) w) !! id' = table w !! id') /\
  dom (table (exec (ExecUpdate id f) w)) = dom (table w) /\
  (is_Some (eval (ExecUpdate id f) w) ->
     table (exec (ExecUpdate id f) w) = table w) /\
  sameOutcome (exec (ExecUpdate id f) w) w /\
  logs (exec (ExecUpdate id f) w) = logs w.
Proof.
  destruct w as [pd pr fl sh tb o tm fs lg ck]. unfold ExecUpdate, exec, eval.
  destruct o as [|[] o]; cbn.
  - split; [intros id' Hne; apply lookup_alter_ne; congruence|].
    split; [apply dom_alter_L|]. split; [intros [x Hx]; discriminate|].
    repeat split.
  - split; [reflexivity|]. split; [reflexivity|]. split; [reflexivity|]. repeat split.
  - split; [intros id' Hne; apply lookup_alter_ne; congruence|].
    split; [apply dom_alter_L|]. split; [intros [x Hx]; discriminate|].
    repeat split.
Qed.

Lemma stamped_update_frame id (g : Z -> Row -> Row) w :
  touchesOnly id (bind (gets clock) (fun now => ExecUpdate id (g now))) w.
Proof. exact (ExecUpdate_frame id (g (clock w)) w). Qed.


(** X13. Every failed attempt is counted in the row, the last one too: where
    the table has the row and takes the first statement, [handleJobFailure]
    leaves [retry_count] one higher in either branch, while the job's own
    counter only goes up when a retry is scheduled. *)
Theorem handleJobFailure_counts_every_failure
        `{Codec} (workerID : Z) (job : ConversionJob) (jobJSON errorMsg : string)
        (w : World) (r : Row) :
  table w !! ConversionID job = Some r -> accepts 1 w = true ->
  retry_count <$> (table (exec (handleJobFailure workerID job jobJSON errorMsg) w)
                     !! ConversionID job)
  = Some (retry_count r + 1) /\
  RetryCount (eval (handleJobFailure workerID job jobJSON errorMsg) w)
  = if RetryCount job <? MaxRetries job then wrap64 (RetryCount job + 1)
    else RetryCount job.
Proof.
  intros Hr Hacc.
  destruct w as [pd pr fl sh tb o tm fs lg ck]. unfold accepts in Hacc.
  cbn [dbFaults table] in *.
  unfold exec, eval, handleJobFailure, IncrementRetryCount, UpdateConversionStatus,
    UpdateConversionError, HSetStatus, LRem1, LPush, AfterFunc, logPrintf,
    bind, gets, modify, ret, ExecUpdate.
  cbn.
  destruct (RetryCount job <? MaxRetries job).
  - destruct o as [|[] o]; try discriminate Hacc; cbn;
      rewrite lookup_alter_eq, Hr; split; reflexivity.
  - destruct o as [|[] [|[] [|[] o]]]; try discriminate Hacc; cbn;
      rewrite ?lookup_alter_eq, Hr; split; reflexivity.
Qed.
End Database.

(** ** The configuration *)

Section Configuration.
Import GoInt EncodingJSON Config.

Lemma Getenv_empty k env key :
  Getenv (<[k := ""]> env) key = Getenv (delete k env) key.
Proof.
  unfold Getenv. destruct (decide (k = key)) as [->|Hne].
  - rewrite lookup_insert_eq, lookup_delete_eq. reflexivity.
  - rewrite lookup_insert_ne, lookup_delete_ne by exact Hne. reflexivity.
Qed.

(** X17. A variable set to the empty string is a variable that is not set:
    [Load] gives the same configuration for both environments. *)
Theorem Load_empty_is_unset (k : string) (env : gmap string string) :
  Load (<[k := ""]> env) = Load (delete k env).
Proof.
  unfold Load, databaseURL, getEnv, getEnvInt, getEnvBool, getEnvWithFallback.
  rewrite !Getenv_empty. reflexivity.
Qed.

Lemma pretty_N_char_digit d :
  (d < 10)%N ->
  isDigit (pretty_N_char d) = true /\ code (pretty_N_char d) - 48 = Z.of_N d.
Proof.
  intros Hd.
  assert (Hc : (d = 0 \/ d = 1 \/ d = 2 \/ d = 3 \/ d = 4 \/ d = 5 \/ d = 6 \/ d = 7
                \/ d = 8 \/ d = 9)%N) by lia.
  repeat (destruct Hc as [Hc|Hc]; [subst d; split; reflexivity|]).
  subst d; split; reflexivity.
Qed.

Lemma digitsVal_pretty_N_go x :
  exists m, forall s acc,
    digitsVal (pretty_N_go x s) acc = digitsVal s (acc * m + Z.of_N x).
Proof.
  induction (N.lt_wf_0 x) as [x _ IH].
  destruct (N.eq_dec x 0%N) as [->|Hx].
  - exists 1. intros s acc. rewrite pretty_N_go_0. f_equal. cbn. lia.
  - assert (Hpos : (0 < x)%N) by lia.
    destruct (IH (x / 10)%N) as [m Hm]; [apply N.div_lt; lia|].
    exists (m * 10). intros s acc. rewrite pretty_N_go_step by exact Hpos.
    rewrite Hm.
    destruct (pretty_N_char_digit (x mod 10)%N) as [Hd Hv];
      [apply N.mod_lt; lia|].
    cbn [digitsVal]. rewrite Hd, Hv. f_equal.
    rewrite N2Z.inj_div, N2Z.inj_mod.
    pose proof (Z.div_mod (Z.of_N x) 10 ltac:(lia)) as Hdm.
    change (Z.of_N 10) with 10. lia.
Qed.

Lemma pretty_N_go_head x s :
  (0 < x)%N -> exists c r, pretty_N_go x s = String c r /\ isDigit c = true.
Proof.
  revert s. induction (N.lt_wf_0 x) as [x _ IH]. intros s Hpos.
  rewrite pretty_N_go_step by exact Hpos.
  destruct (N.eq_dec (x / 10)%N 0%N) as [Hz|Hnz].
  - rewrite Hz, pretty_N_go_0. eexists _, _. split; [reflexivity|].
    destruct (pretty_N_char_digit (x mod 10)%N) as [Hd _]; [apply N.mod_lt; lia | exact Hd].
  - apply IH; [apply N.div_lt; lia | apply N.neq_0_lt_0; exact Hnz].
Qed.

Lemma isDigit_not_sign c :
  isDigit c = true -> Ascii.eqb c "-" = false /\ Ascii.eqb c "+" = false.
Proof.
  intros Hd. split.
  - destruct (Ascii.eqb_spec c "-") as [->|_]; [discriminate Hd | reflexivity].
  - destruct (Ascii.eqb_spec c "+") as [->|_]; [discriminate Hd | reflexivity].
Qed.

Lemma in_int64b_true z : in_int64 z -> in_int64b z = true.
Proof.
  unfold in_int64, in_int64b. intros [? ?].
  apply andb_true_iff. split; apply Z.leb_le; assumption.
Qed.

Lemma pretty_pos p : pretty (Zpos p) = pretty_N_go (Npos p) "".
Proof. reflexivity. Qed.

Lemma pretty_neg p : pretty (Zneg p) = String "-" (pretty_N_go (Npos p) "").
Proof. reflexivity. Qed.

(** [strconv.Atoi] reads back every [int] written in decimal. *)
Lemma Atoi_pretty (z : Z) : in_int64 z -> Atoi (pretty z) = Some z.
Proof.
  intros Hz. apply in_int64b_true in Hz. destruct z as [|p|p].
  - reflexivity.
  - rewrite pretty_pos.
    destruct (pretty_N_go_head (Npos p) "" ltac:(lia)) as (c & r & Hs & Hd).
    destruct (digitsVal_pretty_N_go (Npos p)) as [m Hm].
    specialize (Hm "" 0). rewrite Hs in Hm |- *.
    destruct (isDigit_not_sign c Hd) as [Hm1 Hp1].
    unfold Atoi. rewrite Hm1, Hp1, Hm. cbn [digitsVal].
    replace (0 * m + Z.of_N (N.pos p)) with (Z.pos p) by lia.
    cbn. rewrite Hz. reflexivity.
  - rewrite pretty_neg.
    destruct (pretty_N_go_head (Npos p) "" ltac:(lia)) as (c & r & Hs & Hd).
    destruct (digitsVal_pretty_N_go (Npos p)) as [m Hm].
    specialize (Hm "" 0). rewrite Hs in Hm |- *.
    unfold Atoi. cbn [Ascii.eqb Bool.eqb]. rewrite Hm. cbn [digitsVal].
    replace (0 * m + Z.of_N (N.pos p)) with (Z.pos p) by lia.
    cbn [mbind option_bind]. change (- Z.pos p) with (Z.neg p). rewrite Hz. reflexivity.
Qed.

Lemma pretty_nonempty (z : Z) : pretty z <> "".
Proof.
  destruct z as [|p|p]; [discriminate| |discriminate].
  rewrite pretty_pos.
  destruct (pretty_N_go_head (Npos p) "" ltac:(lia)) as (c & r & -> & _). discriminate.
Qed.

(** X18. An integer variable is read back as written: for every [int] [z],
    [getEnvInt] on a variable holding the decimal text of [z] returns [z],
    whatever the fallback.  [Load] takes the worker count that way and does
    not check it: zero and negative counts pass. *)
Theorem getEnvInt_reads_decimal
        (env : gmap string string) (key : string) (fallback z : Z) :
  in_int64 z ->
  getEnvInt (<[key := pretty z]> env) key fallback = z /\
  WorkerCount (Load (<["CONVERSION_WORKER_COUNT" := pretty z]> env)) = z.
Proof.
  intros Hz.
  assert (Hg : forall k e fb, getEnvInt (<[k := pretty z]> e) k fb = z).
  { intros k e fb. unfold getEnvInt, Getenv. rewrite lookup_insert_eq. cbn [default from_option id].
    destruct (String.eqb_spec (pretty z) "") as [He|_];
      [exfalso; exact (pretty_nonempty z He)|].
    cbn [negb]. rewrite (Atoi_pretty z Hz). reflexivity. }
  split; [apply Hg|]. unfold Load. cbn [WorkerCount]. apply Hg.
Qed.

Lemma Atoi_in_int64 s z : Atoi s = Some z -> in_int64 z.
Proof.
  unfold Atoi.
  destruct (match s with
            | String c r => if Ascii.eqb c "-" then (true, r)
                            else if Ascii.eqb c "+" then (false, r) else (false, s)
            | EmptyString => (false, s)
            end) as [neg body].
  destruct body as [|c r]; [discriminate|].
  destruct (digitsVal (String c r) 0) as [n|]; [|discriminate]. cbn [mbind option_bind].
  destruct (in_int64b (if neg then - n else n)) eqn:Hb; [|discriminate].
  intros [= <-]. unfold in_int64b in Hb. apply andb_true_iff in Hb as [H1 H2].
  apply Z.leb_le in H1, H2. split; assumption.
Qed.


Lemma lower_idem c : lower (lower c) = lower c.
Proof. destruct c as [[] [] [] [] [] [] [] []]; reflexivity. Qed.

Lemma foldName_idem s : foldName (foldName s) = foldName s.
Proof. induction s as [|c s IH]; [reflexivity|]. cbn. rewrite lower_idem, IH. reflexivity. Qed.

Lemma foldName_empty s : String.eqb (foldName s) "" = String.eqb s "".
Proof. destruct s; reflexivity. Qed.

(** X20. [getEnvBool] does not look at the case of ASCII letters: a value and
    its lower-case form read the same. *)
Theorem getEnvBool_ignores_case
        (env : gmap string string) (key value : string) (fallback : bool) :
  getEnvBool (<[key := value]> env) key fallback
  = getEnvBool (<[key := ToLower value]> env) key fallback.
Proof.
  unfold getEnvBool, Getenv. rewrite !lookup_insert_eq. cbn [default from_option id].
  unfold ToLower. rewrite foldName_idem, foldName_empty. reflexivity.
Qed.

Lemma applyPrefix_app key prefix : applyPrefix key prefix = (prefix ++ key)%string.
Proof. unfold applyPrefix. destruct (String.eqb_spec prefix "") as [->|_]; reflexivity. Qed.

Lemma string_app_inv_head (p a b : string) : (p ++ a)%string = (p ++ b)%string -> a = b.
Proof. induction p as [|c p IH]; cbn; [trivial|]. intros [= Hab]. apply IH, Hab. Qed.

(** X21. The three queue names [Load] builds are the configured names behind
    the Redis prefix, so names that differ still differ with the prefix. *)
Theorem Load_queue_names (env : gmap string string) :
  let pending := getEnv env "CONVERSION_PENDING_QUEUE" "conversion:pending" in
  let processing := getEnv env "CONVERSION_PROCESSING_QUEUE" "conversion:processing" in
  let failed := getEnv env "CONVERSION_FAILED_QUEUE" "conversion:failed" in
  let cfg := Load env in
  PendingQueue cfg = (RedisPrefix cfg ++ pending)%string /\
  ProcessingQueue cfg = (RedisPrefix cfg ++ processing)%string /\
  FailedQueue cfg = (RedisPrefix cfg ++ failed)%string /\
  (pending <> processing -> PendingQueue cfg <> ProcessingQueue cfg) /\
  (pending <> failed -> PendingQueue cfg <> FailedQueue cfg) /\
  (processing <> failed -> ProcessingQueue cfg <> FailedQueue cfg).
Proof.
  cbv zeta. unfold Load. cbn [PendingQueue ProcessingQueue FailedQueue RedisPrefix].
  rewrite !applyPrefix_app.
  repeat split; try reflexivity;
    intros Hne Heq; apply Hne; exact (string_app_inv_head _ _ _ Heq).
Qed.

End Configuration.

(** ** The JSON tags of a job *)

Section Tags.
Import Models EncodingJSON.

Lemma folded_tags_differ f g :
  foldName (fieldName f) = foldName (fieldName g) -> f = g.
Proof. destruct f, g; intros Heq; try reflexivity; vm_compute in Heq; discriminate Heq. Qed.

Lemma allFields_complete f : In f allFields.
Proof. destruct f; cbn; tauto. Qed.

(** X22. The JSON tags of [ConversionJob] stay apart when the case of letters
    is ignored, as the decoder ignores it: a key that equals a tag up to
    case names the field of that tag and no other. *)
Theorem fieldOfKey_any_case (f : Field) (k : string) :
  foldName k = foldName (fieldName f) -> fieldOfKey k = Some f.
Proof.
  intros Hk. unfold fieldOfKey.
  destruct (List.find (fun g => String.eqb (fieldName g) k) allFields) as [g|] eqn:He.
  - apply List.find_some in He as [_ Hg]. apply String.eqb_eq in Hg.
    f_equal. apply folded_tags_differ. rewrite Hg. exact Hk.
  - destruct (List.find (fun g => String.eqb (foldName (fieldName g)) (foldName k)) allFields)
      as [g|] eqn:Hf.
    + apply List.find_some in Hf as [_ Hg]. apply String.eqb_eq in Hg.
      f_equal. apply folded_tags_differ. rewrite Hg. exact Hk.
    + pose proof (List.find_none _ _ Hf f (allFields_complete f)) as Hn.
      cbv beta in Hn. rewrite Hk, String.eqb_refl in Hn. discriminate Hn.
Qed.

End Tags.

(** ** The workers [main] starts *)

Section MainLoop.
Import GoInt Config Main.

Lemma startWorkersFrom_spec count : forall fuel i,
  count - i <= Z.of_nat fuel ->
  (forall x, In x (startWorkersFrom fuel i count) <-> i <= x < count) /\
  List.NoDup (startWorkersFrom fuel i count) /\
  length (startWorkersFrom fuel i count) = Z.to_nat (count - i).
Proof.
  induction fuel as [|fuel IH]; intros i Hf.
  - cbn [startWorkersFrom]. split; [|split].
    + intros x. cbn. lia.
    + apply List.NoDup_nil.
    + cbn. lia.
  - cbn [startWorkersFrom]. destruct (Z.ltb_spec i count) as [Hlt|Hge].
    + destruct (IH (i + 1) ltac:(lia)) as (Hin & Hnd & Hlen). split; [|split].
      * intros x. split.
        -- intros [Hx|Hx]; [lia | apply Hin in Hx; lia].
        -- intros Hx. destruct (Z.eq_dec i x) as [He|Hne];
             [left; exact He | right; apply Hin; lia].
      * apply List.NoDup_cons; [intros Hx; apply Hin in Hx; lia | exact Hnd].
      * cbn [length]. rewrite Hlen. lia.
    + split; [|split].
      * intros x. cbn. lia.
      * apply List.NoDup_nil.
      * cbn. lia.
Qed.

(** X23. The workers [main] starts carry the ids [0] up to the worker count
    less one, each once; with a count of zero or less it starts none, and
    nothing in [main] or [Load] rules that out. *)
Theorem main_starts_workers (cfg : Config) :
  (forall i, In i (startWorkers cfg) <-> 0 <= i < WorkerCount cfg) /\
  List.NoDup (startWorkers cfg) /\
  length (startWorkers cfg) = Z.to_nat (WorkerCount cfg) /\
  (WorkerCount cfg <= 0 -> startWorkers cfg = []).
Proof.
  unfold startWorkers.
  destruct (startWorkersFrom_spec (WorkerCount cfg) (Z.to_nat (WorkerCount cfg)) 0
              ltac:(lia)) as (Hin & Hnd & Hlen).
  rewrite Z.sub_0_r in Hlen.
  split; [exact Hin|]. split; [exact Hnd|]. split; [exact Hlen|].
  intros Hle. apply length_zero_iff_nil. rewrite Hlen. lia.
Qed.
End MainLoop.

(** ** The properties above on the sample job *)

Section MoreCases.
Import GoInt GoTime Models EncodingJSON Effects Redis DatabaseService Outside Worker.
Import S3Service GotenbergService Props Samples Lifecycle.


Lemma processJob_completed_status_witness :
  fails envAllGood = false /\
  hStatus <$> (statusHash (exec (processJob 1 job42 entry42 envAllGood) (worldOf entry42))
                 !! ConversionID job42)
  = Some (Some "completed").
Proof.
  assert (Hf : fails envAllGood = false) by reflexivity.
  split; [exact Hf|].
  destruct (processJob_completed_status 1 job42 entry42 envAllGood (worldOf entry42) Hf)
    as [Hst _].
  exact Hst.
Defined.

Lemma StartWorker_idle_witness :
  pending (worldOf entry42) = [] /\
  exec (StartWorker 1 [(true, envAllGood); (false, envAllGood)]) (worldOf entry42)
  = setLogs (logs (worldOf entry42)
               ++ LogStarting 1
                  :: idleLines 1 [(true, envAllGood); (false, envAllGood)]
                  ++ [LogShuttingDown 1])
            (worldOf entry42).
Proof.
  assert (Hp : pending (worldOf entry42) = []) by reflexivity.
  split; [exact Hp|].
  exact (StartWorker_idle 1 [(true, envAllGood); (false, envAllGood)] (worldOf entry42) Hp).
Defined.

Lemma rounds_reach_failed_witness :
  Unmarshal entry42 = Some job42 /\
  failed (exec (rounds [(1, envConvertFails); (2, envConvertFails);
                        (1, envConvertFails); (3, envConvertFails)])
               (pendingWorldOf entry42))
  = (if RetryCount job42 =? MaxRetries job42 then entry42
     else Marshal (setRetryCount (MaxRetries job42) job42))
    :: failed (pendingWorldOf entry42).
Proof.
  assert (Hu : Unmarshal entry42 = Some job42) by (vm_compute; reflexivity).
  assert (Hwt : wellTyped job42)
    by (split; unfold in_int64, min_int64, max_int64; simpl; lia).
  assert (Hle : RetryCount job42 <= MaxRetries job42) by (simpl; lia).
  assert (Hrt : forall k, RetryCount job42 < k <= MaxRetries job42 ->
                  Unmarshal (Marshal (setRetryCount k job42))
                  = Some (setRetryCount k job42)).
  { intros k Hk. simpl in Hk.
    assert (Hc : k = 1 \/ k = 2 \/ k = 3) by lia.
    destruct Hc as [Hc|[Hc|Hc]]; subst k; vm_compute; reflexivity. }
  assert (Hall : Forall (fun r : Z * AttemptEnv => fails (snd r) = true)
                        [(1, envConvertFails); (2, envConvertFails);
                         (1, envConvertFails); (3, envConvertFails)])
    by (repeat apply Forall_cons_2; try apply Forall_nil_2; reflexivity).
  split; [exact Hu|].
  destruct (rounds_reach_failed
              [(1, envConvertFails); (2, envConvertFails);
               (1, envConvertFails); (3, envConvertFails)]
              job42 entry42 (pendingWorldOf entry42)
              Hwt Hu Hle Hrt Hall eq_refl eq_refl eq_refl) as (_ & _ & _ & Hfailed).
  exact Hfailed.
Defined.

Lemma RecoveryLoop_first_tick_witness :
  In entry42 (processing (worldOf entry42)) /\
  Unmarshal entry42 = Some job42 /\
  unixNano (CreatedAt job42) < clock (worldOf entry42) /\
  ~ In entry42 (processing (exec (RecoveryLoop [false]) (worldOf entry42))).
Proof.
  assert (Hin : In entry42 (processing (worldOf entry42))) by (left; reflexivity).
  assert (Hu : Unmarshal entry42 = Some job42) by (vm_compute; reflexivity).
  assert (Hold : unixNano (CreatedAt job42) < clock (worldOf entry42))
    by (vm_compute; reflexivity).
  split; [exact Hin|]. split; [exact Hu|]. split; [exact Hold|].
  destruct (RecoveryLoop_first_tick entry42 job42 (worldOf entry42) Hin Hu Hold)
    as [Hgone _].
  exact Hgone.
Defined.

Lemma sweep_then_failure_requeues_twice_witness :
  Unmarshal entry42 = Some job42 /\
  Since (clock (staleWorldOf entry42)) (CreatedAt job42) > 5 * Minute /\
  RetryCount job42 < MaxRetries job42 /\
  pending (exec (elapse (30 * Second))
             (exec (handleJobFailure 1 job42 entry42 "conversion failed")
                (exec (recoverStaleJobs false) (staleWorldOf entry42))))
  = Marshal (bump job42) :: Marshal (bump job42) :: pending (staleWorldOf entry42).
Proof.
  assert (Hu : Unmarshal entry42 = Some job42) by (vm_compute; reflexivity).
  assert (Hs : Since (clock (staleWorldOf entry42)) (CreatedAt job42) > 5 * Minute)
    by (vm_compute; reflexivity).
  assert (Hlt : RetryCount job42 < MaxRetries job42) by (simpl; lia).
  split; [exact Hu|]. split; [exact Hs|]. split; [exact Hlt|].
  destruct (sweep_then_failure_requeues_twice 1 entry42 "conversion failed" job42
              (staleWorldOf entry42) Hu Hs Hlt eq_refl eq_refl) as [Hpend _].
  exact Hpend.
Defined.

Lemma backoffDelay_range_witness :
  Second <= backoffDelay 2 <= backoffDelay 7 /\ backoffDelay (-3) = 0.
Proof.
  destruct (backoffDelay_range 2 7) as (_ & _ & H).
  destruct (H ltac:(lia) ltac:(lia)) as [H1 _].
  destruct (backoffDelay_range 0 (-3)) as (_ & H0 & _).
  split; [exact H1 | apply H0; lia].
Defined.

Lemma handleJobFailure_counts_every_failure_witness :
  table (worldOf entry42spent) !! ConversionID job42spent = Some row42 /\
  accepts 1 (worldOf entry42spent) = true /\
  retry_count <$> (table (exec (handleJobFailure 1 job42spent entry42spent
                                                  "conversion failed")
                               (worldOf entry42spent))
                     !! ConversionID job42spent)
  = Some (retry_count row42 + 1).
Proof.
  assert (Hr : table (worldOf entry42spent) !! ConversionID job42spent = Some row42)
    by (vm_compute; reflexivity).
  assert (Ha : accepts 1 (worldOf entry42spent) = true) by reflexivity.
  split; [exact Hr|]. split; [exact Ha|].
  destruct (handleJobFailure_counts_every_failure 1 job42spent entry42spent
              "conversion failed" (worldOf entry42spent) row42 Hr Ha) as [Hrow _].
  exact Hrow.
Defined.


Lemma Download_then_Cleanup_witness :
  download envAllGood = DownloadOk /\
  eval (Cleanup (fst (eval (Download envAllGood "in/a.docx" "abc-def" "docx")
                           (worldOf entry42))))
       (exec (Download envAllGood "in/a.docx" "abc-def" "docx") (worldOf entry42))
  = None.
Proof.
  assert (Hd : download envAllGood = DownloadOk) by reflexivity.
  split; [exact Hd|].
  destruct (Download_then_Cleanup envAllGood "in/a.docx" "abc-def" "docx"
              (worldOf entry42) Hd) as (_ & _ & Hc & _).
  exact Hc.
Defined.

End MoreCases.

Section ConfigCases.
Import GoInt Models EncodingJSON Config Main.

Lemma getEnvInt_reads_decimal_witness :
  getEnvInt (<["CONVERSION_TIMEOUT" := "-7"]> ∅) "CONVERSION_TIMEOUT" 120 = -7 /\
  WorkerCount (Load (<["CONVERSION_WORKER_COUNT" := "-7"]> ∅)) = -7.
Proof.
  exact (getEnvInt_reads_decimal ∅ "CONVERSION_TIMEOUT" 120 (-7)
           ltac:(unfold in_int64, min_int64, max_int64; lia)).
Defined.


Lemma Load_queue_names_witness :
  PendingQueue (Load (<["REDIS_PREFIX" := "pulse:"]> ∅)) <>
  ProcessingQueue (Load (<["REDIS_PREFIX" := "pulse:"]> ∅)).
Proof.
  destruct (Load_queue_names (<["REDIS_PREFIX" := "pulse:"]> ∅)) as (_ & _ & _ & H & _).
  apply H. vm_compute. discriminate.
Defined.

Lemma fieldOfKey_any_case_witness : fieldOfKey "RETRYCOUNT" = Some FRetryCount.
Proof. exact (fieldOfKey_any_case FRetryCount "RETRYCOUNT" eq_refl). Defined.

Lemma main_starts_workers_witness :
  WorkerCount (Load (<["CONVERSION_WORKER_COUNT" := "0"]> ∅)) <= 0 /\
  startWorkers (Load (<["CONVERSION_WORKER_COUNT" := "0"]> ∅)) = [].
Proof.
  assert (Hz : WorkerCount (Load (<["CONVERSION_WORKER_COUNT" := "0"]> ∅)) <= 0)
    by (vm_compute; discriminate).
  split; [exact Hz|].
  destruct (main_starts_workers (Load (<["CONVERSION_WORKER_COUNT" := "0"]> ∅)))
    as (_ & _ & _ & Hnone).
  exact (Hnone Hz).
Defined.

End ConfigCases.
